(** * crypto-intelligence: the ingestion-and-analysis pipeline

    A shallow embedding of the backend services of the repository
    (market processor, alert service, indicator engine, fetch client,
    forecast ensemble, correlation engine) and the properties that its
    specification states about them.

    Conventions of the embedding.
    - A JavaScript number is an exact rational ([Q]): rounding error,
      overflow and the infinities of binary64 are outside the model, and
      [NaN] is modelled where the code can produce it from [undefined].
      Where a property hinges on rounding the code is written over its
      arithmetic and read twice: the correlation engine, which tests
      computed sums against zero, over the reals ([R]) and over binary64
      (the primitive floats); the weights of the forecast ensemble over
      the rationals and over binary64.
    - [Date.now()] is an explicit argument (milliseconds, [Z]); a function
      that reads the clock at several points takes an argument per point.
    - A [Map] or an object used as a dictionary is a [gmap string _]; the
      cache object of the fetch client, which is read under keys given by
      callers, also has the members that it inherits from
      [Object.prototype].
    - An [async] method is the state transformer that runs it to
      completion, on a database that is part of the state; a call that is
      parked in the wait queue of the fetch client ends as pending.
      [createAlertFromAnomaly] is also given by its segments between one
      [await] and the next, for calls that overlap.
    - An event emitter is the list of the events it emits; whether a
      listener for ['error'] is registered, without which emitting
      ['error'] throws, is an argument.
    - Packages that the repository depends on ([technicalindicators], the
      network behind [axios], [Math.sqrt]) are parameters. *)

From Stdlib Require Import ZArith QArith Qabs Lia Lqa List String Ascii Bool.
From stdpp Require Import gmap strings list fin_maps pretty.
Import ListNotations.

Local Open Scope Z_scope.

(* ===================================================================== *)
(** * JavaScript values and numbers *)
(* ===================================================================== *)

Module JS.

(** The values a numeric field of a provider payload or a database row
    can hold. *)
Inductive value : Type :=
| Undefined
| Null
| Num (q : Q).

(** A number as an arithmetic result: [None] is [NaN]. *)
Definition number : Type := option Q.

Definition Qlt_bool (a b : Q) : bool := negb (Qle_bool b a).

(** [ToBoolean]. *)
Definition truthy (v : value) : bool :=
  match v with
  | Undefined | Null => false
  | Num q => negb (Qeq_bool q 0)
  end.

(** [ToNumber]: [undefined] is [NaN], [null] is [0]. *)
Definition to_number (v : value) : number :=
  match v with
  | Undefined => None
  | Null => Some 0%Q
  | Num q => Some q
  end.

Definition nsub (a b : number) : number :=
  match a, b with
  | Some x, Some y => Some (x - y)%Q
  | _, _ => None
  end.

Definition nmul (a b : number) : number :=
  match a, b with
  | Some x, Some y => Some (x * y)%Q
  | _, _ => None
  end.

(** Division that reports a zero divisor: the outer [None] is "the
    divisor was zero" (JavaScript would answer an infinity or [NaN]
    silently); a [NaN] operand gives [Some None]. *)
Definition ndiv (a b : number) : option number :=
  match b with
  | Some y =>
      if Qeq_bool y 0 then None
      else Some (match a with Some x => Some (x / y)%Q | None => None end)
  | None => Some None
  end.

Definition nabs (a : number) : number :=
  match a with
  | Some x => Some (Qabs x)
  | None => None
  end.

(** [a >= b], [a > b], [a <= b], [a < b]: every comparison with [NaN]
    is false. *)
Definition nge (a b : number) : bool :=
  match a, b with
  | Some x, Some y => Qle_bool y x
  | _, _ => false
  end.

Definition ngt (a b : number) : bool :=
  match a, b with
  | Some x, Some y => Qlt_bool y x
  | _, _ => false
  end.

Definition nle (a b : number) : bool := nge b a.
Definition nlt (a b : number) : bool := ngt b a.

(** [x === null], [x === undefined]. *)
Definition is_null (v : value) : bool :=
  match v with Null => true | _ => false end.

Definition is_undefined (v : value) : bool :=
  match v with Undefined => true | _ => false end.

(** [String.prototype.toUpperCase] on ASCII letters. *)
Definition upper_ascii (c : ascii) : ascii :=
  let n := nat_of_ascii c in
  if (Nat.leb 97 n && Nat.leb n 122)%bool then ascii_of_nat (n - 32) else c.

Fixpoint toUpperCase (s : string) : string :=
  match s with
  | EmptyString => EmptyString
  | String c s' => String (upper_ascii c) (toUpperCase s')
  end.

(** Round to the nearest integer, ties away from zero. *)
Definition round_half_away (q : Q) : Z :=
  let n := Qnum q in
  let d := Zpos (Qden q) in
  if n <? 0 then - ((2 * (- n) + d) / (2 * d))
  else (2 * n + d) / (2 * d).

Fixpoint pad_left (width : nat) (s : string) : string :=
  if Nat.ltb (String.length s) width
  then match width with
       | O => s
       | S w => pad_left w ("0" +:+ s)
       end
  else s.

(** [Number.prototype.toFixed(digits)] of a finite number. *)
Definition toFixed (digits : nat) (q : Q) : string :=
  let scale := 10 ^ Z.of_nat digits in
  let n := round_half_away (q * inject_Z scale) in
  let sign := if n <? 0 then "-" else "" in
  let m := Z.abs n in
  let int_part := pretty (m / scale) in
  match digits with
  | O => sign +:+ int_part
  | _ => sign +:+ int_part +:+ "." +:+ pad_left digits (pretty (m mod scale))
  end.

Definition number_toFixed (digits : nat) (a : number) : string :=
  match a with
  | Some q => toFixed digits q
  | None => "NaN"
  end.

End JS.

(* ===================================================================== *)
(** * Market processor ([DataProcessor], services/dataProcessor.js) *)
(* ===================================================================== *)

Module DataProcessor.
Import JS.

(** The fields of a provider snapshot entry that the processor reads. *)
Record coin : Type := {
  coin_id : string;
  coin_name : string;
  coin_symbol : string;
  current_price : value;
  total_volume : value;
  market_cap : value
}.

(** An entry of the [previousValues] map. *)
Record prev_values : Type := {
  prev_price : value;
  prev_volume : value;
  prev_marketCap : value;
  prev_lastUpdated : Z
}.

Record anomaly : Type := {
  crypto_id : string;
  anomaly_type : string;
  old_value : value;
  new_value : value;
  percentage_change : number;
  description : string;
  timestamp : Z
}.

Record t : Type := {
  priceThreshold : Q;
  volumeThreshold : Q;
  previousValues : gmap string prev_values
}.

(** [config.analytics.anomaly]. *)
Definition config_priceThreshold : Q := 5.
Definition config_volumeThreshold : Q := 20.

Definition create : t :=
  {| priceThreshold := config_priceThreshold;
     volumeThreshold := config_volumeThreshold;
     previousValues := ∅ |}.

(** [((current - previous) / previous) * 100]; [None] when the divisor
    is zero. *)
Definition percent_change (current previous : value) : option number :=
  match ndiv (nsub (to_number current) (to_number previous)) (to_number previous) with
  | Some r => Some (nmul r (Some 100%Q))
  | None => None
  end.

Definition price_description (c : coin) (change : number) : string :=
  "Значительное изменение цены " +:+ coin_name c +:+ " (" +:+
  toUpperCase (coin_symbol c) +:+ ") на " +:+ number_toFixed 2 change +:+ "%".

Definition volume_description (c : coin) (change : number) : string :=
  "Значительное изменение объема торгов " +:+ coin_name c +:+ " (" +:+
  toUpperCase (coin_symbol c) +:+ ") на " +:+ number_toFixed 2 change +:+ "%".

(** The price block of [detectAnomalies]. *)
Definition detect_price (dp : t) (c : coin) (pv : prev_values) (now : Z)
  : option (list anomaly) :=
  if truthy (prev_price pv) && truthy (current_price c) then
    match percent_change (current_price c) (prev_price pv) with
    | Some priceChange =>
        if nge (nabs priceChange) (Some (priceThreshold dp)) then
          Some [ {| crypto_id := coin_id c;
                    anomaly_type := "price";
                    old_value := prev_price pv;
                    new_value := current_price c;
                    percentage_change := priceChange;
                    description := price_description c priceChange;
                    timestamp := now |} ]
        else Some []
    | None => None
    end
  else Some [].

(** The volume block of [detectAnomalies]. *)
Definition detect_volume (dp : t) (c : coin) (pv : prev_values) (now : Z)
  : option (list anomaly) :=
  if truthy (prev_volume pv) && truthy (total_volume c) then
    match percent_change (total_volume c) (prev_volume pv) with
    | Some volumeChange =>
        if nge (nabs volumeChange) (Some (volumeThreshold dp)) then
          Some [ {| crypto_id := coin_id c;
                    anomaly_type := "volume";
                    old_value := prev_volume pv;
                    new_value := total_volume c;
                    percentage_change := volumeChange;
                    description := volume_description c volumeChange;
                    timestamp := now |} ]
        else Some []
    | None => None
    end
  else Some [].

(** [detectAnomalies(coin)].  The result is [None] exactly when a
    division with a zero divisor was evaluated. *)
Definition detectAnomalies (dp : t) (c : coin) (now : Z) : option (list anomaly) :=
  match previousValues dp !! coin_id c with
  | None => Some []
  | Some pv =>
      match detect_price dp c pv now, detect_volume dp c pv now with
      | Some ps, Some vs => Some (ps ++ vs)
      | _, _ => None
      end
  end.

(** [updatePreviousValues(coin)]. *)
Definition updatePreviousValues (dp : t) (c : coin) (now : Z) : t :=
  {| priceThreshold := priceThreshold dp;
     volumeThreshold := volumeThreshold dp;
     previousValues :=
       <[ coin_id c := {| prev_price := current_price c;
                          prev_volume := total_volume c;
                          prev_marketCap := market_cap c;
                          prev_lastUpdated := now |} ]> (previousValues dp) |}.

Definition has_type (ty : string) (a : anomaly) : bool :=
  bool_decide (anomaly_type a = ty).

(** ** Properties *)

Lemma truthy_nonzero (v : value) :
  truthy v = true -> exists q, v = Num q /\ Qeq_bool q 0 = false.
Proof.
  destruct v as [| |q]; simpl; try discriminate.
  intros H. exists q. split; [reflexivity|].
  now apply negb_true_iff.
Qed.

Lemma percent_change_truthy (cur prev : value) :
  truthy prev = true -> is_Some (percent_change cur prev).
Proof.
  intros H. destruct (truthy_nonzero _ H) as (q & -> & Hq).
  unfold percent_change, ndiv. simpl. rewrite Hq. eexists; reflexivity.
Qed.

Lemma detect_price_total (dp : t) (c : coin) (pv : prev_values) (now : Z) :
  is_Some (detect_price dp c pv now).
Proof.
  unfold detect_price.
  destruct (truthy (prev_price pv)) eqn:Hp; simpl; [|eexists; reflexivity].
  destruct (truthy (current_price c)); simpl; [|eexists; reflexivity].
  destruct (percent_change_truthy (current_price c) _ Hp) as [r ->].
  destruct (nge _ _); eexists; reflexivity.
Qed.

Lemma detect_volume_total (dp : t) (c : coin) (pv : prev_values) (now : Z) :
  is_Some (detect_volume dp c pv now).
Proof.
  unfold detect_volume.
  destruct (truthy (prev_volume pv)) eqn:Hp; simpl; [|eexists; reflexivity].
  destruct (truthy (total_volume c)); simpl; [|eexists; reflexivity].
  destruct (percent_change_truthy (total_volume c) _ Hp) as [r ->].
  destruct (nge _ _); eexists; reflexivity.
Qed.

Lemma detect_price_types (dp : t) (c : coin) (pv : prev_values) (now : Z) l :
  detect_price dp c pv now = Some l ->
  filter (fun a => has_type "volume" a = true) l = [] /\
  (truthy (prev_price pv) && truthy (current_price c) = false -> l = []).
Proof.
  unfold detect_price.
  destruct (truthy (prev_price pv) && truthy (current_price c)).
  - destruct (percent_change _ _); [|discriminate].
    destruct (nge _ _); intros [= <-]; split; try reflexivity; discriminate.
  - intros [= <-]. split; reflexivity.
Qed.

Lemma detect_volume_types (dp : t) (c : coin) (pv : prev_values) (now : Z) l :
  detect_volume dp c pv now = Some l ->
  filter (fun a => has_type "price" a = true) l = [] /\
  (truthy (prev_volume pv) && truthy (total_volume c) = false -> l = []).
Proof.
  unfold detect_volume.
  destruct (truthy (prev_volume pv) && truthy (total_volume c)).
  - destruct (percent_change _ _); [|discriminate].
    destruct (nge _ _); intros [= <-]; split; try reflexivity; discriminate.
  - intros [= <-]. split; reflexivity.
Qed.

(** C10.  [detectAnomalies] never evaluates a division whose divisor is
    zero: on every processor state, snapshot entry and clock reading it
    returns a list of anomalies (never the zero-divisor outcome).  A price
    (volume) anomaly is emitted only when both the stored previous price
    (volume) and the incoming one are truthy; in particular a previous
    value that is [0], [null], [undefined] or has no entry at all yields no
    anomaly of that kind. *)
Theorem detectAnomalies_no_zero_division (dp : t) (c : coin) (now : Z) :
  exists l,
    detectAnomalies dp c now = Some l /\
    (previousValues dp !! coin_id c = None -> l = []) /\
    (forall pv, previousValues dp !! coin_id c = Some pv ->
       (truthy (prev_price pv) && truthy (current_price c) = false ->
        filter (fun a => has_type "price" a = true) l = []) /\
       (truthy (prev_volume pv) && truthy (total_volume c) = false ->
        filter (fun a => has_type "volume" a = true) l = [])).
Proof.
  unfold detectAnomalies.
  destruct (previousValues dp !! coin_id c) as [pv|] eqn:Hpv.
  - destruct (detect_price_total dp c pv now) as [ps Hps].
    destruct (detect_volume_total dp c pv now) as [vs Hvs].
    rewrite Hps, Hvs. exists (ps ++ vs). split; [reflexivity|].
    split; [discriminate|].
    intros pv' [= <-].
    destruct (detect_price_types _ _ _ _ _ Hps) as [Hp1 Hp2].
    destruct (detect_volume_types _ _ _ _ _ Hvs) as [Hv1 Hv2].
    split; intros H; rewrite filter_app.
    + rewrite (Hp2 H), Hv1. reflexivity.
    + rewrite (Hv2 H), Hp1. reflexivity.
  - exists []. split; [reflexivity|]. split; [reflexivity|]. discriminate.
Qed.

(** ** Processing a snapshot *)

(** A row of [price_history]. *)
Record history_row : Type := {
  h_crypto_id : string;
  h_price : value;
  h_market_cap : value;
  h_total_volume : value;
  h_timestamp : Z
}.

(** The three tables that the processor writes.  A row of
    [cryptocurrencies] is kept as the snapshot entry it was written from
    (both the [INSERT] and the [UPDATE] set every column from the entry). *)
Record database : Type := {
  cryptocurrencies : gmap string coin;
  price_history : list history_row;
  anomalies : list anomaly
}.

(** [saveOrUpdateCrypto(coin)]: the database after the call and the
    [isNew] field of the result.  An entry has a symbol and a name (the
    record holds them as strings), so the [NOT NULL] constraints of the
    table are met and neither statement fails. *)
Definition saveOrUpdateCrypto (db : database) (c : coin) : database * bool :=
  let db' := {| cryptocurrencies := <[ coin_id c := c ]> (cryptocurrencies db);
                price_history := price_history db;
                anomalies := anomalies db |} in
  match cryptocurrencies db !! coin_id c with
  | None => (db', true)
  | Some _ => (db', false)
  end.

(** [savePriceHistory(coin)]: [price REAL NOT NULL] rejects an entry
    without a price; the error is caught and the result is not read. *)
Definition savePriceHistory (db : database) (c : coin) (now : Z) : database :=
  if is_null (current_price c) || is_undefined (current_price c) then db
  else {| cryptocurrencies := cryptocurrencies db;
          price_history :=
            price_history db ++
            [ {| h_crypto_id := coin_id c; h_price := current_price c;
                 h_market_cap := market_cap c; h_total_volume := total_volume c;
                 h_timestamp := now |} ];
          anomalies := anomalies db |}.

(** [saveAnomalies(anomalies)]. *)
Definition saveAnomalies (db : database) (found : list anomaly) : database :=
  {| cryptocurrencies := cryptocurrencies db;
     price_history := price_history db;
     anomalies := anomalies db ++ found |}.

(** The [results] object of [processMarketData]. *)
Record results : Type := {
  updated : nat;
  newEntries : nat;
  res_anomalies : list anomaly;
  timeProcessed : Z
}.

(** The clock readings made while one entry is processed: by
    [savePriceHistory], [detectAnomalies] and [updatePreviousValues]. *)
Record coin_clock : Type := {
  cc_history : Z;
  cc_detect : Z;
  cc_update : Z
}.

(** One turn of the loop of [processMarketData]. *)
Definition process_coin (st : t * database * results) (e : coin * coin_clock)
  : option (t * database * results) :=
  let '(dp, db, res) := st in
  let '(c, clk) := e in
  let '(db1, isNew) := saveOrUpdateCrypto db c in
  let res1 :=
    if isNew
    then {| updated := updated res; newEntries := S (newEntries res);
            res_anomalies := res_anomalies res; timeProcessed := timeProcessed res |}
    else {| updated := S (updated res); newEntries := newEntries res;
            res_anomalies := res_anomalies res; timeProcessed := timeProcessed res |} in
  let db2 := savePriceHistory db1 c (cc_history clk) in
  match detectAnomalies dp c (cc_detect clk) with
  | None => None
  | Some found =>
      let '(db3, res2) :=
        match found with
        | [] => (db2, res1)
        | _ => (saveAnomalies db2 found,
                {| updated := updated res1; newEntries := newEntries res1;
                   res_anomalies := res_anomalies res1 ++ found;
                   timeProcessed := timeProcessed res1 |})
        end in
      Some (updatePreviousValues dp c (cc_update clk), db3, res2)
  end.

Fixpoint process_all (st : t * database * results) (marketData : list (coin * coin_clock))
  : option (t * database * results) :=
  match marketData with
  | [] => Some st
  | e :: rest =>
      match process_coin st e with
      | Some st' => process_all st' rest
      | None => None
      end
  end.

(** [processMarketData(marketData)] on an array: the processor, the
    database and the [results] object after the call; [None] when a
    division by zero was evaluated on the way. *)
Definition processMarketData (dp : t) (db : database)
    (marketData : list (coin * coin_clock)) (now : Z) : option (t * database * results) :=
  process_all
    (dp, db, {| updated := 0; newEntries := 0; res_anomalies := []; timeProcessed := now |})
    marketData.

Definition ids (marketData : list (coin * coin_clock)) : list string :=
  map (fun e => coin_id (fst e)) marketData.

(** ** Properties of a run *)

Lemma detectAnomalies_total (dp : t) (c : coin) (now : Z) :
  is_Some (detectAnomalies dp c now).
Proof.
  unfold detectAnomalies. destruct (previousValues dp !! coin_id c) as [pv|];
    [|eexists; reflexivity].
  destruct (detect_price_total dp c pv now) as [ps ->].
  destruct (detect_volume_total dp c pv now) as [vs ->].
  eexists; reflexivity.
Qed.

(** What one turn of the loop does to the state. *)
Lemma process_coin_step (dp : t) (db : database) (res : results) (c : coin)
    (clk : coin_clock) :
  exists found db' res',
    detectAnomalies dp c (cc_detect clk) = Some found /\
    process_coin (dp, db, res) (c, clk) =
      Some (updatePreviousValues dp c (cc_update clk), db', res') /\
    cryptocurrencies db' = <[ coin_id c := c ]> (cryptocurrencies db) /\
    anomalies db' = anomalies db ++ found /\
    res_anomalies res' = res_anomalies res ++ found /\
    timeProcessed res' = timeProcessed res /\
    (updated res' + newEntries res' = S (updated res + newEntries res))%nat /\
    newEntries res' =
      (newEntries res +
       match cryptocurrencies db !! coin_id c with Some _ => 0 | None => 1 end)%nat.
Proof.
  destruct (detectAnomalies_total dp c (cc_detect clk)) as [found Hf].
  exists found. unfold process_coin, saveOrUpdateCrypto, savePriceHistory, saveAnomalies.
  rewrite Hf.
  destruct (cryptocurrencies db !! coin_id c) as [row|];
    destruct (is_null (current_price c) || is_undefined (current_price c));
    destruct found as [|a found']; eexists; eexists;
    (split; [reflexivity|]); (split; [reflexivity|]);
    cbn [cryptocurrencies anomalies res_anomalies timeProcessed updated newEntries];
    rewrite ?app_nil_r; repeat split; lia.
Qed.

Lemma updatePreviousValues_lookup (dp : t) (c : coin) (now : Z) (id : string) :
  previousValues (updatePreviousValues dp c now) !! id =
    if decide (coin_id c = id)
    then Some {| prev_price := current_price c; prev_volume := total_volume c;
                 prev_marketCap := market_cap c; prev_lastUpdated := now |}
    else previousValues dp !! id.
Proof.
  unfold updatePreviousValues. cbn [previousValues].
  destruct (decide (coin_id c = id)) as [->|Hne].
  - apply lookup_insert_eq.
  - now apply lookup_insert_ne.
Qed.

(** The bookkeeping of a run, from any state of the accumulators. *)
Lemma process_all_accounting (marketData : list (coin * coin_clock)) :
  forall (dp : t) (db : database) (res : results),
  exists dp' db' res',
    process_all (dp, db, res) marketData = Some (dp', db', res') /\
    (updated res' + newEntries res' =
       updated res + newEntries res + length marketData)%nat /\
    (size (cryptocurrencies db') + newEntries res =
       size (cryptocurrencies db) + newEntries res')%nat /\
    (exists found, anomalies db' = anomalies db ++ found /\
                   res_anomalies res' = res_anomalies res ++ found) /\
    timeProcessed res' = timeProcessed res /\
    (forall id, is_Some (cryptocurrencies db' !! id) <->
                is_Some (cryptocurrencies db !! id) \/ In id (ids marketData)) /\
    (forall id, is_Some (previousValues dp' !! id) <->
                is_Some (previousValues dp !! id) \/ In id (ids marketData)).
Proof.
  induction marketData as [|[c clk] rest IH]; intros dp db res.
  - exists dp, db, res. cbn. repeat split; try lia; try tauto.
    exists []. now rewrite !app_nil_r.
  - destruct (process_coin_step dp db res c clk)
      as (found & db1 & res1 & _ & Hstep & Hc & Ha & Hr & Ht & Hsum & Hnew).
    destruct (IH (updatePreviousValues dp c (cc_update clk)) db1 res1)
      as (dp' & db' & res' & Hrun & Hsum' & Hsize & (found' & Ha' & Hr') & Ht' & Hdom & Hprev).
    exists dp', db', res'. cbn [process_all]. rewrite Hstep.
    split; [exact Hrun|]. split; [cbn [length]; lia|]. split.
    { rewrite Hc, map_size_insert in Hsize. revert Hnew Hsize.
      destruct (cryptocurrencies db !! coin_id c); intros Hnew Hsize;
        cbv [id] in Hsize; lia. }
    split.
    { exists (found ++ found'). rewrite Ha', Hr', Ha, Hr, <- !app_assoc. now split. }
    split; [congruence|]. split.
    + intros id. rewrite Hdom, Hc. cbn [ids map In fst].
      destruct (decide (coin_id c = id)) as [->|Hne].
      * rewrite lookup_insert_eq. split; [tauto|]. intros _. left. now eexists.
      * rewrite lookup_insert_ne by exact Hne. tauto.
    + intros id. rewrite Hprev, updatePreviousValues_lookup. cbn [ids map In fst].
      destruct (decide (coin_id c = id)) as [->|Hne]; [|tauto].
      split; [tauto|]. intros _. left. now eexists.
Qed.

(** Entries of assets outside the snapshot, and the thresholds, are not
    touched by a run. *)
Lemma process_all_frame (marketData : list (coin * coin_clock)) :
  forall (dp : t) (db : database) (res : results) dp' db' res',
    process_all (dp, db, res) marketData = Some (dp', db', res') ->
    priceThreshold dp' = priceThreshold dp /\
    volumeThreshold dp' = volumeThreshold dp /\
    forall id, ~ In id (ids marketData) ->
      previousValues dp' !! id = previousValues dp !! id.
Proof.
  induction marketData as [|[c clk] rest IH]; intros dp db res dp' db' res'.
  - cbn. intros [= <- <- <-]. repeat split.
  - cbn [process_all].
    destruct (process_coin_step dp db res c clk) as (found & db1 & res1 & _ & -> & _).
    intros Hrun. destruct (IH _ _ _ _ _ _ Hrun) as (Hp & Hv & Hother).
    split; [exact Hp|]. split; [exact Hv|].
    intros id Hid. cbn [ids map In fst] in Hid.
    rewrite Hother by tauto. rewrite updatePreviousValues_lookup.
    destruct (decide (coin_id c = id)); tauto.
Qed.

(** After a run over distinct assets, the remembered values of each are
    the ones of its entry. *)
Lemma process_all_remembers (marketData : list (coin * coin_clock)) :
  List.NoDup (ids marketData) ->
  forall (dp : t) (db : database) (res : results) dp' db' res',
    process_all (dp, db, res) marketData = Some (dp', db', res') ->
    forall c clk, In (c, clk) marketData ->
      previousValues dp' !! coin_id c =
        Some {| prev_price := current_price c; prev_volume := total_volume c;
                prev_marketCap := market_cap c; prev_lastUpdated := cc_update clk |}.
Proof.
  induction marketData as [|[c0 clk0] rest IH]; intros Hnd dp db res dp' db' res'.
  - intros _ c clk [].
  - cbn [ids map fst] in Hnd. apply List.NoDup_cons_iff in Hnd. destruct Hnd as [Hfresh Hnd].
    cbn [process_all].
    destruct (process_coin_step dp db res c0 clk0) as (found & db1 & res1 & _ & -> & _).
    intros Hrun c clk [[= <- <-]|Hin].
    + destruct (process_all_frame _ _ _ _ _ _ _ Hrun) as (_ & _ & Hother).
      rewrite (Hother _ Hfresh), updatePreviousValues_lookup.
      destruct (decide (coin_id c0 = coin_id c0)); [reflexivity|contradiction].
    + exact (IH Hnd _ _ _ _ _ _ Hrun c clk Hin).
Qed.

(** A run over assets that are all in the table counts no new entry. *)
Lemma process_all_known (marketData : list (coin * coin_clock)) :
  forall (dp : t) (db : database) (res : results) dp' db' res',
    (forall id, In id (ids marketData) -> is_Some (cryptocurrencies db !! id)) ->
    process_all (dp, db, res) marketData = Some (dp', db', res') ->
    newEntries res' = newEntries res.
Proof.
  induction marketData as [|[c clk] rest IH]; intros dp db res dp' db' res' Hknown.
  - cbn. now intros [= <- <- <-].
  - cbn [process_all].
    destruct (process_coin_step dp db res c clk)
      as (found & db1 & res1 & _ & -> & Hc & _ & _ & _ & _ & Hnew).
    intros Hrun.
    assert (Hknown1 : forall id, In id (ids rest) -> is_Some (cryptocurrencies db1 !! id)).
    { intros id Hid. rewrite Hc.
      destruct (decide (coin_id c = id)) as [->|Hne].
      - rewrite lookup_insert_eq. now eexists.
      - rewrite lookup_insert_ne by exact Hne. apply Hknown. now right. }
    rewrite (IH _ _ _ _ _ _ Hknown1 Hrun), Hnew.
    destruct (Hknown (coin_id c)) as [row ->]; [now left|lia].
Qed.

Section Quiet.

(** A condition on the processor and an entry under which
    [detectAnomalies] finds nothing, and which the processing of another
    asset does not disturb. *)
Variable Q : t -> coin -> Prop.
Hypothesis Q_quiet : forall dp c now, Q dp c -> detectAnomalies dp c now = Some [].
Hypothesis Q_stable :
  forall dp c c' now, Q dp c -> coin_id c' <> coin_id c ->
                      Q (updatePreviousValues dp c' now) c.

Lemma process_all_quiet (marketData : list (coin * coin_clock)) :
  List.NoDup (ids marketData) ->
  forall (dp : t) (db : database) (res : results) dp' db' res',
    (forall c clk, In (c, clk) marketData -> Q dp c) ->
    process_all (dp, db, res) marketData = Some (dp', db', res') ->
    res_anomalies res' = res_anomalies res /\ anomalies db' = anomalies db.
Proof.
  induction marketData as [|[c0 clk0] rest IH]; intros Hnd dp db res dp' db' res' HQ.
  - cbn. now intros [= <- <- <-].
  - cbn [ids map fst] in Hnd. apply List.NoDup_cons_iff in Hnd. destruct Hnd as [Hfresh Hnd].
    cbn [process_all].
    destruct (process_coin_step dp db res c0 clk0)
      as (found & db1 & res1 & Hf & -> & _ & Ha & Hr & _).
    rewrite (Q_quiet dp c0 (cc_detect clk0)) in Hf by (apply (HQ c0 clk0); now left).
    injection Hf as <-. rewrite app_nil_r in Ha, Hr.
    intros Hrun. rewrite <- Ha, <- Hr. apply (IH Hnd _ _ _ _ _ _ ) in Hrun; [exact Hrun|].
    intros c clk Hin. apply Q_stable; [apply (HQ c clk); now right|].
    intros Heq. apply Hfresh. rewrite Heq. unfold ids.
    apply List.in_map_iff. exists (c, clk). now split.
Qed.

End Quiet.

(** An entry whose price and volume are the remembered ones changes by
    0 percent, which is below any positive threshold. *)
Lemma no_change_below (th q : Q) :
  (0 < th)%Q -> Qeq_bool q 0 = false ->
  Qle_bool th (Qabs ((q - q) / q * 100)) = false.
Proof.
  intros Hth Hq. destruct (Qle_bool th (Qabs ((q - q) / q * 100))) eqn:E; [|reflexivity].
  apply Qle_bool_iff in E.
  assert (Hz : ((q - q) / q * 100 == 0)%Q).
  { field. intros H0. apply Qeq_bool_iff in H0. congruence. }
  rewrite Hz in E. change (Qabs 0) with 0%Q in E. lra.
Qed.

Lemma percent_change_same (q : Q) :
  Qeq_bool q 0 = false ->
  percent_change (Num q) (Num q) = Some (Some ((q - q) / q * 100)%Q).
Proof. intros Hq. unfold percent_change, ndiv. cbn [to_number nsub]. now rewrite Hq. Qed.

Lemma detectAnomalies_unchanged (dp : t) (c : coin) (now : Z) (pv : prev_values) :
  (0 < priceThreshold dp)%Q -> (0 < volumeThreshold dp)%Q ->
  previousValues dp !! coin_id c = Some pv ->
  prev_price pv = current_price c -> prev_volume pv = total_volume c ->
  detectAnomalies dp c now = Some [].
Proof.
  intros Hp Hv Hpv Eprice Evolume. unfold detectAnomalies. rewrite Hpv.
  assert (E1 : detect_price dp c pv now = Some []).
  { unfold detect_price. rewrite Eprice.
    destruct (truthy (current_price c)) eqn:Ht; [|reflexivity].
    destruct (truthy_nonzero _ Ht) as (q & -> & Hq).
    rewrite (percent_change_same q Hq). cbn [andb nge nabs].
    now rewrite (no_change_below _ _ Hp Hq). }
  assert (E2 : detect_volume dp c pv now = Some []).
  { unfold detect_volume. rewrite Evolume.
    destruct (truthy (total_volume c)) eqn:Ht; [|reflexivity].
    destruct (truthy_nonzero _ Ht) as (q & -> & Hq).
    rewrite (percent_change_same q Hq). cbn [andb nge nabs].
    now rewrite (no_change_below _ _ Hv Hq). }
  now rewrite E1, E2.
Qed.

(** X15.  The bookkeeping of [processMarketData].  A snapshot is always
    processed to the end.  Every entry is counted once, either as new or
    as updated; the entries counted as new are as many as the rows that
    the [cryptocurrencies] table has gained; the anomalies reported in the
    result are exactly the rows appended to the [anomalies] table; and
    afterwards exactly the assets of the snapshot have been added to the
    table and to the remembered previous values. *)
Theorem processMarketData_accounting (dp : t) (db : database)
    (marketData : list (coin * coin_clock)) (now : Z) :
  exists dp' db' res,
    processMarketData dp db marketData now = Some (dp', db', res) /\
    (updated res + newEntries res = length marketData)%nat /\
    size (cryptocurrencies db') = (size (cryptocurrencies db) + newEntries res)%nat /\
    anomalies db' = anomalies db ++ res_anomalies res /\
    timeProcessed res = now /\
    (forall id, is_Some (cryptocurrencies db' !! id) <->
                is_Some (cryptocurrencies db !! id) \/ In id (ids marketData)) /\
    (forall id, is_Some (previousValues dp' !! id) <->
                is_Some (previousValues dp !! id) \/ In id (ids marketData)).
Proof.
  unfold processMarketData.
  destruct (process_all_accounting marketData dp db
              {| updated := 0; newEntries := 0; res_anomalies := []; timeProcessed := now |})
    as (dp' & db' & res & Hrun & Hsum & Hsize & (found & Ha & Hr) & Ht & Hdom & Hprev).
  exists dp', db', res. cbn in Hsum, Hsize, Hr, Ht. subst found.
  repeat split; try assumption; try lia; try (now apply Hdom); now apply Hprev.
Qed.

(** X16.  The first sight of an asset raises no anomaly.  When none of
    the assets of a snapshot has remembered values (as after a start of the
    process) and no asset occurs twice in it, [processMarketData] reports
    no anomaly and appends nothing to the [anomalies] table, whatever the
    prices and volumes are. *)
Theorem processMarketData_cold_start (dp : t) (db : database)
    (marketData : list (coin * coin_clock)) (now : Z) :
  (forall id, In id (ids marketData) -> previousValues dp !! id = None) ->
  List.NoDup (ids marketData) ->
  exists dp' db' res,
    processMarketData dp db marketData now = Some (dp', db', res) /\
    res_anomalies res = [] /\
    anomalies db' = anomalies db.
Proof.
  intros Hcold Hnd. unfold processMarketData.
  destruct (process_all_accounting marketData dp db
              {| updated := 0; newEntries := 0; res_anomalies := []; timeProcessed := now |})
    as (dp' & db' & res & Hrun & _).
  exists dp', db', res. split; [exact Hrun|].
  apply (process_all_quiet (fun dp c => previousValues dp !! coin_id c = None))
    with (marketData := marketData) (dp := dp) (dp' := dp')
         (res := {| updated := 0; newEntries := 0; res_anomalies := [];
                    timeProcessed := now |}); try assumption.
  - intros dp0 c now0 H. unfold detectAnomalies. now rewrite H.
  - intros dp0 c c' now0 H Hne. rewrite updatePreviousValues_lookup.
    destruct (decide (coin_id c' = coin_id c)); [contradiction|exact H].
  - intros c clk Hin. apply Hcold. unfold ids. apply List.in_map_iff.
    exists (c, clk). now split.
Qed.

(** The condition of the replay: thresholds are positive and the
    remembered price and volume of the asset are those of the entry. *)
Definition unchanged (dp : t) (c : coin) : Prop :=
  (0 < priceThreshold dp)%Q /\ (0 < volumeThreshold dp)%Q /\
  exists pv, previousValues dp !! coin_id c = Some pv /\
             prev_price pv = current_price c /\ prev_volume pv = total_volume c.

(** X17.  A snapshot that repeats the previous one raises no anomaly.
    After [processMarketData] has processed a snapshot of distinct assets,
    processing the same entries again (at any later clock readings)
    reports no anomaly, appends nothing to the [anomalies] table, counts
    every entry as updated and none as new, provided that both thresholds
    are positive. *)
Theorem processMarketData_replay (dp : t) (db : database)
    (first second : list (coin * coin_clock)) (now1 now2 : Z)
    (dp1 : t) (db1 : database) (res1 : results) :
  (0 < priceThreshold dp)%Q -> (0 < volumeThreshold dp)%Q ->
  List.NoDup (ids first) ->
  map fst second = map fst first ->
  processMarketData dp db first now1 = Some (dp1, db1, res1) ->
  exists dp2 db2 res2,
    processMarketData dp1 db1 second now2 = Some (dp2, db2, res2) /\
    res_anomalies res2 = [] /\
    anomalies db2 = anomalies db1 /\
    newEntries res2 = 0%nat /\
    updated res2 = length second.
Proof.
  intros Hp Hv Hnd Hsame Hrun1. unfold processMarketData in *.
  assert (Hids : ids second = ids first).
  { unfold ids. rewrite <- (List.map_map fst coin_id second),
                        <- (List.map_map fst coin_id first). now rewrite Hsame. }
  destruct (process_all_frame _ _ _ _ _ _ _ Hrun1) as (Hp1 & Hv1 & _).
  set (res0 := {| updated := 0; newEntries := 0; res_anomalies := [];
                  timeProcessed := now2 |}).
  destruct (process_all_accounting second dp1 db1 res0)
    as (dp2 & db2 & res2 & Hrun2 & Hsum & _).
  exists dp2, db2, res2. split; [exact Hrun2|].
  assert (Hquiet : res_anomalies res2 = res_anomalies res0 /\ anomalies db2 = anomalies db1).
  { apply (process_all_quiet unchanged) with (marketData := second) (dp := dp1) (dp' := dp2).
    - intros dp0 c now0 (H1 & H2 & pv & H3 & H4 & H5).
      exact (detectAnomalies_unchanged dp0 c now0 pv H1 H2 H3 H4 H5).
    - intros dp0 c c' now0 (H1 & H2 & pv & H3 & H4 & H5) Hne.
      split; [exact H1|]. split; [exact H2|]. exists pv.
      rewrite updatePreviousValues_lookup.
      destruct (decide (coin_id c' = coin_id c)); [contradiction|now repeat split].
    - now rewrite Hids.
    - intros c clk Hin.
      assert (Hc : In c (map fst first)).
      { rewrite <- Hsame. apply List.in_map_iff. exists (c, clk). now split. }
      apply List.in_map_iff in Hc. destruct Hc as ([c' clk'] & Hc' & Hin').
      cbn in Hc'. subst c'.
      split; [now rewrite Hp1|]. split; [now rewrite Hv1|].
      eexists. split; [exact (process_all_remembers first Hnd _ _ _ _ _ _ Hrun1 c clk' Hin')|].
      now split.
    - exact Hrun2. }
  destruct Hquiet as [Hq1 Hq2]. split; [exact Hq1|]. split; [exact Hq2|].
  assert (Hnew : newEntries res2 = newEntries res0).
  { apply (process_all_known second dp1 db1 res0 dp2 db2 res2); [|exact Hrun2].
    intros id Hid. rewrite Hids in Hid.
    destruct (process_all_accounting first dp db
                {| updated := 0; newEntries := 0; res_anomalies := [];
                   timeProcessed := now1 |})
      as (dp1' & db1' & res1' & Hrun1' & _ & _ & _ & _ & Hdom & _).
    rewrite Hrun1 in Hrun1'. injection Hrun1' as <- <- <-.
    apply Hdom. now right. }
  cbn in Hnew, Hsum. split; [exact Hnew|]. lia.
Qed.

(** A snapshot of two assets. *)
Definition sample_coin (id : string) (price : Q) : coin :=
  {| coin_id := id; coin_name := id; coin_symbol := id;
     current_price := Num price; total_volume := Num 1000; market_cap := Null |}.

Definition sample_snapshot (at_time : Z) : list (coin * coin_clock) :=
  [ (sample_coin "bitcoin" 100,
     {| cc_history := at_time; cc_detect := at_time; cc_update := at_time |});
    (sample_coin "ethereum" 50,
     {| cc_history := at_time; cc_detect := at_time; cc_update := at_time |}) ].

Definition empty_database : database :=
  {| cryptocurrencies := ∅; price_history := []; anomalies := [] |}.

Lemma processMarketData_cold_start_witness :
  exists dp' db' res,
    processMarketData create empty_database (sample_snapshot 0) 0 = Some (dp', db', res) /\
    res_anomalies res = [] /\
    anomalies db' = anomalies empty_database.
Proof.
  apply (processMarketData_cold_start create empty_database (sample_snapshot 0) 0).
  - intros id _. apply lookup_empty.
  - repeat constructor; cbn; intuition discriminate.
Defined.

Lemma processMarketData_replay_witness :
  exists dp1 db1 res1,
    processMarketData create empty_database (sample_snapshot 0) 0 = Some (dp1, db1, res1) /\
    exists dp2 db2 res2,
      processMarketData dp1 db1 (sample_snapshot 60000) 60000 = Some (dp2, db2, res2) /\
      res_anomalies res2 = [] /\
      anomalies db2 = anomalies db1 /\
      newEntries res2 = 0%nat /\
      updated res2 = 2%nat.
Proof.
  destruct (processMarketData create empty_database (sample_snapshot 0) 0)
    as [[[dp1 db1] res1]|] eqn:Hrun; [|discriminate Hrun].
  exists dp1, db1, res1. split; [reflexivity|].
  apply (processMarketData_replay create empty_database (sample_snapshot 0)
           (sample_snapshot 60000) 0 60000 dp1 db1 res1).
  - reflexivity.
  - reflexivity.
  - repeat constructor; cbn; intuition discriminate.
  - reflexivity.
  - exact Hrun.
Defined.

End DataProcessor.

(* ===================================================================== *)
(** * Indicator engine ([TechnicalAnalysisService], services/technicalAnalysis.js) *)
(* ===================================================================== *)

Module TechnicalAnalysis.
Import JS.

(** [config.analytics.indicators]. *)
Record rsi_settings : Type := {
  rs_period : Z;
  rs_overbought : Q;
  rs_oversold : Q
}.

Record macd_settings : Type := {
  ms_fastPeriod : Z;
  ms_slowPeriod : Z;
  ms_signalPeriod : Z
}.

Record settings : Type := {
  smaPeriods : list Z;
  rsiSettings : rsi_settings;
  macdSettings : macd_settings
}.

Definition config_indicators : settings :=
  {| smaPeriods := [7; 25; 99];
     rsiSettings := {| rs_period := 14; rs_overbought := 70; rs_oversold := 30 |};
     macdSettings := {| ms_fastPeriod := 12; ms_slowPeriod := 26; ms_signalPeriod := 9 |} |}.

(** One element of the array that [technicalindicators.MACD.calculate]
    returns; [signal] and [histogram] are [undefined] on the first
    elements of the series. *)
Record macd_point : Type := {
  MACD : value;
  signal : value;
  histogram : value
}.

(** ** The objects built by [calculateIndicators] *)

Record sma_result : Type := {
  sma_period : Z;
  sma_values : list Q;
  sma_current : value
}.

Record rsi_result : Type := {
  rsi_period : Z;
  rsi_values : list Q;
  rsi_current : value;
  rsi_overbought : Q;
  rsi_oversold : Q;
  rsi_condition : string
}.

Record macd_result : Type := {
  macd_fastPeriod : Z;
  macd_slowPeriod : Z;
  macd_signalPeriod : Z;
  macd_values : list macd_point;
  macd_current : option macd_point;
  macd_signal : string
}.

(** [results] of [calculateIndicators]; the [sma] object is keyed by
    [period_<n>], here by [n], in insertion order. *)
Record results : Type := {
  res_cryptoId : string;
  res_timestamp : Z;
  res_prices : list Q;
  res_sma : list (Z * sma_result);
  res_rsi : rsi_result;
  res_macd : macd_result
}.

(** [arr.length > 0 ? arr[arr.length - 1] : null] on an array of numbers. *)
Definition last_or_null (l : list Q) : value :=
  match List.last (map Some l) None with
  | Some q => Num q
  | None => Null
  end.

(** Assignment [obj[key] = v] on an object kept in insertion order. *)
Fixpoint obj_set {V : Type} (k : Z) (v : V) (o : list (Z * V)) : list (Z * V) :=
  match o with
  | [] => [(k, v)]
  | (k', v') :: o' => if k' =? k then (k, v) :: o' else (k', v') :: obj_set k v o'
  end.

Fixpoint obj_get {V : Type} (k : Z) (o : list (Z * V)) : option V :=
  match o with
  | [] => None
  | (k', v') :: o' => if k' =? k then Some v' else obj_get k o'
  end.

Section Library.

(** The [technicalindicators] package is a dependency of the repository;
    its three [calculate] functions are parameters of the embedding. *)
Variable SMA_calculate : Z -> list Q -> list Q.
Variable RSI_calculate : Z -> list Q -> list Q.
Variable MACD_calculate : macd_settings -> list Q -> list macd_point.

(** [calculateSMA(prices)]. *)
Definition calculateSMA (cfg : settings) (prices : list Q) : list (Z * sma_result) :=
  fold_left
    (fun results period =>
       let sma := SMA_calculate period prices in
       obj_set period
         {| sma_period := period; sma_values := sma; sma_current := last_or_null sma |}
         results)
    (smaPeriods cfg) [].

(** The part of [calculateRSI] that follows the library call. *)
Definition rsi_of_series (cfg : settings) (rsi : list Q) : rsi_result :=
  let currentValue := last_or_null rsi in
  let marketCondition :=
    if negb (is_null currentValue) then
      if nge (to_number currentValue) (Some (rs_overbought (rsiSettings cfg))) then "overbought"
      else if nle (to_number currentValue) (Some (rs_oversold (rsiSettings cfg))) then "oversold"
      else "neutral"
    else "neutral" in
  {| rsi_period := rs_period (rsiSettings cfg);
     rsi_values := rsi;
     rsi_current := currentValue;
     rsi_overbought := rs_overbought (rsiSettings cfg);
     rsi_oversold := rs_oversold (rsiSettings cfg);
     rsi_condition := marketCondition |}.

Definition calculateRSI (cfg : settings) (prices : list Q) : rsi_result :=
  rsi_of_series cfg (RSI_calculate (rs_period (rsiSettings cfg)) prices).

(** [macd[macd.length - 2]]. *)
Definition second_last (macd : list macd_point) : option macd_point :=
  match rev macd with
  | _ :: p :: _ => Some p
  | _ => None
  end.

(** The crossover test of [calculateMACD]: [macd.length > 1] is the
    existence of the element before the last. *)
Definition crossover_signal (macd : list macd_point) : string :=
  match List.last (map Some macd) None with
  | Some current =>
      if ngt (to_number (MACD current)) (to_number (signal current)) &&
         match second_last macd with
         | Some prev => nle (to_number (MACD prev)) (to_number (signal prev))
         | None => false
         end
      then "buy"
      else if nlt (to_number (MACD current)) (to_number (signal current)) &&
              match second_last macd with
              | Some prev => nge (to_number (MACD prev)) (to_number (signal prev))
              | None => false
              end
      then "sell"
      else "neutral"
  | None => "neutral"
  end.

(** The part of [calculateMACD] that follows the library call. *)
Definition macd_of_series (cfg : settings) (macd : list macd_point) : macd_result :=
  {| macd_fastPeriod := ms_fastPeriod (macdSettings cfg);
     macd_slowPeriod := ms_slowPeriod (macdSettings cfg);
     macd_signalPeriod := ms_signalPeriod (macdSettings cfg);
     macd_values := macd;
     macd_current := List.last (map Some macd) None;
     macd_signal := crossover_signal macd |}.

Definition calculateMACD (cfg : settings) (prices : list Q) : macd_result :=
  macd_of_series cfg (MACD_calculate (macdSettings cfg) prices).

(** The computation of [calculateIndicators] between the history query
    and [saveIndicators]; [None] is the error thrown on an empty history. *)
Definition calculate_results (cfg : settings) (cryptoId : string) (now : Z)
    (prices : list Q) : option results :=
  match prices with
  | [] => None
  | _ =>
      Some {| res_cryptoId := cryptoId;
              res_timestamp := now;
              res_prices := prices;
              res_sma := calculateSMA cfg prices;
              res_rsi := calculateRSI cfg prices;
              res_macd := calculateMACD cfg prices |}
  end.

End Library.

(** ** Persistence of indicator values *)

(** The object passed to [JSON.stringify] for the [parameters] column. *)
Inductive parameters : Type :=
| ParamsSMA (period : Z)
| ParamsRSI (period : Z) (condition : string)
| ParamsMACDLine (fastPeriod slowPeriod signalPeriod : Z) (sig : string)
| ParamsMACD (fastPeriod slowPeriod signalPeriod : Z).

(** An [INSERT INTO technical_indicators] query with its parameters. *)
Record query : Type := {
  q_crypto_id : string;
  q_indicator_type : string;
  q_value : value;
  q_parameters : parameters;
  q_timestamp : Z
}.

Definition sma_queries (r : results) : list query :=
  flat_map
    (fun e : Z * sma_result =>
       let sma := snd e in
       if negb (is_null (sma_current sma)) then
         if is_null (sma_current sma) || is_undefined (sma_current sma) then []
         else [ {| q_crypto_id := res_cryptoId r;
                   q_indicator_type := "SMA";
                   q_value := sma_current sma;
                   q_parameters := ParamsSMA (sma_period sma);
                   q_timestamp := res_timestamp r |} ]
       else [])
    (res_sma r).

Definition rsi_query (r : results) : query :=
  {| q_crypto_id := res_cryptoId r;
     q_indicator_type := "RSI";
     q_value := rsi_current (res_rsi r);
     q_parameters := ParamsRSI (rsi_period (res_rsi r)) (rsi_condition (res_rsi r));
     q_timestamp := res_timestamp r |}.

Definition rsi_queries (r : results) : list query :=
  if negb (is_null (rsi_current (res_rsi r))) then
    (if is_null (rsi_current (res_rsi r)) || is_undefined (rsi_current (res_rsi r))
     then []
     else [rsi_query r])
    ++ [rsi_query r]
  else [].

Definition macd_queries (r : results) : list query :=
  match macd_current (res_macd r) with
  | None => []
  | Some current =>
      if is_null (MACD current) || is_undefined (MACD current) then []
      else
        let m := res_macd r in
        [ {| q_crypto_id := res_cryptoId r;
             q_indicator_type := "MACD_line";
             q_value := MACD current;
             q_parameters :=
               ParamsMACDLine (macd_fastPeriod m) (macd_slowPeriod m)
                              (macd_signalPeriod m) (macd_signal m);
             q_timestamp := res_timestamp r |};
          {| q_crypto_id := res_cryptoId r;
             q_indicator_type := "MACD_signal";
             q_value := signal current;
             q_parameters :=
               ParamsMACD (macd_fastPeriod m) (macd_slowPeriod m) (macd_signalPeriod m);
             q_timestamp := res_timestamp r |};
          {| q_crypto_id := res_cryptoId r;
             q_indicator_type := "MACD_histogram";
             q_value := histogram current;
             q_parameters :=
               ParamsMACD (macd_fastPeriod m) (macd_slowPeriod m) (macd_signalPeriod m);
             q_timestamp := res_timestamp r |} ]
  end.

(** The [queries] array that [saveIndicators] hands to [db.transaction]. *)
Definition saveIndicators_queries (r : results) : list query :=
  sma_queries r ++ rsi_queries r ++ macd_queries r.

(** The [technical_indicators] table: [value REAL NOT NULL] rejects a
    row whose value is [null] or [undefined]. *)
Definition row_ok (q : query) : bool :=
  negb (is_null (q_value q) || is_undefined (q_value q)).

(** [db.transaction(queries)]: the inserts run in order between [BEGIN]
    and [COMMIT]; when every row satisfies the constraint of the table the
    promise resolves with all of them appended.  [None] stands for every
    run in which some insert fails: its callback throws, outside the
    promise and before [COMMIT] is run, and the rows of the run are not
    committed. *)
Definition transaction (table : list query) (queries : list query)
  : option (list query) :=
  if forallb row_ok queries then Some (table ++ queries) else None.

(** [saveIndicators(results)]: the new table, or [None] when the
    transaction did not go through. *)
Definition saveIndicators (table : list query) (r : results) : option (list query) :=
  transaction table (saveIndicators_queries r).


(** ** The object built by [getLatestIndicators] *)

(** [{ value, timestamp, parameters }] as read back from a table row. *)
Record latest_value : Type := {
  lv_value : value;
  lv_timestamp : Z
}.

Record latest_macd : Type := {
  lm_line : latest_value;
  lm_signal : option latest_value;
  lm_histogram : option latest_value
}.

Record latest : Type := {
  lat_cryptoId : string;
  lat_timestamp : Z;
  lat_sma : list (Z * latest_value);
  lat_rsi : option latest_value;
  lat_macd : option latest_macd
}.

Definition latest_of_row (row : query) : latest_value :=
  {| lv_value := q_value row; lv_timestamp := q_timestamp row |}.

(** [getLatestIndicators(cryptoId)]; the arguments after the clock are
    the answers of the five kinds of [db.get] queries (the newest row of
    each indicator type, if any). *)
Definition getLatestIndicators (cfg : settings) (cryptoId : string) (now : Z)
    (smaRow : Z -> option query)
    (rsiRow macdLineRow macdSignalRow macdHistogramRow : option query) : latest :=
  {| lat_cryptoId := cryptoId;
     lat_timestamp := now;
     lat_sma :=
       fold_left
         (fun smaResults period =>
            match smaRow period with
            | Some row => obj_set period (latest_of_row row) smaResults
            | None => smaResults
            end)
         (smaPeriods cfg) [];
     lat_rsi := option_map latest_of_row rsiRow;
     lat_macd :=
       match macdLineRow with
       | Some line =>
           Some {| lm_line := latest_of_row line;
                   lm_signal := option_map latest_of_row macdSignalRow;
                   lm_histogram := option_map latest_of_row macdHistogramRow |}
       | None => None
       end |}.

(** ** Interpretation *)

(** [interpretIndicators] is called with either shape of object: the
    one built by [calculateIndicators] or the one built by
    [getLatestIndicators]. *)
Inductive indicators : Type :=
| Calculated (r : results)
| Latest (l : latest).

(** Property reads of [interpretIndicators] on either shape.  A property
    that an object does not have reads as [undefined]. *)

(** [sma], as the list of [(period, sma[key].value)]. *)
Definition sma_values_of (ind : indicators) : list (Z * value) :=
  match ind with
  | Calculated r => map (fun e => (fst e, Undefined)) (res_sma r)
  | Latest l => map (fun e => (fst e, lv_value (snd e))) (lat_sma l)
  end.

(** [rsi]: [None] when falsy, else its [.value]. *)
Definition rsi_value_of (ind : indicators) : option value :=
  match ind with
  | Calculated r => Some Undefined
  | Latest l => option_map lv_value (lat_rsi l)
  end.

(** What the MACD block reads: [macd.line.value], [macd.signal.value]
    and [macd.histogram] with its [.value] and [.previousValue]; [None]
    when [macd && macd.line && macd.signal] is falsy. *)
Record macd_reads : Type := {
  mr_line_value : value;
  mr_signal_value : value;
  mr_histogram : option (value * value)
}.

Definition macd_reads_of (ind : indicators) : option macd_reads :=
  match ind with
  | Calculated r => None
  | Latest l =>
      match lat_macd l with
      | Some m =>
          match lm_signal m with
          | Some s =>
              Some {| mr_line_value := lv_value (lm_line m);
                      mr_signal_value := lv_value s;
                      mr_histogram :=
                        option_map (fun h => (lv_value h, Undefined)) (lm_histogram m) |}
          | None => None
          end
      | None => None
      end
  end.

Record rsi_interpretation : Type := {
  ri_condition : string;
  ri_signal : string
}.

Record macd_interpretation : Type := {
  mi_crossover : string;
  mi_signal : string;
  mi_histogram : option string
}.

Record overall_interpretation : Type := {
  ov_signal : string;
  ov_strength : number;
  ov_buySignals : Z;
  ov_sellSignals : Z;
  ov_neutralSignals : Z
}.

Record interpretation : Type := {
  int_sma_crossover : option string;
  int_rsi : option rsi_interpretation;
  int_macd : option macd_interpretation;
  int_overall : overall_interpretation
}.

(** The three counters [buySignals], [sellSignals], [neutralSignals]. *)
Record votes : Type := {
  buy : Z;
  sell : Z;
  neutral : Z
}.

Definition no_votes : votes := {| buy := 0; sell := 0; neutral := 0 |}.
Definition vote_buy (v : votes) : votes :=
  {| buy := buy v + 1; sell := sell v; neutral := neutral v |}.
Definition vote_sell (v : votes) : votes :=
  {| buy := buy v; sell := sell v + 1; neutral := neutral v |}.
Definition vote_neutral (v : votes) : votes :=
  {| buy := buy v; sell := sell v; neutral := neutral v + 1 |}.

Definition list_min (l : list Z) : option Z :=
  match l with
  | [] => None
  | x :: l' => Some (fold_left Z.min l' x)
  end.

Definition list_max (l : list Z) : option Z :=
  match l with
  | [] => None
  | x :: l' => Some (fold_left Z.max l' x)
  end.

(** The SMA block: the shortest and the longest period of the sorted key
    list are compared when there are at least two keys. *)
Definition interpret_sma (sma : list (Z * value)) (v : votes) : option string * votes :=
  let periods := map fst sma in
  if (2 <=? Z.of_nat (length periods)) then
    match list_min periods, list_max periods with
    | Some shortPeriod, Some longPeriod =>
        match obj_get shortPeriod sma, obj_get longPeriod sma with
        | Some shortSMA, Some longSMA =>
            if ngt (to_number shortSMA) (to_number longSMA) then (Some "bullish", vote_buy v)
            else if nlt (to_number shortSMA) (to_number longSMA) then (Some "bearish", vote_sell v)
            else (Some "neutral", vote_neutral v)
        | _, _ => (None, v)
        end
    | _, _ => (None, v)
    end
  else (None, v).

Definition interpret_rsi (cfg : settings) (rsi : option value) (v : votes)
  : option rsi_interpretation * votes :=
  match rsi with
  | Some rsiValue =>
      if negb (is_null rsiValue) then
        if nge (to_number rsiValue) (Some (rs_overbought (rsiSettings cfg))) then
          (Some {| ri_condition := "overbought"; ri_signal := "sell" |}, vote_sell v)
        else if nle (to_number rsiValue) (Some (rs_oversold (rsiSettings cfg))) then
          (Some {| ri_condition := "oversold"; ri_signal := "buy" |}, vote_buy v)
        else
          (Some {| ri_condition := "neutral"; ri_signal := "neutral" |}, vote_neutral v)
      else (None, v)
  | None => (None, v)
  end.

Definition interpret_histogram (h : value * value) : string :=
  let histogramValue := to_number (fst h) in
  let previousValue := to_number (snd h) in
  if ngt histogramValue (Some 0%Q) && ngt histogramValue previousValue
  then "increasing_positive"
  else if ngt histogramValue (Some 0%Q) && nlt histogramValue previousValue
  then "decreasing_positive"
  else if nlt histogramValue (Some 0%Q) && nlt histogramValue previousValue
  then "decreasing_negative"
  else if nlt histogramValue (Some 0%Q) && ngt histogramValue previousValue
  then "increasing_negative"
  else "neutral".

(** The MACD block. *)
Definition interpret_macd (macd : option macd_reads) (v : votes)
  : option macd_interpretation * votes :=
  match macd with
  | Some m =>
      let macdValue := to_number (mr_line_value m) in
      let signalValue := to_number (mr_signal_value m) in
      let hist := option_map interpret_histogram (mr_histogram m) in
      if ngt macdValue signalValue then
        (Some {| mi_crossover := "bullish"; mi_signal := "buy"; mi_histogram := hist |},
         vote_buy v)
      else if nlt macdValue signalValue then
        (Some {| mi_crossover := "bearish"; mi_signal := "sell"; mi_histogram := hist |},
         vote_sell v)
      else
        (Some {| mi_crossover := "neutral"; mi_signal := "neutral"; mi_histogram := hist |},
         vote_neutral v)
  | None => (None, v)
  end.

(** [count / (buy + sell + neutral)]; [0 / 0] is [NaN]. *)
Definition strength (count : Z) (v : votes) : number :=
  let total := buy v + sell v + neutral v in
  if total =? 0 then None else Some (inject_Z count / inject_Z total)%Q.

Definition interpret_overall (v : votes) : overall_interpretation :=
  if (sell v <? buy v) && (neutral v <? buy v) then
    {| ov_signal := "buy"; ov_strength := strength (buy v) v;
       ov_buySignals := buy v; ov_sellSignals := sell v; ov_neutralSignals := neutral v |}
  else if (buy v <? sell v) && (neutral v <? sell v) then
    {| ov_signal := "sell"; ov_strength := strength (sell v) v;
       ov_buySignals := buy v; ov_sellSignals := sell v; ov_neutralSignals := neutral v |}
  else
    {| ov_signal := "neutral"; ov_strength := strength (neutral v) v;
       ov_buySignals := buy v; ov_sellSignals := sell v; ov_neutralSignals := neutral v |}.

(** [interpretIndicators(indicators)] on an object that passes the
    initial check of its argument. *)
Definition interpretIndicators (cfg : settings) (ind : indicators) : interpretation :=
  let '(smaI, v1) := interpret_sma (sma_values_of ind) no_votes in
  let '(rsiI, v2) := interpret_rsi cfg (rsi_value_of ind) v1 in
  let '(macdI, v3) := interpret_macd (macd_reads_of ind) v2 in
  {| int_sma_crossover := smaI;
     int_rsi := rsiI;
     int_macd := macdI;
     int_overall := interpret_overall v3 |}.

(** The number of buy and of sell votes that the MACD block adds. *)
Definition macd_buy_votes (ind : indicators) : Z :=
  buy (snd (interpret_macd (macd_reads_of ind) no_votes)).

Definition macd_sell_votes (ind : indicators) : Z :=
  sell (snd (interpret_macd (macd_reads_of ind) no_votes)).

(** ** Properties *)








(** A run whose RSI series ends in 55, with no SMA and no MACD value. *)
Definition rsi_only_run : results :=
  {| res_cryptoId := "bitcoin";
     res_timestamp := 1700000000000;
     res_prices := [100%Q];
     res_sma := [];
     res_rsi := rsi_of_series config_indicators [55%Q];
     res_macd := macd_of_series config_indicators [] |}.




(** The MACD block votes by the plain comparison of the two newest
    values: nothing of the observation before the last one is read. *)
Lemma macd_vote_is_plain_comparison (l : latest) (m : latest_macd) (s : latest_value) :
  lat_macd l = Some m -> lm_signal m = Some s ->
  macd_buy_votes (Latest l) =
    (if ngt (to_number (lv_value (lm_line m))) (to_number (lv_value s)) then 1 else 0) /\
  macd_sell_votes (Latest l) =
    (if ngt (to_number (lv_value (lm_line m))) (to_number (lv_value s)) then 0
     else if nlt (to_number (lv_value (lm_line m))) (to_number (lv_value s)) then 1
     else 0).
Proof.
  intros Hm Hs. unfold macd_buy_votes, macd_sell_votes, macd_reads_of, interpret_macd.
  rewrite Hm, Hs. simpl.
  destruct (ngt _ _); [split; reflexivity|].
  destruct (nlt _ _); split; reflexivity.
Qed.

(** On the object of [calculateIndicators] the MACD block is skipped. *)
Lemma macd_no_vote_on_calculated (r : results) :
  macd_buy_votes (Calculated r) = 0 /\ macd_sell_votes (Calculated r) = 0.
Proof. split; reflexivity. Qed.

(** A MACD series that stays above its signal line over the last two
    observations, and one that crosses it upwards. *)
Definition steady_above : list macd_point :=
  [ {| MACD := Num 2; signal := Num 1; histogram := Num 1 |};
    {| MACD := Num 2; signal := Num 1; histogram := Num 1 |} ].

Definition crossing_up : list macd_point :=
  [ {| MACD := Num 1; signal := Num 2; histogram := Num (-1) |};
    {| MACD := Num 3; signal := Num 2; histogram := Num 1 |} ].

Definition run_with_macd (macd : list macd_point) : results :=
  {| res_cryptoId := "bitcoin";
     res_timestamp := 1700000000000;
     res_prices := [100%Q];
     res_sma := [];
     res_rsi := rsi_of_series config_indicators [];
     res_macd := macd_of_series config_indicators macd |}.

Definition find_row (ty : string) (table : list query) : option query :=
  List.find (fun q => bool_decide (q_indicator_type q = ty)) table.

(** The object that [getLatestIndicators] builds once the rows of a run
    have been saved to an empty table. *)
Definition latest_after (r : results) : option latest :=
  match saveIndicators [] r with
  | Some table =>
      Some (getLatestIndicators config_indicators (res_cryptoId r) (res_timestamp r)
              (fun _ => None)
              (find_row "RSI" table) (find_row "MACD_line" table)
              (find_row "MACD_signal" table) (find_row "MACD_histogram" table))
  | None => None
  end.

(** C5 (the code departs from the claim).  For the series [steady_above]
    the MACD line is above the signal line at both of the last two
    observations, so the crossover signal of [calculateMACD] is neutral;
    still, [interpretIndicators] applied to the saved-and-reloaded values
    counts one buy vote, from the plain comparison of the two newest
    values.  For the series [crossing_up] the crossover signal is a buy,
    and [interpretIndicators] applied to the object of
    [calculateIndicators] counts no MACD vote at all. *)
Theorem macd_vote_ignores_crossover :
  macd_signal (res_macd (run_with_macd steady_above)) = "neutral" /\
  option_map (fun l => macd_buy_votes (Latest l))
    (latest_after (run_with_macd steady_above)) = Some 1 /\
  option_map (fun l => ov_buySignals (int_overall (interpretIndicators config_indicators (Latest l))))
    (latest_after (run_with_macd steady_above)) = Some 1 /\
  macd_signal (res_macd (run_with_macd crossing_up)) = "buy" /\
  macd_buy_votes (Calculated (run_with_macd crossing_up)) = 0 /\
  ov_buySignals (int_overall
    (interpretIndicators config_indicators (Calculated (run_with_macd crossing_up)))) = 0.
Proof. repeat split; vm_compute; reflexivity. Qed.

(** ** The votes of [interpretIndicators] *)

(** The counters are natural numbers whose sum is at most [n]. *)
Definition tally (v : votes) (n : Z) : Prop :=
  0 <= buy v /\ 0 <= sell v /\ 0 <= neutral v /\ buy v + sell v + neutral v <= n.

Lemma interpret_sma_tally (sma : list (Z * value)) (v : votes) (n : Z) :
  tally v n -> tally (snd (interpret_sma sma v)) (n + 1).
Proof.
  unfold tally, interpret_sma. intros H.
  destruct (2 <=? _); [|cbn; lia].
  destruct (list_min _); [|cbn; lia]. destruct (list_max _); [|cbn; lia].
  destruct (obj_get _ _); [|cbn; lia]. destruct (obj_get _ _); [|cbn; lia].
  destruct (ngt _ _); [cbn; lia|]. destruct (nlt _ _); cbn; lia.
Qed.

Lemma interpret_rsi_tally (cfg : settings) (rsi : option value) (v : votes) (n : Z) :
  tally v n -> tally (snd (interpret_rsi cfg rsi v)) (n + 1).
Proof.
  unfold tally, interpret_rsi. intros H.
  destruct rsi as [x|]; [|cbn; lia].
  destruct (negb _); [|cbn; lia].
  destruct (nge _ _); [cbn; lia|]. destruct (nle _ _); cbn; lia.
Qed.

Lemma interpret_macd_tally (macd : option macd_reads) (v : votes) (n : Z) :
  tally v n -> tally (snd (interpret_macd macd v)) (n + 1).
Proof.
  unfold tally, interpret_macd. intros H.
  destruct macd as [m|]; [|cbn; lia].
  destruct (ngt _ _); [cbn; lia|]. destruct (nlt _ _); cbn; lia.
Qed.

(** At most three votes are cast: one per indicator family. *)
Lemma interpretIndicators_tally (cfg : settings) (ind : indicators) :
  exists v, tally v 3 /\ int_overall (interpretIndicators cfg ind) = interpret_overall v.
Proof.
  unfold interpretIndicators.
  pose proof (interpret_sma_tally (sma_values_of ind) no_votes 0) as H1.
  destruct (interpret_sma (sma_values_of ind) no_votes) as [smaI v1].
  pose proof (interpret_rsi_tally cfg (rsi_value_of ind) v1 1) as H2.
  destruct (interpret_rsi cfg (rsi_value_of ind) v1) as [rsiI v2].
  pose proof (interpret_macd_tally (macd_reads_of ind) v2 2) as H3.
  destruct (interpret_macd (macd_reads_of ind) v2) as [macdI v3].
  exists v3. split; [|reflexivity].
  apply H3, H2, H1. unfold tally, no_votes. cbn. lia.
Qed.

(** The overall verdict on a tally of at most three votes whose strength
    reaches 0.7: the winning counter holds every vote. *)
Lemma interpret_overall_strong (v : votes) :
  tally v 3 ->
  nge (ov_strength (interpret_overall v)) (Some (7 # 10)%Q) = true ->
  (ov_signal (interpret_overall v) = "buy" /\ 1 <= buy v /\ sell v = 0 /\ neutral v = 0) \/
  (ov_signal (interpret_overall v) = "sell" /\ buy v = 0 /\ 1 <= sell v /\ neutral v = 0) \/
  (ov_signal (interpret_overall v) = "neutral" /\ buy v = 0 /\ sell v = 0 /\ 1 <= neutral v).
Proof.
  destruct v as [b s n]. unfold tally. cbn [buy sell neutral]. intros (Hb & Hs & Hn & Hsum).
  assert (Eb : b = 0 \/ b = 1 \/ b = 2 \/ b = 3) by lia.
  assert (Es : s = 0 \/ s = 1 \/ s = 2 \/ s = 3) by lia.
  assert (En : n = 0 \/ n = 1 \/ n = 2 \/ n = 3) by lia.
  destruct Eb as [->|[->|[->| ->]]]; destruct Es as [->|[->|[->| ->]]];
    destruct En as [->|[->|[->| ->]]]; try lia; vm_compute; intros H;
    try discriminate H;
    first [left; repeat split; (reflexivity || discriminate)
          |right; left; repeat split; (reflexivity || discriminate)
          |right; right; repeat split; (reflexivity || discriminate)].
Qed.

(** X11.  A strong overall signal is a unanimous one.  At most three
    votes are cast (one each by the SMA, RSI and MACD blocks), so whenever
    the [strength] that [interpretIndicators] reports reaches 0.7 (the
    threshold of the strong-signal alert), every vote that was cast went to
    the reported signal: the two other counters are zero. *)
Theorem strong_signal_is_unanimous (cfg : settings) (ind : indicators) :
  let overall := int_overall (interpretIndicators cfg ind) in
  nge (ov_strength overall) (Some (7 # 10)%Q) = true ->
  1 <= ov_buySignals overall + ov_sellSignals overall + ov_neutralSignals overall <= 3 /\
  ((ov_signal overall = "buy" /\
      ov_sellSignals overall = 0 /\ ov_neutralSignals overall = 0) \/
   (ov_signal overall = "sell" /\
      ov_buySignals overall = 0 /\ ov_neutralSignals overall = 0) \/
   (ov_signal overall = "neutral" /\
      ov_buySignals overall = 0 /\ ov_sellSignals overall = 0)).
Proof.
  cbn zeta. destruct (interpretIndicators_tally cfg ind) as (v & Hv & ->). intros Hs.
  assert (Hc : ov_buySignals (interpret_overall v) = buy v /\
               ov_sellSignals (interpret_overall v) = sell v /\
               ov_neutralSignals (interpret_overall v) = neutral v).
  { unfold interpret_overall. destruct (_ && _); [repeat split|].
    destruct (_ && _); repeat split. }
  destruct Hc as (-> & -> & ->).
  unfold tally in Hv.
  destruct (interpret_overall_strong v Hv Hs) as [H|[H|H]]; (split; [lia|tauto]).
Qed.

(** The reloaded indicators of an asset whose only stored value is an
    RSI of 80. *)
Definition rsi_80 : latest :=
  {| lat_cryptoId := "bitcoin";
     lat_timestamp := 7200000;
     lat_sma := [];
     lat_rsi := Some {| lv_value := Num 80; lv_timestamp := 7200000 |};
     lat_macd := None |}.

Lemma strong_signal_is_unanimous_witness :
  let overall := int_overall (interpretIndicators config_indicators (Latest rsi_80)) in
  nge (ov_strength overall) (Some (7 # 10)%Q) = true /\
  1 <= ov_buySignals overall + ov_sellSignals overall + ov_neutralSignals overall <= 3 /\
  ((ov_signal overall = "buy" /\
      ov_sellSignals overall = 0 /\ ov_neutralSignals overall = 0) \/
   (ov_signal overall = "sell" /\
      ov_buySignals overall = 0 /\ ov_neutralSignals overall = 0) \/
   (ov_signal overall = "neutral" /\
      ov_buySignals overall = 0 /\ ov_sellSignals overall = 0)).
Proof.
  split; [reflexivity|].
  apply (strong_signal_is_unanimous config_indicators (Latest rsi_80)). reflexivity.
Defined.

(** ** The object of [calculateIndicators] under [interpretIndicators] *)

Lemma obj_get_Forall {V : Type} (P : V -> Prop) (k : Z) (o : list (Z * V)) (x : V) :
  List.Forall (fun e => P (snd e)) o -> obj_get k o = Some x -> P x.
Proof.
  induction 1 as [|[k' v'] o' Hv _ IH]; [discriminate|].
  cbn. destruct (k' =? k); [now intros [= <-]|exact IH].
Qed.

(** The SMA block on an object none of whose entries has a [value]. *)
Lemma interpret_sma_undefined (sma : list (Z * value)) (v : votes) :
  List.Forall (fun e => snd e = Undefined) sma ->
  interpret_sma sma v = (None, v) \/
  interpret_sma sma v = (Some "neutral", vote_neutral v).
Proof.
  intros Hall. unfold interpret_sma.
  destruct (2 <=? _); [|now left].
  destruct (list_min _) as [lo|]; [|now left].
  destruct (list_max _) as [hi|]; [|now left].
  destruct (obj_get lo sma) as [x|] eqn:Hx; [|now left].
  destruct (obj_get hi sma) as [y|] eqn:Hy; [|now left].
  rewrite (obj_get_Forall (fun x => x = Undefined) lo sma x Hall Hx).
  rewrite (obj_get_Forall (fun x => x = Undefined) hi sma y Hall Hy).
  now right.
Qed.

Lemma interpret_calculated (cfg : settings) (r : results) :
  let i := interpretIndicators cfg (Calculated r) in
  (int_sma_crossover i = None \/ int_sma_crossover i = Some "neutral") /\
  int_rsi i = Some {| ri_condition := "neutral"; ri_signal := "neutral" |} /\
  int_macd i = None /\
  ov_signal (int_overall i) = "neutral" /\
  ov_buySignals (int_overall i) = 0 /\
  ov_sellSignals (int_overall i) = 0 /\
  1 <= ov_neutralSignals (int_overall i) <= 2.
Proof.
  cbn zeta. unfold interpretIndicators.
  assert (Hall : List.Forall (fun e : Z * value => snd e = Undefined)
                   (sma_values_of (Calculated r))).
  { cbn. apply List.Forall_forall. intros e He. apply List.in_map_iff in He.
    destruct He as (e' & <- & _). reflexivity. }
  destruct (interpret_sma_undefined (sma_values_of (Calculated r)) no_votes Hall)
    as [-> | ->]; cbn; repeat split; auto; lia.
Qed.

(** X12.  [interpretIndicators] answers neutral on every object built by
    [calculateIndicators], whatever the prices were.  That object keeps
    its numbers under [current], while the interpretation reads [value],
    [line] and [signal.value]: the RSI value reads as [undefined] and is
    counted as a neutral vote, the SMA comparison is between two
    [undefined] values, the MACD block is skipped.  No buy vote and no sell
    vote is ever cast. *)
Theorem interpretation_of_calculated_is_neutral (cfg : settings) (r : results) :
  let i := interpretIndicators cfg (Calculated r) in
  int_sma_crossover i <> Some "bullish" /\
  int_sma_crossover i <> Some "bearish" /\
  option_map ri_condition (int_rsi i) = Some "neutral" /\
  int_macd i = None /\
  ov_signal (int_overall i) = "neutral" /\
  ov_buySignals (int_overall i) = 0 /\
  ov_sellSignals (int_overall i) = 0.
Proof.
  cbn zeta. destruct (interpret_calculated cfg r) as (Hs & Hr & Hm & Ho & Hb & Hse & _).
  rewrite Hr, Hm, Ho, Hb, Hse.
  repeat split; destruct Hs as [-> | ->]; discriminate.
Qed.

(** ** Saving and reloading the RSI *)

Lemma sma_queries_type (r : results) (row : query) :
  In row (sma_queries r) -> q_indicator_type row = "SMA".
Proof.
  unfold sma_queries. intros H. apply List.in_flat_map in H.
  destruct H as (e & _ & H).
  destruct (negb (is_null (sma_current (snd e)))); [|destruct H].
  destruct (is_null (sma_current (snd e)) || is_undefined (sma_current (snd e)));
    [destruct H|].
  destruct H as [<-|[]]. reflexivity.
Qed.

Lemma macd_queries_type (r : results) (row : query) :
  In row (macd_queries r) -> q_indicator_type row <> "RSI".
Proof.
  unfold macd_queries. destruct (macd_current (res_macd r)) as [c|]; [|intros []].
  destruct (is_null (MACD c) || is_undefined (MACD c)); [intros []|].
  intros [<-|[<-|[<-|[]]]]; discriminate.
Qed.

(** The RSI rows of a committed save are copies of one query, whose value
    is a number. *)
Lemma saved_rsi_row (r : results) (table : list query) (row : query) :
  saveIndicators [] r = Some table ->
  In row table -> q_indicator_type row = "RSI" ->
  row = rsi_query r /\ exists v, rsi_current (res_rsi r) = Num v.
Proof.
  unfold saveIndicators, transaction.
  destruct (forallb row_ok (saveIndicators_queries r)) eqn:Hok; [|discriminate].
  intros [= <-] Hin Hty. cbn [app] in Hin.
  assert (Hrow : row_ok row = true).
  { rewrite List.forallb_forall in Hok. now apply Hok. }
  unfold saveIndicators_queries in Hin.
  apply List.in_app_or in Hin. destruct Hin as [Hin|Hin].
  { apply sma_queries_type in Hin. rewrite Hin in Hty. discriminate. }
  apply List.in_app_or in Hin. destruct Hin as [Hin|Hin].
  2:{ apply macd_queries_type in Hin. contradiction. }
  assert (E : row = rsi_query r).
  { unfold rsi_queries in Hin.
    destruct (negb (is_null (rsi_current (res_rsi r)))); [|destruct Hin].
    apply List.in_app_or in Hin. destruct Hin as [Hin|[<-|[]]]; [|reflexivity].
    destruct (is_null _ || is_undefined _); [destruct Hin|].
    destruct Hin as [<-|[]]. reflexivity. }
  split; [exact E|]. subst row. unfold row_ok, rsi_query in Hrow. cbn [q_value] in Hrow.
  destruct (rsi_current (res_rsi r)) as [| |v]; try discriminate. now exists v.
Qed.

(** The RSI part of the interpretation does not depend on the votes
    cast before it. *)
Lemma int_rsi_interpretIndicators (cfg : settings) (ind : indicators) :
  int_rsi (interpretIndicators cfg ind) =
    fst (interpret_rsi cfg (rsi_value_of ind) no_votes).
Proof.
  unfold interpretIndicators. destruct (interpret_sma _ _) as [smaI v1].
  assert (E : fst (interpret_rsi cfg (rsi_value_of ind) v1) =
              fst (interpret_rsi cfg (rsi_value_of ind) no_votes)).
  { unfold interpret_rsi. destruct (rsi_value_of ind) as [x|]; [|reflexivity].
    destruct (negb _); [|reflexivity].
    destruct (nge _ _); [reflexivity|]. destruct (nle _ _); reflexivity. }
  destruct (interpret_rsi cfg (rsi_value_of ind) v1) as [rsiI v2].
  destruct (interpret_macd _ v2) as [macdI v3]. exact E.
Qed.

(** X18.  The RSI condition survives the round trip through the table.
    When [calculateRSI] has classified a series and [saveIndicators] has
    committed the run to an empty table, then whichever RSI row of the
    table the query of [getLatestIndicators] answers, it carries the
    calculated condition in its parameters, and [interpretIndicators]
    applied to the reloaded object reports the same condition. *)
Theorem rsi_condition_round_trip (cfg : settings) (series : list Q) (r : results)
    (table : list query) (row : query) (now : Z) (smaRow : Z -> option query)
    (macdLineRow macdSignalRow macdHistogramRow : option query) :
  res_rsi r = rsi_of_series cfg series ->
  saveIndicators [] r = Some table ->
  In row table -> q_indicator_type row = "RSI" ->
  let reloaded :=
    getLatestIndicators cfg (res_cryptoId r) now smaRow (Some row)
      macdLineRow macdSignalRow macdHistogramRow in
  q_parameters row = ParamsRSI (rs_period (rsiSettings cfg)) (rsi_condition (res_rsi r)) /\
  option_map lv_value (lat_rsi reloaded) = Some (rsi_current (res_rsi r)) /\
  option_map ri_condition (int_rsi (interpretIndicators cfg (Latest reloaded))) =
    Some (rsi_condition (res_rsi r)).
Proof.
  intros Hrsi Hsave Hin Hty. cbn zeta.
  destruct (saved_rsi_row r table row Hsave Hin Hty) as (-> & v & Hv).
  split; [unfold rsi_query; cbn [q_parameters]; now rewrite Hrsi|].
  split; [reflexivity|].
  rewrite int_rsi_interpretIndicators.
  cbn [rsi_value_of getLatestIndicators lat_rsi option_map latest_of_row lv_value
       rsi_query q_value].
  rewrite Hrsi in Hv |- *. unfold rsi_of_series in Hv |- *.
  cbn [rsi_current rsi_condition] in Hv |- *. rewrite Hv.
  unfold interpret_rsi. cbn [is_null negb to_number].
  destruct (nge _ _); [reflexivity|]. destruct (nle _ _); reflexivity.
Qed.

Lemma rsi_condition_round_trip_witness :
  option_map ri_condition
    (int_rsi (interpretIndicators config_indicators
       (Latest (getLatestIndicators config_indicators "bitcoin" 1700000000001
                  (fun _ => None) (Some (rsi_query rsi_only_run)) None None None)))) =
  Some "neutral".
Proof.
  apply (rsi_condition_round_trip config_indicators [55%Q] rsi_only_run
           (saveIndicators_queries rsi_only_run) (rsi_query rsi_only_run)
           1700000000001 (fun _ => None) None None None).
  - reflexivity.
  - reflexivity.
  - right. now left.
  - reflexivity.
Defined.

End TechnicalAnalysis.

(* ===================================================================== *)
(** * Alert service ([AlertService], services/alertService.js) *)
(* ===================================================================== *)

Module AlertService.
Import JS.

(** A row of [cryptocurrencies], as selected by the service. *)
Record crypto_row : Type := {
  cr_name : string;
  cr_symbol : string
}.

(** [percentage_change] of an alert: a number, or [null]. *)
Record alert : Type := {
  alert_id : string;
  alert_crypto_id : string;
  alert_crypto_name : string;
  alert_crypto_symbol : string;
  alert_type : string;
  alert_old_value : value;
  alert_new_value : value;
  alert_percentage_change : option number;
  alert_message : string;
  alert_severity : string;
  alert_timestamp : Z
}.

(** The two tables that the service touches.  A row of [alerts] is kept
    as the alert object it was inserted from. *)
Record database : Type := {
  cryptocurrencies : gmap string crypto_row;
  alerts : list alert
}.

(** [db.get('SELECT name, symbol FROM cryptocurrencies WHERE id = ?')]. *)
Definition db_get_crypto (db : database) (id : string) : option crypto_row :=
  cryptocurrencies db !! id.

(** [db.run('INSERT INTO alerts ...')]: the foreign key on [crypto_id]
    rejects a row whose asset is unknown ([None]). *)
Definition db_insert_alert (db : database) (a : alert) : option database :=
  match cryptocurrencies db !! alert_crypto_id a with
  | Some _ => Some {| cryptocurrencies := cryptocurrencies db; alerts := alerts db ++ [a] |}
  | None => None
  end.

(** [saveAlert(alert)]: an error of the insert is caught and reported in
    the result, which no caller reads. *)
Definition saveAlert (db : database) (a : alert) : database * bool :=
  match db_insert_alert db a with
  | Some db' => (db', true)
  | None => (db, false)
  end.

(** An entry of the [sentAlerts] map. *)
Record sent : Type := {
  sent_timestamp : Z;
  sent_alert : alert
}.

Record t : Type := {
  sentAlerts : gmap string sent;
  priceThreshold : Q;
  volumeThreshold : Q
}.

Definition create : t :=
  {| sentAlerts := ∅;
     priceThreshold := DataProcessor.config_priceThreshold;
     volumeThreshold := DataProcessor.config_volumeThreshold |}.

Definition with_sentAlerts (svc : t) (m : gmap string sent) : t :=
  {| sentAlerts := m;
     priceThreshold := priceThreshold svc;
     volumeThreshold := volumeThreshold svc |}.

Definition expirationTime : Z := 3600000.

(** [cleanupSentAlerts()], with its reading of the clock. *)
Definition cleanupSentAlerts (svc : t) (now : Z) : t :=
  with_sentAlerts svc
    (filter (fun kv : string * sent => ¬ (now - sent_timestamp kv.2 > expirationTime))
            (sentAlerts svc)).

(** The clock readings of one [createAlertFromAnomaly] call, in program
    order: the key, the [timestamp] field, the [id] field, the entry of
    the map, the cleanup. *)
Record anomaly_clock : Type := {
  ac_key : Z;
  ac_timestamp : Z;
  ac_id : Z;
  ac_set : Z;
  ac_cleanup : Z
}.

(** [`${crypto_id}-${anomaly_type}-${Math.floor(Date.now() / 60000)}`]. *)
Definition anomaly_key (a : DataProcessor.anomaly) (now : Z) : string :=
  DataProcessor.crypto_id a +:+ "-" +:+ DataProcessor.anomaly_type a +:+ "-" +:+
  pretty (now `div` 60000).

(** The alert type and the severity of an anomaly. *)
Definition classify (svc : t) (a : DataProcessor.anomaly) : string * string :=
  let pc := DataProcessor.percentage_change a in
  if String.eqb (DataProcessor.anomaly_type a) "price" then
    if nge (nabs pc) (Some (priceThreshold svc * 2)%Q) then
      (if ngt pc (Some 0%Q) then "price_surge" else "price_drop", "high")
    else
      (if ngt pc (Some 0%Q) then "price_increase" else "price_decrease", "medium")
  else if String.eqb (DataProcessor.anomaly_type a) "volume" then
    if nge (nabs pc) (Some (volumeThreshold svc * 2)%Q) then ("volume_spike", "high")
    else ("volume_change", "medium")
  else ("info", "medium").

Definition alert_of_anomaly (svc : t) (a : DataProcessor.anomaly) (crypto : crypto_row)
    (clk : anomaly_clock) : alert :=
  {| alert_id := pretty (ac_id clk);
     alert_crypto_id := DataProcessor.crypto_id a;
     alert_crypto_name := cr_name crypto;
     alert_crypto_symbol := cr_symbol crypto;
     alert_type := fst (classify svc a);
     alert_old_value := DataProcessor.old_value a;
     alert_new_value := DataProcessor.new_value a;
     alert_percentage_change := Some (DataProcessor.percentage_change a);
     alert_message := DataProcessor.description a;
     alert_severity := snd (classify svc a);
     alert_timestamp := ac_timestamp clk |}.

(** [createAlertFromAnomaly(anomaly)]: the created alert or [null], with
    the service and the database after the call.  This is a call that
    runs from its first line to its last with no other code of the program
    in between; the method is [async], and [resume] below has its three
    segments, for calls that overlap. *)
Definition createAlertFromAnomaly (svc : t) (db : database)
    (a : DataProcessor.anomaly) (clk : anomaly_clock) : option alert * t * database :=
  match db_get_crypto db (DataProcessor.crypto_id a) with
  | None => (None, svc, db)
  | Some crypto =>
      let alertKey := anomaly_key a (ac_key clk) in
      match sentAlerts svc !! alertKey with
      | Some _ => (None, svc, db)
      | None =>
          let alert := alert_of_anomaly svc a crypto clk in
          let db' := fst (saveAlert db alert) in
          let svc' :=
            with_sentAlerts svc
              (<[ alertKey := {| sent_timestamp := ac_set clk; sent_alert := alert |} ]>
                 (sentAlerts svc)) in
          (Some alert, cleanupSentAlerts svc' (ac_cleanup clk), db')
      end
  end.

(** ** Overlapping calls

    [createAlertFromAnomaly] awaits twice: [db.get] (line 67) and
    [this.saveAlert] (line 126).  At an [await] the call is suspended, and
    other code of the program runs before it goes on: another call of the
    method among it, since the listeners that lead to it are not awaited.
    The test of the map (line 81) is in the second segment, the entry is
    set (line 129) in the third. *)
Inductive call : Type :=
| AtGet (a : DataProcessor.anomaly) (clk : anomaly_clock)
| AtSave (a : DataProcessor.anomaly) (clk : anomaly_clock) (alertKey : string)
    (al : alert)
| Done (result : option alert).

(** The next segment of a suspended call.  From [AtGet]: the row of the
    asset has arrived, the key is made and looked up, the alert is built
    and its insert is handed to the database.  From [AtSave]: the insert
    has gone through, the entry is set and the map cleaned up. *)
Definition resume (st : t * database) (c : call) : (t * database) * call :=
  match c with
  | AtGet a clk =>
      match db_get_crypto (snd st) (DataProcessor.crypto_id a) with
      | None => (st, Done None)
      | Some crypto =>
          let alertKey := anomaly_key a (ac_key clk) in
          match sentAlerts (fst st) !! alertKey with
          | Some _ => (st, Done None)
          | None =>
              let alert := alert_of_anomaly (fst st) a crypto clk in
              ((fst st, fst (saveAlert (snd st) alert)), AtSave a clk alertKey alert)
          end
      end
  | AtSave a clk alertKey alert =>
      let svc' :=
        with_sentAlerts (fst st)
          (<[ alertKey := {| sent_timestamp := ac_set clk; sent_alert := alert |} ]>
             (sentAlerts (fst st))) in
      ((cleanupSentAlerts svc' (ac_cleanup clk), snd st), Done (Some alert))
  | Done result => (st, Done result)
  end.

(** Calls in progress, resumed in the order of [schedule], which names
    them by their position. *)
Fixpoint interleave (schedule : list nat) (st : t * database) (calls : list call)
  : (t * database) * list call :=
  match schedule with
  | [] => (st, calls)
  | i :: schedule' =>
      match calls !! i with
      | Some c =>
          let r := resume st c in
          interleave schedule' (fst r) (<[ i := snd r ]> calls)
      | None => interleave schedule' st calls
      end
  end.

(** ** Alerts from indicator signals *)

(** The clock readings of one of the four blocks of [processIndicators]:
    the key, the [id] field, the entry of the map. *)
Record block_clock : Type := {
  bc_key : Z;
  bc_id : Z;
  bc_set : Z
}.

Record indicators_clock : Type := {
  ic_timestamp : Z;
  ic_rsi : block_clock;
  ic_macd : block_clock;
  ic_sma : block_clock;
  ic_overall : block_clock
}.

(** [`${cryptoId}-${family}-${what}-${Math.floor(Date.now() / 3600000)}`]. *)
Definition indicator_key (cryptoId family what : string) (now : Z) : string :=
  cryptoId +:+ "-" +:+ family +:+ "-" +:+ what +:+ "-" +:+ pretty (now `div` 3600000).

(** The state threaded through the blocks: service, database and the
    [alerts] array. *)
Definition progress : Type := t * database * list alert.

(** The body shared by the four blocks once the signal has been
    recognised: check the map, save, remember, collect. *)
Definition emit_indicator_alert (st : progress) (alertKey : string) (a : alert)
    (bc : block_clock) : progress :=
  let '(svc, db, out) := st in
  match sentAlerts svc !! alertKey with
  | Some _ => st
  | None =>
      let db' := fst (saveAlert db a) in
      (with_sentAlerts svc
         (<[ alertKey := {| sent_timestamp := bc_set bc; sent_alert := a |} ]>
            (sentAlerts svc)),
       db', out ++ [a])
  end.

Definition indicator_alert (cryptoId : string) (crypto : crypto_row) (ty : string)
    (new_value : value) (message severity : string) (ts : Z) (bc : block_clock) : alert :=
  {| alert_id := pretty (bc_id bc);
     alert_crypto_id := cryptoId;
     alert_crypto_name := cr_name crypto;
     alert_crypto_symbol := cr_symbol crypto;
     alert_type := ty;
     alert_old_value := Null;
     alert_new_value := new_value;
     alert_percentage_change := None;
     alert_message := message;
     alert_severity := severity;
     alert_timestamp := ts |}.

Definition crypto_label (crypto : crypto_row) : string :=
  cr_name crypto +:+ " (" +:+ toUpperCase (cr_symbol crypto) +:+ ")".

(** The RSI block; [None] is the [TypeError] of reading
    [indicators.indicators.rsi.value.toFixed] when [rsi] is [null] or its
    [value] is not a number.  The message is evaluated only when the key
    is new. *)
Definition rsi_block (cryptoId : string) (crypto : crypto_row)
    (ind : TechnicalAnalysis.indicators) (interp : TechnicalAnalysis.interpretation)
    (clk : indicators_clock) (st : progress) : option progress :=
  match TechnicalAnalysis.int_rsi interp with
  | Some ri =>
      let cond := TechnicalAnalysis.ri_condition ri in
      if String.eqb cond "overbought" || String.eqb cond "oversold" then
        let alertKey := indicator_key cryptoId "rsi" cond (bc_key (ic_rsi clk)) in
        match sentAlerts (fst (fst st)) !! alertKey with
        | Some _ => Some st
        | None =>
            match TechnicalAnalysis.rsi_value_of ind with
            | Some (Num q) =>
                let message :=
                  "RSI для " +:+ crypto_label crypto +:+ " находится в зоне " +:+
                  (if String.eqb cond "overbought" then "перекупленности"
                   else "перепроданности") +:+
                  " (" +:+ toFixed 2 q +:+ ")" in
                Some (emit_indicator_alert st alertKey
                        (indicator_alert cryptoId crypto
                           (if String.eqb cond "overbought" then "rsi_overbought"
                            else "rsi_oversold")
                           (Num q) message "medium" (ic_timestamp clk) (ic_rsi clk))
                        (ic_rsi clk))
            | _ => None
            end
        end
      else Some st
  | None => Some st
  end.

Definition macd_block (cryptoId : string) (crypto : crypto_row)
    (interp : TechnicalAnalysis.interpretation)
    (clk : indicators_clock) (st : progress) : progress :=
  match TechnicalAnalysis.int_macd interp with
  | Some mi =>
      let macdSignal := TechnicalAnalysis.mi_signal mi in
      if String.eqb macdSignal "buy" || String.eqb macdSignal "sell" then
        emit_indicator_alert st
          (indicator_key cryptoId "macd" macdSignal (bc_key (ic_macd clk)))
          (indicator_alert cryptoId crypto
             (if String.eqb macdSignal "buy" then "macd_bullish_cross"
              else "macd_bearish_cross")
             Null
             ("MACD для " +:+ crypto_label crypto +:+ " показывает сигнал на " +:+
              (if String.eqb macdSignal "buy" then "покупку" else "продажу"))
             "medium" (ic_timestamp clk) (ic_macd clk))
          (ic_macd clk)
      else st
  | None => st
  end.

Definition sma_block (cryptoId : string) (crypto : crypto_row)
    (interp : TechnicalAnalysis.interpretation)
    (clk : indicators_clock) (st : progress) : progress :=
  match TechnicalAnalysis.int_sma_crossover interp with
  | Some smaCrossover =>
      if String.eqb smaCrossover "bullish" || String.eqb smaCrossover "bearish" then
        emit_indicator_alert st
          (indicator_key cryptoId "sma" smaCrossover (bc_key (ic_sma clk)))
          (indicator_alert cryptoId crypto
             (if String.eqb smaCrossover "bullish" then "sma_bullish_cross"
              else "sma_bearish_cross")
             Null
             ("SMA для " +:+ crypto_label crypto +:+ " показывает " +:+
              (if String.eqb smaCrossover "bullish" then "бычье" else "медвежье") +:+
              " пересечение")
             "medium" (ic_timestamp clk) (ic_sma clk))
          (ic_sma clk)
      else st
  | None => st
  end.

Definition overall_block (cryptoId : string) (crypto : crypto_row)
    (interp : TechnicalAnalysis.interpretation)
    (clk : indicators_clock) (st : progress) : progress :=
  let overall := TechnicalAnalysis.int_overall interp in
  if nge (TechnicalAnalysis.ov_strength overall) (Some (7 # 10)%Q) then
    let overallSignal := TechnicalAnalysis.ov_signal overall in
    if String.eqb overallSignal "buy" || String.eqb overallSignal "sell" then
      emit_indicator_alert st
        (indicator_key cryptoId "overall" overallSignal (bc_key (ic_overall clk)))
        (indicator_alert cryptoId crypto
           (if String.eqb overallSignal "buy" then "strong_buy_signal"
            else "strong_sell_signal")
           Null
           ("Сильный сигнал на " +:+
            (if String.eqb overallSignal "buy" then "покупку" else "продажу") +:+
            " для " +:+ crypto_label crypto +:+ " по техническим индикаторам")
           "high" (ic_timestamp clk) (ic_overall clk))
        (ic_overall clk)
    else st
  else st.

(** [processIndicators(cryptoId, indicators, interpretation)] on present
    arguments: the created alerts, with the service and the database
    after the call.  An exception of the RSI block (the first one) is
    caught: the call answers the empty array and has changed nothing. *)
Definition processIndicators (svc : t) (db : database) (cryptoId : string)
    (ind : TechnicalAnalysis.indicators) (interp : TechnicalAnalysis.interpretation)
    (clk : indicators_clock) : list alert * t * database :=
  match db_get_crypto db cryptoId with
  | None => ([], svc, db)
  | Some crypto =>
      match rsi_block cryptoId crypto ind interp clk (svc, db, []) with
      | None => ([], svc, db)
      | Some st1 =>
          let st2 := macd_block cryptoId crypto interp clk st1 in
          let st3 := sma_block cryptoId crypto interp clk st2 in
          let '(svc', db', out) := overall_block cryptoId crypto interp clk st3 in
          (out, svc', db')
      end
  end.

(** No entry of the map is older than one hour at time [now]. *)
Definition no_stale (svc : t) (now : Z) : Prop :=
  forall k e, sentAlerts svc !! k = Some e -> now - sent_timestamp e <= expirationTime.

(** Any interleaving of other calls between two anomalies. *)
Inductive operation : Type :=
| OpAnomaly (a : DataProcessor.anomaly) (clk : anomaly_clock)
| OpIndicators (cryptoId : string) (ind : TechnicalAnalysis.indicators)
    (interp : TechnicalAnalysis.interpretation) (clk : indicators_clock).

Definition step (st : t * database) (op : operation) : t * database :=
  match op with
  | OpAnomaly a clk =>
      let '(_, svc', db') := createAlertFromAnomaly (fst st) (snd st) a clk in (svc', db')
  | OpIndicators cryptoId ind interp clk =>
      let '(_, svc', db') := processIndicators (fst st) (snd st) cryptoId ind interp clk in
      (svc', db')
  end.

Definition run (ops : list operation) (st : t * database) : t * database :=
  fold_left step ops st.

(** The operation has read the clock for its cleanup by [deadline]. *)
Definition cleaned_by (deadline : Z) (op : operation) : Prop :=
  match op with
  | OpAnomaly _ clk => ac_cleanup clk <= deadline
  | OpIndicators _ _ _ _ => True
  end.

(** ** Properties *)

Lemma cleanup_lookup (svc : t) (now : Z) (k : string) (e : sent) :
  sentAlerts (cleanupSentAlerts svc now) !! k = Some e <->
  sentAlerts svc !! k = Some e /\ now - sent_timestamp e <= expirationTime.
Proof.
  unfold cleanupSentAlerts. simpl. rewrite map_lookup_filter_Some. simpl.
  split; intros [H1 H2]; (split; [exact H1|lia]).
Qed.

(** The anomaly path prunes: after a call that created an alert, no
    entry is older than one hour at the time of the cleanup. *)
Lemma createAlertFromAnomaly_prunes (svc : t) (db : database)
    (a : DataProcessor.anomaly) (clk : anomaly_clock) :
  is_Some (fst (fst (createAlertFromAnomaly svc db a clk))) ->
  no_stale (snd (fst (createAlertFromAnomaly svc db a clk))) (ac_cleanup clk).
Proof.
  unfold createAlertFromAnomaly.
  destruct (db_get_crypto db _); [|now intros [? [=]]].
  destruct (sentAlerts svc !! _); [now intros [? [=]]|].
  intros _ k e He. now apply cleanup_lookup in He.
Qed.

(** An entry that is young enough survives a call on an anomaly. *)
Lemma createAlertFromAnomaly_keeps (svc : t) (db : database)
    (a : DataProcessor.anomaly) (clk : anomaly_clock) (k : string) (e : sent) :
  sentAlerts svc !! k = Some e ->
  ac_cleanup clk - sent_timestamp e <= expirationTime ->
  sentAlerts (snd (fst (createAlertFromAnomaly svc db a clk))) !! k = Some e.
Proof.
  intros Hk Hage. unfold createAlertFromAnomaly.
  destruct (db_get_crypto db _); [|exact Hk].
  destruct (sentAlerts svc !! anomaly_key a (ac_key clk)) eqn:Hfresh; [exact Hk|].
  cbn [fst snd]. apply cleanup_lookup. split; [|exact Hage].
  cbn [sentAlerts with_sentAlerts]. rewrite lookup_insert_ne; [exact Hk|]. congruence.
Qed.

Lemma emit_indicator_alert_keeps (st : progress) (alertKey : string) (a : alert)
    (bc : block_clock) (k : string) (e : sent) :
  sentAlerts (fst (fst st)) !! k = Some e ->
  sentAlerts (fst (fst (emit_indicator_alert st alertKey a bc))) !! k = Some e.
Proof.
  destruct st as [[svc db] out]. simpl. intros Hk.
  destruct (sentAlerts svc !! alertKey) eqn:Hfresh; [exact Hk|].
  simpl. rewrite lookup_insert_ne; [exact Hk|]. congruence.
Qed.

Lemma rsi_block_keeps (cryptoId : string) (crypto : crypto_row)
    (ind : TechnicalAnalysis.indicators) (interp : TechnicalAnalysis.interpretation)
    (clk : indicators_clock) (st st1 : progress) (k : string) (e : sent) :
  rsi_block cryptoId crypto ind interp clk st = Some st1 ->
  sentAlerts (fst (fst st)) !! k = Some e ->
  sentAlerts (fst (fst st1)) !! k = Some e.
Proof.
  unfold rsi_block. intros H1 Hk. revert H1.
  destruct (TechnicalAnalysis.int_rsi interp) as [ri|]; [|now intros [= <-]].
  destruct (_ || _); [|now intros [= <-]].
  destruct (sentAlerts (fst (fst st)) !! indicator_key _ _ _ _); [now intros [= <-]|].
  destruct (TechnicalAnalysis.rsi_value_of ind) as [[| |q]|]; try discriminate.
  intros H1. injection H1 as <-. apply emit_indicator_alert_keeps. exact Hk.
Qed.

(** No call on indicator signals removes or replaces an entry. *)
Lemma processIndicators_keeps (svc : t) (db : database) (cryptoId : string)
    (ind : TechnicalAnalysis.indicators) (interp : TechnicalAnalysis.interpretation)
    (clk : indicators_clock) (k : string) (e : sent) :
  sentAlerts svc !! k = Some e ->
  sentAlerts (snd (fst (processIndicators svc db cryptoId ind interp clk))) !! k = Some e.
Proof.
  intros Hk. unfold processIndicators.
  destruct (db_get_crypto db cryptoId) as [crypto|]; [|exact Hk].
  destruct (rsi_block cryptoId crypto ind interp clk (svc, db, [])) as [st1|] eqn:H1;
    [|exact Hk].
  assert (K1 : sentAlerts (fst (fst st1)) !! k = Some e).
  { now apply (rsi_block_keeps cryptoId crypto ind interp clk (svc, db, []) st1). }
  assert (K2 : sentAlerts (fst (fst (macd_block cryptoId crypto interp clk st1))) !! k = Some e).
  { unfold macd_block. destruct (TechnicalAnalysis.int_macd interp); [|exact K1].
    destruct (_ || _); [|exact K1]. now apply emit_indicator_alert_keeps. }
  set (st2 := macd_block cryptoId crypto interp clk st1) in *.
  assert (K3 : sentAlerts (fst (fst (sma_block cryptoId crypto interp clk st2))) !! k = Some e).
  { unfold sma_block. destruct (TechnicalAnalysis.int_sma_crossover interp); [|exact K2].
    destruct (_ || _); [|exact K2]. now apply emit_indicator_alert_keeps. }
  set (st3 := sma_block cryptoId crypto interp clk st2) in *.
  assert (K4 : sentAlerts (fst (fst (overall_block cryptoId crypto interp clk st3))) !! k = Some e).
  { unfold overall_block. destruct (nge _ _); [|exact K3].
    destruct (_ || _); [|exact K3]. now apply emit_indicator_alert_keeps. }
  destruct (overall_block cryptoId crypto interp clk st3) as [[svc' db'] out].
  exact K4.
Qed.

Lemma step_keeps (st : t * database) (op : operation) (k : string) (e : sent) :
  sentAlerts (fst st) !! k = Some e ->
  (forall deadline, cleaned_by deadline op -> deadline - sent_timestamp e <= expirationTime ->
   sentAlerts (fst (step st op)) !! k = Some e).
Proof.
  intros Hk deadline Hop Hage. destruct op as [a clk|cryptoId ind interp clk]; simpl in *.
  - pose proof (createAlertFromAnomaly_keeps (fst st) (snd st) a clk k e Hk) as H.
    destruct (createAlertFromAnomaly (fst st) (snd st) a clk) as [[r svc'] db'].
    simpl in *. apply H. lia.
  - pose proof (processIndicators_keeps (fst st) (snd st) cryptoId ind interp clk k e Hk) as H.
    destruct (processIndicators (fst st) (snd st) cryptoId ind interp clk) as [[r svc'] db'].
    exact H.
Qed.

Lemma run_keeps (ops : list operation) (st : t * database) (deadline : Z)
    (k : string) (e : sent) :
  sentAlerts (fst st) !! k = Some e ->
  Forall (cleaned_by deadline) ops ->
  deadline - sent_timestamp e <= expirationTime ->
  sentAlerts (fst (run ops st)) !! k = Some e.
Proof.
  revert st. induction ops as [|op ops IH]; intros st Hk Hops Hage; [exact Hk|].
  simpl. inversion Hops as [|? ? Hop Hrest]; subst.
  apply IH; [|exact Hrest|exact Hage].
  now apply (step_keeps st op k e Hk deadline).
Qed.

Lemma same_minute_close (t1 t2 : Z) :
  t1 `div` 60000 = t2 `div` 60000 -> t2 - t1 < 60000.
Proof. intros H. Z.to_euclidean_division_equations. lia. Qed.

(** Calls that do not overlap.  Let an asset be present in the database
    and let two anomalies of that asset and of the same kind be keyed in
    the same one-minute bucket, the first one while no alert is remembered
    under their key; the first call has ended when the second one starts,
    the clock does not run backwards, and any other complete calls of the
    service may run in between.  Then the first call creates an alert and
    appends exactly one row to [alerts], and the second call answers
    [null], leaving the service and the database as they were: one row is
    persisted for the two. *)
Theorem anomaly_dedup_same_minute (svc : t) (db : database)
    (a1 a2 : DataProcessor.anomaly) (c1 c2 : anomaly_clock) (ops : list operation) :
  DataProcessor.crypto_id a1 = DataProcessor.crypto_id a2 ->
  DataProcessor.anomaly_type a1 = DataProcessor.anomaly_type a2 ->
  is_Some (cryptocurrencies db !! DataProcessor.crypto_id a1) ->
  ac_key c1 `div` 60000 = ac_key c2 `div` 60000 ->
  sentAlerts svc !! anomaly_key a1 (ac_key c1) = None ->
  ac_key c1 <= ac_set c1 ->
  ac_cleanup c1 <= ac_key c2 ->
  Forall (cleaned_by (ac_key c2)) ops ->
  exists alert1 svc1 db1,
    createAlertFromAnomaly svc db a1 c1 = (Some alert1, svc1, db1) /\
    alerts db1 = alerts db ++ [alert1] /\
    createAlertFromAnomaly (fst (run ops (svc1, db1))) (snd (run ops (svc1, db1))) a2 c2 =
      (None, fst (run ops (svc1, db1)), snd (run ops (svc1, db1))).
Proof.
  intros Hid Hty [crypto Hcrypto] Hbucket Hfresh Hset Hclean Hops.
  pose proof (same_minute_close _ _ Hbucket) as Hclose.
  assert (Hkey : anomaly_key a2 (ac_key c2) = anomaly_key a1 (ac_key c1)).
  { unfold anomaly_key. now rewrite Hid, Hty, Hbucket. }
  unfold createAlertFromAnomaly at 1. unfold db_get_crypto.
  rewrite Hcrypto, Hfresh.
  set (al := alert_of_anomaly svc a1 crypto c1).
  set (entry := {| sent_timestamp := ac_set c1; sent_alert := al |}).
  set (svc1 := cleanupSentAlerts _ (ac_cleanup c1)).
  set (db1 := fst (saveAlert db al)).
  exists al, svc1, db1. split; [reflexivity|].
  assert (Hdb1 : alerts db1 = alerts db ++ [al]).
  { unfold db1, saveAlert, db_insert_alert. simpl. now rewrite Hcrypto. }
  split; [exact Hdb1|].
  assert (H1 : sentAlerts svc1 !! anomaly_key a1 (ac_key c1) = Some entry).
  { unfold svc1. apply cleanup_lookup. split.
    - simpl. apply lookup_insert_eq.
    - simpl. unfold expirationTime. lia. }
  assert (H2 : sentAlerts (fst (run ops (svc1, db1))) !! anomaly_key a1 (ac_key c1)
               = Some entry).
  { apply (run_keeps ops (svc1, db1) (ac_key c2)); [exact H1|exact Hops|].
    simpl. unfold expirationTime. lia. }
  unfold createAlertFromAnomaly.
  destruct (db_get_crypto _ _); [|reflexivity].
  now rewrite Hkey, H2.
Qed.

(** A database with two assets, an anomaly of each, and clocks. *)
Definition db0 : database :=
  {| cryptocurrencies :=
       <[ "bitcoin" := {| cr_name := "Bitcoin"; cr_symbol := "btc" |} ]>
         {[ "ethereum" := {| cr_name := "Ethereum"; cr_symbol := "eth" |} ]};
     alerts := [] |}.

Definition price_anomaly (id : string) : DataProcessor.anomaly :=
  {| DataProcessor.crypto_id := id;
     DataProcessor.anomaly_type := "price";
     DataProcessor.old_value := Num 100;
     DataProcessor.new_value := Num 106;
     DataProcessor.percentage_change := Some 6%Q;
     DataProcessor.description := "+6%";
     DataProcessor.timestamp := 0 |}.

Definition clock_at (now : Z) : anomaly_clock :=
  {| ac_key := now; ac_timestamp := now; ac_id := now; ac_set := now; ac_cleanup := now |}.

Lemma anomaly_dedup_same_minute_witness :
  exists alert1 svc1 db1,
    createAlertFromAnomaly create db0 (price_anomaly "bitcoin") (clock_at 120000) =
      (Some alert1, svc1, db1) /\
    alerts db1 = alerts db0 ++ [alert1] /\
    let st := run [OpAnomaly (price_anomaly "ethereum") (clock_at 130000)] (svc1, db1) in
    createAlertFromAnomaly (fst st) (snd st) (price_anomaly "bitcoin") (clock_at 179999) =
      (None, fst st, snd st).
Proof.
  apply (anomaly_dedup_same_minute create db0 (price_anomaly "bitcoin")
           (price_anomaly "bitcoin") (clock_at 120000) (clock_at 179999)
           [OpAnomaly (price_anomaly "ethereum") (clock_at 130000)]).
  - reflexivity.
  - reflexivity.
  - exists {| cr_name := "Bitcoin"; cr_symbol := "btc" |}. apply lookup_insert_eq.
  - reflexivity.
  - apply lookup_empty.
  - simpl. lia.
  - simpl. lia.
  - constructor; [simpl; lia|constructor].
Defined.

(** A call that is resumed twice with nothing in between is
    [createAlertFromAnomaly]. *)
Lemma resume_alone (svc : t) (db : database) (a : DataProcessor.anomaly)
    (clk : anomaly_clock) :
  interleave [0; 0]%nat (svc, db) [AtGet a clk] =
    (let r := createAlertFromAnomaly svc db a clk in
     ((snd (fst r), snd r), [Done (fst (fst r))])).
Proof.
  unfold createAlertFromAnomaly.
  cbn [interleave lookup list_lookup resume fst snd].
  destruct (db_get_crypto db (DataProcessor.crypto_id a)) as [crypto|]; [|reflexivity].
  destruct (sentAlerts svc !! anomaly_key a (ac_key clk)); reflexivity.
Qed.

Lemma resume_get_fresh (svc : t) (db : database) (a : DataProcessor.anomaly)
    (clk : anomaly_clock) (crypto : crypto_row) :
  cryptocurrencies db !! DataProcessor.crypto_id a = Some crypto ->
  sentAlerts svc !! anomaly_key a (ac_key clk) = None ->
  resume (svc, db) (AtGet a clk) =
    ((svc, {| cryptocurrencies := cryptocurrencies db;
              alerts := alerts db ++ [alert_of_anomaly svc a crypto clk] |}),
     AtSave a clk (anomaly_key a (ac_key clk)) (alert_of_anomaly svc a crypto clk)).
Proof.
  intros Hcrypto Hfresh. unfold resume, db_get_crypto. cbn [fst snd].
  rewrite Hcrypto, Hfresh. unfold saveAlert, db_insert_alert.
  cbn [alert_crypto_id alert_of_anomaly]. now rewrite Hcrypto.
Qed.

(** C4.  Two calls that overlap both persist their alert.  Let an
    asset be present in the database and let two anomalies of that asset
    and of the same kind be keyed in the same one-minute bucket while no
    alert is remembered under their key.  When the second call starts
    before the first one has come back from [await this.saveAlert], both
    calls find the key absent, both create an alert and both inserts go
    through: two rows are persisted for the two anomalies, and neither
    call answers [null]. *)
Theorem overlapping_anomalies_both_persisted (svc : t) (db : database)
    (a1 a2 : DataProcessor.anomaly) (c1 c2 : anomaly_clock) :
  DataProcessor.crypto_id a1 = DataProcessor.crypto_id a2 ->
  DataProcessor.anomaly_type a1 = DataProcessor.anomaly_type a2 ->
  is_Some (cryptocurrencies db !! DataProcessor.crypto_id a1) ->
  ac_key c1 `div` 60000 = ac_key c2 `div` 60000 ->
  sentAlerts svc !! anomaly_key a1 (ac_key c1) = None ->
  exists alert1 alert2 svc' db',
    interleave [0; 1; 0; 1]%nat (svc, db) [AtGet a1 c1; AtGet a2 c2] =
      ((svc', db'), [Done (Some alert1); Done (Some alert2)]) /\
    alerts db' = alerts db ++ [alert1; alert2].
Proof.
  intros Hid Hty [crypto Hcrypto] Hbucket Hfresh.
  assert (Hkey : anomaly_key a2 (ac_key c2) = anomaly_key a1 (ac_key c1)).
  { unfold anomaly_key. now rewrite Hid, Hty, Hbucket. }
  set (alert1 := alert_of_anomaly svc a1 crypto c1).
  set (alert2 := alert_of_anomaly svc a2 crypto c2).
  set (db1 := {| cryptocurrencies := cryptocurrencies db;
                 alerts := alerts db ++ [alert1] |}).
  set (db2 := {| cryptocurrencies := cryptocurrencies db1;
                 alerts := alerts db1 ++ [alert2] |}).
  assert (H1 : resume (svc, db) (AtGet a1 c1) =
               ((svc, db1), AtSave a1 c1 (anomaly_key a1 (ac_key c1)) alert1)).
  { apply resume_get_fresh; assumption. }
  assert (H2 : resume (svc, db1) (AtGet a2 c2) =
               ((svc, db2), AtSave a2 c2 (anomaly_key a2 (ac_key c2)) alert2)).
  { apply resume_get_fresh.
    - cbn [db1 cryptocurrencies]. now rewrite <- Hid.
    - now rewrite Hkey. }
  cbn [interleave lookup list_lookup]. rewrite H1.
  cbn [fst snd insert list_insert lookup list_lookup]. rewrite H2.
  cbn [fst snd insert list_insert lookup list_lookup resume interleave].
  eexists alert1, alert2, _, db2. split; [reflexivity|].
  cbn [db2 db1 alerts]. now rewrite <- app_assoc.
Qed.

Lemma overlapping_anomalies_both_persisted_witness :
  exists alert1 alert2 svc' db',
    interleave [0; 1; 0; 1]%nat (create, db0)
      [AtGet (price_anomaly "bitcoin") (clock_at 120000);
       AtGet (price_anomaly "bitcoin") (clock_at 130000)] =
      ((svc', db'), [Done (Some alert1); Done (Some alert2)]) /\
    alerts db' = alerts db0 ++ [alert1; alert2].
Proof.
  apply (overlapping_anomalies_both_persisted create db0 (price_anomaly "bitcoin")
           (price_anomaly "bitcoin") (clock_at 120000) (clock_at 130000)).
  - reflexivity.
  - reflexivity.
  - exists {| cr_name := "Bitcoin"; cr_symbol := "btc" |}. apply lookup_insert_eq.
  - reflexivity.
  - apply lookup_empty.
Defined.

(** The service after an alert on an Ethereum price anomaly at time 0. *)
Definition service_at_0 : t * database :=
  run [OpAnomaly (price_anomaly "ethereum") (clock_at 0)] (create, db0).

Definition indicators_clock_at (now : Z) : indicators_clock :=
  let bc := {| bc_key := now; bc_id := now; bc_set := now |} in
  {| ic_timestamp := now; ic_rsi := bc; ic_macd := bc; ic_sma := bc; ic_overall := bc |}.

(** The reloaded indicators of an asset whose RSI is 80. *)
Definition overbought : TechnicalAnalysis.latest :=
  {| TechnicalAnalysis.lat_cryptoId := "bitcoin";
     TechnicalAnalysis.lat_timestamp := 7200000;
     TechnicalAnalysis.lat_sma := [];
     TechnicalAnalysis.lat_rsi :=
       Some {| TechnicalAnalysis.lv_value := Num 80;
               TechnicalAnalysis.lv_timestamp := 7200000 |};
     TechnicalAnalysis.lat_macd := None |}.

Definition two_hours_later : list alert * t * database :=
  processIndicators (fst service_at_0) (snd service_at_0) "bitcoin"
    (TechnicalAnalysis.Latest overbought)
    (TechnicalAnalysis.interpretIndicators TechnicalAnalysis.config_indicators
       (TechnicalAnalysis.Latest overbought))
    (indicators_clock_at 7200000).

(** C7 (the code departs from the claim on the indicator path).  An
    alert on a price anomaly is remembered at time 0.  Two hours later a
    call of [processIndicators] creates two alerts (RSI overbought, strong
    sell) and inserts their keys; after the call the entry of time 0 is
    still in the map, although it is older than one hour.  The same
    insertion made by [createAlertFromAnomaly] would have pruned it. *)
Theorem processIndicators_leaves_stale_entry :
  map alert_type (fst (fst two_hours_later)) = ["rsi_overbought"; "strong_sell_signal"] /\
  (exists e, sentAlerts (snd (fst two_hours_later)) !! "bitcoin-rsi-overbought-2" = Some e) /\
  (exists e, sentAlerts (snd (fst two_hours_later)) !! "ethereum-price-0" = Some e /\
             sent_timestamp e = 0) /\
  ~ no_stale (snd (fst two_hours_later)) 7200000 /\
  no_stale
    (snd (fst (createAlertFromAnomaly (fst service_at_0) (snd service_at_0)
                 (price_anomaly "bitcoin") (clock_at 7200000))))
    7200000.
Proof.
  assert (H0 : exists e, sentAlerts (snd (fst two_hours_later)) !! "ethereum-price-0" = Some e /\
                         sent_timestamp e = 0).
  { eexists. split; [vm_compute; reflexivity|reflexivity]. }
  split; [vm_compute; reflexivity|].
  split; [eexists; vm_compute; reflexivity|].
  split; [exact H0|]. split.
  - intros Hns. destruct H0 as (e & He & Hts).
    specialize (Hns _ _ He). rewrite Hts in Hns. unfold expirationTime in Hns. lia.
  - apply (createAlertFromAnomaly_prunes (fst service_at_0) (snd service_at_0)
             (price_anomaly "bitcoin") (clock_at 7200000)).
    vm_compute. eexists. reflexivity.
Qed.

(** ** The contract of the two alert paths *)

(** X8.  [createAlertFromAnomaly] persists what it returns.  When it
    answers [null] the service and the database are as before, and either
    the asset is unknown or an alert is already remembered under the key.
    When it answers an alert, exactly that alert has been appended to the
    [alerts] table, the table of assets is untouched, and after the cleanup
    no remembered alert is older than one hour. *)
Theorem createAlertFromAnomaly_contract (svc : t) (db : database)
    (a : DataProcessor.anomaly) (clk : anomaly_clock) :
  match createAlertFromAnomaly svc db a clk with
  | (None, svc', db') =>
      svc' = svc /\ db' = db /\
      (cryptocurrencies db !! DataProcessor.crypto_id a = None \/
       is_Some (sentAlerts svc !! anomaly_key a (ac_key clk)))
  | (Some al, svc', db') =>
      alerts db' = alerts db ++ [al] /\
      cryptocurrencies db' = cryptocurrencies db /\
      alert_crypto_id al = DataProcessor.crypto_id a /\
      alert_message al = DataProcessor.description a /\
      no_stale svc' (ac_cleanup clk)
  end.
Proof.
  unfold createAlertFromAnomaly, db_get_crypto.
  destruct (cryptocurrencies db !! DataProcessor.crypto_id a) as [crypto|] eqn:Hc;
    [|repeat split; now left].
  destruct (sentAlerts svc !! anomaly_key a (ac_key clk)) as [e|] eqn:Hk;
    [repeat split; right; now exists e|].
  unfold saveAlert, db_insert_alert. cbn [alert_of_anomaly alert_crypto_id]. rewrite Hc.
  cbn [fst alerts cryptocurrencies alert_message].
  repeat split. intros k e He. now apply cleanup_lookup in He.
Qed.

(** The invariant of the four blocks of [processIndicators], relative to
    the service and the database at the start of the call. *)
Definition grown_from (svc0 : t) (db0 : database) (st : progress) : Prop :=
  let '(svc, db, out) := st in
  sentAlerts svc0 ⊆ sentAlerts svc /\
  alerts db = alerts db0 ++ out /\
  cryptocurrencies db = cryptocurrencies db0 /\
  size (sentAlerts svc) = (size (sentAlerts svc0) + length out)%nat.

Lemma emit_indicator_alert_grows (svc0 : t) (db0 : database) (st : progress)
    (alertKey : string) (a : alert) (bc : block_clock) :
  is_Some (cryptocurrencies db0 !! alert_crypto_id a) ->
  grown_from svc0 db0 st ->
  grown_from svc0 db0 (emit_indicator_alert st alertKey a bc) /\
  (length (snd (emit_indicator_alert st alertKey a bc)) <= S (length (snd st)))%nat.
Proof.
  destruct st as [[svc db] out]. intros [crypto Hcrypto] (Hsub & Hrows & Hassets & Hsize).
  unfold emit_indicator_alert.
  destruct (sentAlerts svc !! alertKey) eqn:Hk;
    [split; [repeat split; assumption|cbn; lia]|].
  unfold saveAlert, db_insert_alert. rewrite Hassets, Hcrypto.
  cbn [fst snd grown_from sentAlerts with_sentAlerts alerts cryptocurrencies].
  split; [|rewrite length_app; cbn; lia].
  split; [|split; [|split]].
  - etransitivity; [exact Hsub|]. now apply insert_subseteq.
  - rewrite Hrows. now rewrite app_assoc.
  - first [exact Hassets|reflexivity].
  - rewrite map_size_insert_None by exact Hk. rewrite Hsize, length_app. cbn. lia.
Qed.

Lemma rsi_block_grows (svc0 : t) (db0 : database) (cryptoId : string) (crypto : crypto_row)
    (ind : TechnicalAnalysis.indicators) (interp : TechnicalAnalysis.interpretation)
    (clk : indicators_clock) (st st1 : progress) :
  is_Some (cryptocurrencies db0 !! cryptoId) ->
  grown_from svc0 db0 st ->
  rsi_block cryptoId crypto ind interp clk st = Some st1 ->
  grown_from svc0 db0 st1 /\ (length (snd st1) <= S (length (snd st)))%nat.
Proof.
  intros Hasset G. unfold rsi_block.
  destruct (TechnicalAnalysis.int_rsi interp) as [ri|];
    [|intros [= <-]; split; [exact G|lia]].
  destruct (_ || _); [|intros [= <-]; split; [exact G|lia]].
  destruct (sentAlerts (fst (fst st)) !! indicator_key _ _ _ _);
    [intros [= <-]; split; [exact G|lia]|].
  destruct (TechnicalAnalysis.rsi_value_of ind) as [[| |q]|]; try discriminate.
  intros H1. injection H1 as <-. now apply emit_indicator_alert_grows.
Qed.

Lemma processIndicators_grown (svc : t) (db : database) (cryptoId : string)
    (ind : TechnicalAnalysis.indicators) (interp : TechnicalAnalysis.interpretation)
    (clk : indicators_clock) :
  let '(out, svc', db') := processIndicators svc db cryptoId ind interp clk in
  sentAlerts svc ⊆ sentAlerts svc' /\
  alerts db' = alerts db ++ out /\
  cryptocurrencies db' = cryptocurrencies db /\
  size (sentAlerts svc') = (size (sentAlerts svc) + length out)%nat /\
  (length out <= 4)%nat.
Proof.
  assert (H0 : grown_from svc db (svc, db, [])).
  { cbn. rewrite app_nil_r. repeat split; [reflexivity|lia]. }
  unfold processIndicators, db_get_crypto.
  destruct (cryptocurrencies db !! cryptoId) as [crypto|] eqn:Hcrypto;
    [|cbn; rewrite app_nil_r; repeat split; [reflexivity|lia|lia]].
  assert (Hasset : is_Some (cryptocurrencies db !! cryptoId)) by now exists crypto.
  destruct (rsi_block cryptoId crypto ind interp clk (svc, db, [])) as [st1|] eqn:H1;
    [|cbn; rewrite app_nil_r; repeat split; [reflexivity|lia|lia]].
  assert (G1 : grown_from svc db st1 /\ (length (snd st1) <= 1)%nat).
  { now apply (rsi_block_grows svc db cryptoId crypto ind interp clk (svc, db, []) st1). }
  destruct G1 as [G1 L1].
  assert (G2 : grown_from svc db (macd_block cryptoId crypto interp clk st1) /\
               (length (snd (macd_block cryptoId crypto interp clk st1)) <= 2)%nat).
  { unfold macd_block. destruct (TechnicalAnalysis.int_macd interp); [|split; [exact G1|lia]].
    destruct (_ || _); [|split; [exact G1|lia]].
    match goal with |- context [emit_indicator_alert st1 ?k ?a ?bc] =>
      destruct (emit_indicator_alert_grows svc db st1 k a bc Hasset G1) as [G L] end.
    split; [exact G|lia]. }
  set (st2 := macd_block cryptoId crypto interp clk st1) in *. destruct G2 as [G2 L2].
  assert (G3 : grown_from svc db (sma_block cryptoId crypto interp clk st2) /\
               (length (snd (sma_block cryptoId crypto interp clk st2)) <= 3)%nat).
  { unfold sma_block. destruct (TechnicalAnalysis.int_sma_crossover interp);
      [|split; [exact G2|lia]].
    destruct (_ || _); [|split; [exact G2|lia]].
    match goal with |- context [emit_indicator_alert st2 ?k ?a ?bc] =>
      destruct (emit_indicator_alert_grows svc db st2 k a bc Hasset G2) as [G L] end.
    split; [exact G|lia]. }
  set (st3 := sma_block cryptoId crypto interp clk st2) in *. destruct G3 as [G3 L3].
  assert (G4 : grown_from svc db (overall_block cryptoId crypto interp clk st3) /\
               (length (snd (overall_block cryptoId crypto interp clk st3)) <= 4)%nat).
  { unfold overall_block. destruct (nge _ _); [|split; [exact G3|lia]].
    destruct (_ || _); [|split; [exact G3|lia]].
    match goal with |- context [emit_indicator_alert st3 ?k ?a ?bc] =>
      destruct (emit_indicator_alert_grows svc db st3 k a bc Hasset G3) as [G L] end.
    split; [exact G|lia]. }
  destruct (overall_block cryptoId crypto interp clk st3) as [[svc' db'] out].
  destruct G4 as [(Hsub & Hrows & Hassets & Hsize) L4]. cbn [snd] in L4.
  repeat split; assumption.
Qed.

(** X9.  [processIndicators] only adds.  Every alert remembered before
    the call is still remembered after it, with the same entry (nothing is
    pruned on this path); the returned alerts are exactly the rows that the
    call appended to the [alerts] table, at most four of them; and each of
    them has added one key to the map of remembered alerts. *)
Theorem processIndicators_only_adds (svc : t) (db : database) (cryptoId : string)
    (ind : TechnicalAnalysis.indicators) (interp : TechnicalAnalysis.interpretation)
    (clk : indicators_clock) :
  let r := processIndicators svc db cryptoId ind interp clk in
  sentAlerts svc ⊆ sentAlerts (snd (fst r)) /\
  alerts (snd r) = alerts db ++ fst (fst r) /\
  cryptocurrencies (snd r) = cryptocurrencies db /\
  size (sentAlerts (snd (fst r))) = (size (sentAlerts svc) + length (fst (fst r)))%nat /\
  (length (fst (fst r)) <= 4)%nat.
Proof.
  pose proof (processIndicators_grown svc db cryptoId ind interp clk) as H.
  destruct (processIndicators svc db cryptoId ind interp clk) as [[out svc'] db'].
  exact H.
Qed.

(** ** Deduplication on the indicator path *)

(** Two clock readings of the same hour give the same key. *)
Definition same_hour (b1 b2 : block_clock) : Prop :=
  bc_key b1 `div` 3600000 = bc_key b2 `div` 3600000.

Lemma indicator_key_same_hour (cryptoId family what : string) (b1 b2 : block_clock) :
  same_hour b1 b2 ->
  indicator_key cryptoId family what (bc_key b2) = indicator_key cryptoId family what (bc_key b1).
Proof. unfold same_hour, indicator_key. now intros ->. Qed.

Lemma emit_indicator_alert_remembers (st : progress) (alertKey : string) (a : alert)
    (bc : block_clock) :
  is_Some (sentAlerts (fst (fst (emit_indicator_alert st alertKey a bc))) !! alertKey) /\
  sentAlerts (fst (fst st)) ⊆ sentAlerts (fst (fst (emit_indicator_alert st alertKey a bc))).
Proof.
  destruct st as [[svc db] out]. unfold emit_indicator_alert.
  destruct (sentAlerts svc !! alertKey) as [e|] eqn:Hk.
  - split; [now exists e|reflexivity].
  - cbn [fst sentAlerts with_sentAlerts]. split.
    + rewrite lookup_insert_eq. now eexists.
    + now apply insert_subseteq.
Qed.

Lemma emit_indicator_alert_known (st : progress) (alertKey : string) (a : alert)
    (bc : block_clock) :
  is_Some (sentAlerts (fst (fst st)) !! alertKey) ->
  emit_indicator_alert st alertKey a bc = st.
Proof.
  destruct st as [[svc db] out]. intros [e He]. unfold emit_indicator_alert.
  cbn [fst] in He. now rewrite He.
Qed.

Lemma remembered_later (m1 m2 : gmap string sent) (k : string) :
  is_Some (m1 !! k) -> m1 ⊆ m2 -> is_Some (m2 !! k).
Proof. intros [e He] Hsub. exists e. now apply (lookup_weaken m1 m2). Qed.

(** A block that has run once does nothing when it runs again in the
    same hour on a service that remembers at least as much. *)
Lemma rsi_block_again (cryptoId : string) (crypto : crypto_row)
    (ind : TechnicalAnalysis.indicators) (interp : TechnicalAnalysis.interpretation)
    (clk1 clk2 : indicators_clock) (st st1 st' : progress) :
  same_hour (ic_rsi clk1) (ic_rsi clk2) ->
  rsi_block cryptoId crypto ind interp clk1 st = Some st1 ->
  sentAlerts (fst (fst st1)) ⊆ sentAlerts (fst (fst st')) ->
  rsi_block cryptoId crypto ind interp clk2 st' = Some st' /\
  sentAlerts (fst (fst st)) ⊆ sentAlerts (fst (fst st1)).
Proof.
  intros Hh. unfold rsi_block.
  destruct (TechnicalAnalysis.int_rsi interp) as [ri|];
    [|intros [= <-] Hsub; split; reflexivity].
  destruct (_ || _); [|intros [= <-] Hsub; split; reflexivity].
  rewrite (indicator_key_same_hour _ _ _ _ _ Hh).
  set (key := indicator_key cryptoId "rsi" (TechnicalAnalysis.ri_condition ri)
                (bc_key (ic_rsi clk1))).
  destruct (sentAlerts (fst (fst st)) !! key) as [e|] eqn:Hk.
  - intros [= <-] Hsub. rewrite (lookup_weaken _ _ _ _ Hk Hsub). split; reflexivity.
  - destruct (TechnicalAnalysis.rsi_value_of ind) as [[| |q]|]; try discriminate.
    intros H1 Hsub. injection H1 as <-.
    match type of Hsub with context [emit_indicator_alert st key ?a ?bc] =>
      destruct (emit_indicator_alert_remembers st key a bc) as [[e He] Hgrow] end.
    rewrite (lookup_weaken _ _ _ _ He Hsub). split; [reflexivity|exact Hgrow].
Qed.

Lemma macd_block_again (cryptoId : string) (crypto : crypto_row)
    (interp : TechnicalAnalysis.interpretation) (clk1 clk2 : indicators_clock)
    (st st' : progress) :
  same_hour (ic_macd clk1) (ic_macd clk2) ->
  sentAlerts (fst (fst (macd_block cryptoId crypto interp clk1 st))) ⊆
    sentAlerts (fst (fst st')) ->
  macd_block cryptoId crypto interp clk2 st' = st' /\
  sentAlerts (fst (fst st)) ⊆ sentAlerts (fst (fst (macd_block cryptoId crypto interp clk1 st))).
Proof.
  intros Hh. unfold macd_block.
  destruct (TechnicalAnalysis.int_macd interp) as [mi|]; [|intros _; split; reflexivity].
  destruct (_ || _); [|intros _; split; reflexivity].
  rewrite (indicator_key_same_hour _ _ _ _ _ Hh). intros Hsub.
  match type of Hsub with context [emit_indicator_alert st ?k ?a ?bc] =>
    destruct (emit_indicator_alert_remembers st k a bc) as [Hin Hgrow] end.
  split; [|exact Hgrow].
  apply emit_indicator_alert_known. exact (remembered_later _ _ _ Hin Hsub).
Qed.

Lemma sma_block_again (cryptoId : string) (crypto : crypto_row)
    (interp : TechnicalAnalysis.interpretation) (clk1 clk2 : indicators_clock)
    (st st' : progress) :
  same_hour (ic_sma clk1) (ic_sma clk2) ->
  sentAlerts (fst (fst (sma_block cryptoId crypto interp clk1 st))) ⊆
    sentAlerts (fst (fst st')) ->
  sma_block cryptoId crypto interp clk2 st' = st' /\
  sentAlerts (fst (fst st)) ⊆ sentAlerts (fst (fst (sma_block cryptoId crypto interp clk1 st))).
Proof.
  intros Hh. unfold sma_block.
  destruct (TechnicalAnalysis.int_sma_crossover interp) as [c|]; [|intros _; split; reflexivity].
  destruct (_ || _); [|intros _; split; reflexivity].
  rewrite (indicator_key_same_hour _ _ _ _ _ Hh). intros Hsub.
  match type of Hsub with context [emit_indicator_alert st ?k ?a ?bc] =>
    destruct (emit_indicator_alert_remembers st k a bc) as [Hin Hgrow] end.
  split; [|exact Hgrow].
  apply emit_indicator_alert_known. exact (remembered_later _ _ _ Hin Hsub).
Qed.

Lemma overall_block_again (cryptoId : string) (crypto : crypto_row)
    (interp : TechnicalAnalysis.interpretation) (clk1 clk2 : indicators_clock)
    (st st' : progress) :
  same_hour (ic_overall clk1) (ic_overall clk2) ->
  sentAlerts (fst (fst (overall_block cryptoId crypto interp clk1 st))) ⊆
    sentAlerts (fst (fst st')) ->
  overall_block cryptoId crypto interp clk2 st' = st' /\
  sentAlerts (fst (fst st)) ⊆
    sentAlerts (fst (fst (overall_block cryptoId crypto interp clk1 st))).
Proof.
  intros Hh. unfold overall_block.
  destruct (nge _ _); [|intros _; split; reflexivity].
  destruct (_ || _); [|intros _; split; reflexivity].
  rewrite (indicator_key_same_hour _ _ _ _ _ Hh). intros Hsub.
  match type of Hsub with context [emit_indicator_alert st ?k ?a ?bc] =>
    destruct (emit_indicator_alert_remembers st k a bc) as [Hin Hgrow] end.
  split; [|exact Hgrow].
  apply emit_indicator_alert_known. exact (remembered_later _ _ _ Hin Hsub).
Qed.

Lemma processIndicators_again (svc : t) (db : database)
    (cryptoId : string) (ind : TechnicalAnalysis.indicators)
    (interp : TechnicalAnalysis.interpretation) (clk1 clk2 : indicators_clock)
    (out : list alert) (svc1 : t) (db1 : database) :
  same_hour (ic_rsi clk1) (ic_rsi clk2) ->
  same_hour (ic_macd clk1) (ic_macd clk2) ->
  same_hour (ic_sma clk1) (ic_sma clk2) ->
  same_hour (ic_overall clk1) (ic_overall clk2) ->
  processIndicators svc db cryptoId ind interp clk1 = (out, svc1, db1) ->
  processIndicators svc1 db1 cryptoId ind interp clk2 = ([], svc1, db1).
Proof.
  intros Hr Hm Hs Ho Hfirst.
  pose proof (processIndicators_grown svc db cryptoId ind interp clk1) as Hgrown.
  rewrite Hfirst in Hgrown. destruct Hgrown as (_ & _ & Hassets & _).
  unfold processIndicators, db_get_crypto in Hfirst |- *. rewrite Hassets.
  destruct (cryptocurrencies db !! cryptoId) as [crypto|] eqn:Hcrypto; [|reflexivity].
  destruct (rsi_block cryptoId crypto ind interp clk1 (svc, db, [])) as [st1|] eqn:H1.
  2:{ injection Hfirst as <- <- <-.
      assert (E : rsi_block cryptoId crypto ind interp clk2 (svc, db, []) = None).
      { revert H1. unfold rsi_block.
        destruct (TechnicalAnalysis.int_rsi interp) as [ri|]; [|discriminate].
        destruct (_ || _); [|discriminate].
        rewrite (indicator_key_same_hour _ _ _ _ _ Hr).
        destruct (sentAlerts (fst (fst (svc, db, []))) !! indicator_key _ _ _ _);
          [discriminate|].
        destruct (TechnicalAnalysis.rsi_value_of ind) as [[| |q]|];
          try discriminate; reflexivity. }
      now rewrite E. }
  set (st2 := macd_block cryptoId crypto interp clk1 st1) in *.
  set (st3 := sma_block cryptoId crypto interp clk1 st2) in *.
  destruct (overall_block cryptoId crypto interp clk1 st3) as [[svc4 db4] out4] eqn:H4.
  injection Hfirst as <- <- <-.
  set (st' := (svc4, db4, @nil alert)).
  assert (S4 : sentAlerts (fst (fst (overall_block cryptoId crypto interp clk1 st3))) ⊆
               sentAlerts (fst (fst st'))) by (rewrite H4; reflexivity).
  destruct (overall_block_again cryptoId crypto interp clk1 clk2 st3 st' Ho S4) as [E4 G4].
  assert (S3 : sentAlerts (fst (fst (sma_block cryptoId crypto interp clk1 st2))) ⊆
               sentAlerts (fst (fst st'))) by (etransitivity; [exact G4|exact S4]).
  destruct (sma_block_again cryptoId crypto interp clk1 clk2 st2 st' Hs S3) as [E3 G3].
  assert (S2 : sentAlerts (fst (fst (macd_block cryptoId crypto interp clk1 st1))) ⊆
               sentAlerts (fst (fst st'))) by (etransitivity; [exact G3|exact S3]).
  destruct (macd_block_again cryptoId crypto interp clk1 clk2 st1 st' Hm S2) as [E2 G2].
  assert (S1 : sentAlerts (fst (fst st1)) ⊆ sentAlerts (fst (fst st')))
    by (etransitivity; [exact G2|exact S2]).
  destruct (rsi_block_again cryptoId crypto ind interp clk1 clk2 (svc, db, []) st1 st'
              Hr H1 S1) as [E1 _].
  rewrite E1, E2, E3, E4. reflexivity.
Qed.

(** X10.  Indicator alerts are deduplicated by the hour.  When
    [processIndicators] is called a second time for the same asset with
    the same indicators and interpretation, and each of its four keys is
    built in the same hour as in the first call, the second call creates
    no alert, persists nothing and leaves the service as the first call
    left it. *)
Theorem processIndicators_same_hour_idempotent (svc : t) (db : database)
    (cryptoId : string) (ind : TechnicalAnalysis.indicators)
    (interp : TechnicalAnalysis.interpretation) (clk1 clk2 : indicators_clock) :
  same_hour (ic_rsi clk1) (ic_rsi clk2) ->
  same_hour (ic_macd clk1) (ic_macd clk2) ->
  same_hour (ic_sma clk1) (ic_sma clk2) ->
  same_hour (ic_overall clk1) (ic_overall clk2) ->
  let r := processIndicators svc db cryptoId ind interp clk1 in
  processIndicators (snd (fst r)) (snd r) cryptoId ind interp clk2 =
    ([], snd (fst r), snd r).
Proof.
  intros Hr Hm Hs Ho. cbn zeta.
  destruct (processIndicators svc db cryptoId ind interp clk1) as [[out svc1] db1] eqn:E.
  cbn [fst snd]. exact (processIndicators_again _ _ _ _ _ _ _ _ _ _ Hr Hm Hs Ho E).
Qed.

(** ** The analysis worker *)

(** The two statements of the loop of [runAnalysis] that follow
    [calculateIndicators]: the object [r] it returned is interpreted and
    handed, with its interpretation, to [processIndicators]. *)
Definition analyse (cfg : TechnicalAnalysis.settings) (svc : t) (db : database)
    (cryptoId : string) (r : TechnicalAnalysis.results) (clk : indicators_clock)
  : list alert * t * database :=
  let indicators := TechnicalAnalysis.Calculated r in
  let interpretation := TechnicalAnalysis.interpretIndicators cfg indicators in
  processIndicators svc db cryptoId indicators interpretation clk.

(** X13.  The analysis worker never raises an indicator alert.  Whatever
    [calculateIndicators] computed, the interpretation of its object is
    neutral, so [processIndicators] as [runAnalysis] calls it creates no
    alert, persists nothing and remembers nothing. *)
Theorem analysis_never_alerts (cfg : TechnicalAnalysis.settings) (svc : t) (db : database)
    (cryptoId : string) (r : TechnicalAnalysis.results) (clk : indicators_clock) :
  analyse cfg svc db cryptoId r clk = ([], svc, db).
Proof.
  unfold analyse. cbn zeta.
  destruct (TechnicalAnalysis.interpret_calculated cfg r) as (Hs & Hr & Hm & Ho & _).
  unfold processIndicators. destruct (db_get_crypto db cryptoId) as [crypto|]; [|reflexivity].
  unfold rsi_block. rewrite Hr. cbn [TechnicalAnalysis.ri_condition].
  change (String.eqb "neutral" "overbought" || String.eqb "neutral" "oversold") with false.
  cbn iota. unfold macd_block. rewrite Hm.
  unfold sma_block, overall_block. rewrite Ho.
  change (String.eqb "neutral" "buy" || String.eqb "neutral" "sell") with false.
  destruct Hs as [-> | ->].
  - destruct (nge _ _); reflexivity.
  - change (String.eqb "neutral" "bullish" || String.eqb "neutral" "bearish") with false.
    destruct (nge _ _); reflexivity.
Qed.

(** ** Batches of anomalies *)

(** [processAnomalies(anomalies)] on an array; each anomaly comes with
    the clock readings of its [createAlertFromAnomaly] call.  The
    [alertCreated] events are the returned alerts, in order. *)
Fixpoint processAnomalies_loop (svc : t) (db : database)
    (anomalies : list (DataProcessor.anomaly * anomaly_clock)) (out : list alert)
  : list alert * t * database :=
  match anomalies with
  | [] => (out, svc, db)
  | (anomaly, clk) :: rest =>
      let '(r, svc', db') := createAlertFromAnomaly svc db anomaly clk in
      processAnomalies_loop svc' db' rest
        (match r with Some al => out ++ [al] | None => out end)
  end.

Definition processAnomalies (svc : t) (db : database)
    (anomalies : list (DataProcessor.anomaly * anomaly_clock)) : list alert * t * database :=
  match anomalies with
  | [] => ([], svc, db)
  | _ => processAnomalies_loop svc db anomalies []
  end.

(** An alert made from one of the anomalies, for an asset of the table. *)
Definition made_from (db : database)
    (anomalies : list (DataProcessor.anomaly * anomaly_clock)) (al : alert) : Prop :=
  exists a clk crypto,
    In (a, clk) anomalies /\
    cryptocurrencies db !! DataProcessor.crypto_id a = Some crypto /\
    alert_crypto_id al = DataProcessor.crypto_id a /\
    alert_message al = DataProcessor.description a /\
    alert_old_value al = DataProcessor.old_value a /\
    alert_new_value al = DataProcessor.new_value a /\
    alert_timestamp al = ac_timestamp clk.

Lemma createAlertFromAnomaly_made (svc : t) (db : database)
    (a : DataProcessor.anomaly) (clk : anomaly_clock) :
  match createAlertFromAnomaly svc db a clk with
  | (None, svc', db') => db' = db
  | (Some al, svc', db') =>
      alerts db' = alerts db ++ [al] /\
      cryptocurrencies db' = cryptocurrencies db /\
      made_from db [(a, clk)] al
  end.
Proof.
  unfold createAlertFromAnomaly, db_get_crypto.
  destruct (cryptocurrencies db !! DataProcessor.crypto_id a) as [crypto|] eqn:Hc;
    [|reflexivity].
  destruct (sentAlerts svc !! anomaly_key a (ac_key clk)); [reflexivity|].
  unfold saveAlert, db_insert_alert. cbn [alert_of_anomaly alert_crypto_id]. rewrite Hc.
  cbn [fst alerts cryptocurrencies]. repeat split.
  exists a, clk, crypto. repeat split; [now left|exact Hc].
Qed.

Lemma processAnomalies_loop_persists (anomalies : list (DataProcessor.anomaly * anomaly_clock)) :
  forall (svc : t) (db : database) (out : list alert),
    exists new,
      fst (fst (processAnomalies_loop svc db anomalies out)) = out ++ new /\
      alerts (snd (processAnomalies_loop svc db anomalies out)) = alerts db ++ new /\
      cryptocurrencies (snd (processAnomalies_loop svc db anomalies out)) =
        cryptocurrencies db /\
      (length new <= length anomalies)%nat /\
      List.Forall (made_from db anomalies) new.
Proof.
  induction anomalies as [|[a clk] rest IH]; intros svc db out.
  - exists []. cbn. rewrite !app_nil_r. repeat split; [lia|constructor].
  - cbn [processAnomalies_loop].
    pose proof (createAlertFromAnomaly_made svc db a clk) as H1.
    destruct (createAlertFromAnomaly svc db a clk) as [[[al|] svc'] db'].
    + destruct H1 as (Ha & Hc & Hm).
      destruct (IH svc' db' (out ++ [al])) as (new & E1 & E2 & E3 & E4 & E5).
      exists (al :: new). rewrite E1, E2, E3, Ha, Hc, <- !app_assoc. cbn [app length].
      repeat split; [lia|]. constructor.
      * destruct Hm as (a0 & c0 & cr & Hin & Hrest).
        exists a0, c0, cr. split; [|exact Hrest].
        destruct Hin as [Hin|[]]. left. exact Hin.
      * revert E5. apply List.Forall_impl. intros x (a0 & c0 & cr & Hin & Hk & Hrest).
        exists a0, c0, cr. split; [now right|]. split; [now rewrite <- Hc|exact Hrest].
    + subst db'. destruct (IH svc' db out) as (new & E1 & E2 & E3 & E4 & E5).
      exists new. rewrite E1, E2, E3. cbn [length]. repeat split; [lia|].
      revert E5. apply List.Forall_impl. intros x (a0 & c0 & cr & Hin & Hrest).
      exists a0, c0, cr. split; [now right|exact Hrest].
Qed.

(** X14.  [processAnomalies] returns what it persisted.  The alerts of
    the returned array are exactly the rows appended to the [alerts]
    table, in the same order; there is at most one per anomaly of the
    batch, each is made from an anomaly of the batch whose asset is in the
    table of assets (asset, message, old and new value are the anomaly's),
    and the table of assets is untouched.  An empty batch changes
    nothing. *)
Theorem processAnomalies_persists (svc : t) (db : database)
    (anomalies : list (DataProcessor.anomaly * anomaly_clock)) :
  let r := processAnomalies svc db anomalies in
  alerts (snd r) = alerts db ++ fst (fst r) /\
  cryptocurrencies (snd r) = cryptocurrencies db /\
  (length (fst (fst r)) <= length anomalies)%nat /\
  List.Forall (made_from db anomalies) (fst (fst r)) /\
  (anomalies = [] -> r = ([], svc, db)).
Proof.
  cbn zeta. destruct anomalies as [|x rest].
  - cbn. rewrite app_nil_r. repeat split; [lia|constructor].
  - unfold processAnomalies.
    destruct (processAnomalies_loop_persists (x :: rest) svc db [])
      as (new & E1 & E2 & E3 & E4 & E5).
    rewrite E1, E2, E3. cbn [app]. repeat split; [exact E4|exact E5|discriminate].
Qed.

Lemma processIndicators_same_hour_idempotent_witness :
  let first := indicators_clock_at 7200000 in
  let second := indicators_clock_at 10799999 in
  let ind := TechnicalAnalysis.Latest overbought in
  let interp := TechnicalAnalysis.interpretIndicators TechnicalAnalysis.config_indicators ind in
  same_hour (ic_rsi first) (ic_rsi second) /\
  length (fst (fst two_hours_later)) = 2%nat /\
  processIndicators (snd (fst two_hours_later)) (snd two_hours_later) "bitcoin" ind interp
    second = ([], snd (fst two_hours_later), snd two_hours_later).
Proof.
  cbn zeta. split; [reflexivity|]. split; [reflexivity|].
  apply (processIndicators_same_hour_idempotent (fst service_at_0) (snd service_at_0)
           "bitcoin" (TechnicalAnalysis.Latest overbought)
           (TechnicalAnalysis.interpretIndicators TechnicalAnalysis.config_indicators
              (TechnicalAnalysis.Latest overbought))
           (indicators_clock_at 7200000) (indicators_clock_at 10799999));
    reflexivity.
Defined.

End AlertService.

(* ===================================================================== *)
(** * Fetch client ([CoinGeckoService], services/coingecko.js) *)
(* ===================================================================== *)

Module CoinGecko.

(** Payloads of the provider and cached data are untyped values. *)
#[warnings="-register-all"]
Inductive js : Type :=
| JsUndefined
| JsNull
| JsBool (b : bool)
| JsNum (q : Q)
| JsStr (s : string)
| JsArr (items : list js)
| JsObj (fields : list (string * js)).

Definition truthy (v : js) : bool :=
  match v with
  | JsUndefined | JsNull => false
  | JsBool b => b
  | JsNum q => negb (Qeq_bool q 0)
  | JsStr s => negb (String.eqb s "")
  | JsArr _ | JsObj _ => true
  end.

(** [v === undefined || v === null]. *)
Definition nullish (v : js) : bool :=
  match v with
  | JsUndefined | JsNull => true
  | _ => false
  end.

(** Property read [o[k]]. *)
Definition js_get (o : js) (k : string) : js :=
  match o with
  | JsObj fields =>
      match List.find (fun f => String.eqb (fst f) k) fields with
      | Some f => snd f
      | None => JsUndefined
      end
  | _ => JsUndefined
  end.

(** [a === b]; two objects or two arrays are never the same one here. *)
Definition strict_equal (a b : js) : bool :=
  match a, b with
  | JsUndefined, JsUndefined => true
  | JsNull, JsNull => true
  | JsBool x, JsBool y => Bool.eqb x y
  | JsNum x, JsNum y => Qeq_bool x y
  | JsStr x, JsStr y => String.eqb x y
  | _, _ => false
  end.

(** [o.k] where [o] may be anything: reading a property of [undefined]
    or [null] is a [TypeError] ([None]). *)
Definition read (o : js) (k : string) : option js :=
  if nullish o then None else Some (js_get o k).

(** [arr.find(coin => coin.id === coinId)]: [Some None] is [undefined],
    nothing found; the outer [None] is the [TypeError] of an element that
    is [undefined] or [null]. *)
Fixpoint find_coin (arr : list js) (coinId : js) : option (option js) :=
  match arr with
  | [] => Some None
  | coin :: rest =>
      match read coin "id" with
      | None => None
      | Some id => if strict_equal id coinId then Some (Some coin) else find_coin rest coinId
      end
  end.

(** [arr.map(coin => coin.id)]. *)
Fixpoint ids (arr : list js) : option (list js) :=
  match arr with
  | [] => Some []
  | coin :: rest =>
      match read coin "id", ids rest with
      | Some id, Some l => Some (id :: l)
      | _, _ => None
      end
  end.


Definition API_PROXIES : list string :=
  [ "https://api.coingecko.com/api/v3";
    "https://coingecko.p.rapidapi.com/api/v3";
    "https://api.coincap.io/v2" ].

Record cache_entry : Type := {
  ce_data : js;
  ce_timestamp : option Z;
  ce_ttl : Z
}.

(** What a promise of the provider call settles to: the value it
    resolves to, or an error with the status of its [response], if it
    has one. *)
Inductive response : Type :=
| Ok (result : js)
| Fail (status : option Z).

(** An [apiCallFn]: the path it requests below [getApiUrl()], and the
    answer of the network to the [n]-th request of a call at a URL. *)
Record api_call : Type := {
  path : string;
  respond : string -> nat -> response
}.

Record queued : Type := {
  queued_call : api_call;
  queued_cacheKey : option string
}.

Record rate_limiter : Type := {
  requestCount : Z;
  requestLimit : Z;
  resetTime : Z;
  queue : list queued;
  processingQueue : bool
}.

Record retry_config : Type := {
  maxRetries : nat;
  baseDelay : Q;
  backoffFactor : Q
}.

Record t : Type := {
  baseUrl : string;
  currentProxyIndex : nat;
  cache : gmap string cache_entry;
  rateLimiter : rate_limiter;
  retryConfig : retry_config
}.

(** The constructor, at clock reading [now]. *)
Definition create (now : Z) : t :=
  {| baseUrl := "https://api.coingecko.com/api/v3";
     currentProxyIndex := 0;
     cache :=
       <[ "marketData" := {| ce_data := JsNull; ce_timestamp := None; ce_ttl := 60000 |} ]>
       (<[ "detailedData" := {| ce_data := JsArr []; ce_timestamp := None; ce_ttl := 300000 |} ]>
       {[ "historicalData" := {| ce_data := JsObj []; ce_timestamp := None; ce_ttl := 3600000 |} ]});
     rateLimiter :=
       {| requestCount := 0; requestLimit := 40; resetTime := now + 60000;
          queue := []; processingQueue := false |};
     retryConfig := {| maxRetries := 5; baseDelay := 2000; backoffFactor := 2 |} |}.

Definition with_cache (svc : t) (c : gmap string cache_entry) : t :=
  {| baseUrl := baseUrl svc; currentProxyIndex := currentProxyIndex svc;
     cache := c; rateLimiter := rateLimiter svc; retryConfig := retryConfig svc |}.

Definition with_rateLimiter (svc : t) (r : rate_limiter) : t :=
  {| baseUrl := baseUrl svc; currentProxyIndex := currentProxyIndex svc;
     cache := cache svc; rateLimiter := r; retryConfig := retryConfig svc |}.

(** [getApiUrl()]: [this.baseUrl || API_PROXIES[this.currentProxyIndex]]. *)
Definition getApiUrl (svc : t) : string :=
  if negb (String.eqb (baseUrl svc) "") then baseUrl svc
  else nth (currentProxyIndex svc) API_PROXIES "undefined".

(** [switchToNextProxy()]. *)
Definition switchToNextProxy (svc : t) : t :=
  {| baseUrl := baseUrl svc;
     currentProxyIndex := (currentProxyIndex svc + 1) mod length API_PROXIES;
     cache := cache svc; rateLimiter := rateLimiter svc; retryConfig := retryConfig svc |}.

(** [canMakeRequest()]. *)
Definition canMakeRequest (svc : t) : bool :=
  requestCount (rateLimiter svc) <? requestLimit (rateLimiter svc).

(** [incrementRequestCount()]. *)
Definition incrementRequestCount (svc : t) : t :=
  let r := rateLimiter svc in
  with_rateLimiter svc
    {| requestCount := requestCount r + 1; requestLimit := requestLimit r;
       resetTime := resetTime r; queue := queue r;
       processingQueue := processingQueue r |}.

(** Errors that reach a caller: the error of a provider call, with the
    status of its response if it has one; the three [Error]s that the
    service makes itself; the [null] that [lastError] starts as; and the
    error that [emit('error', ...)] throws when no listener for ['error']
    is registered. *)
Inductive error : Type :=
| ApiError (status : option Z)
| EmptyResponse
| TypeError
| NoError
| BadData
| Unhandled.

(** What a caller observes of a call. *)
Inductive outcome : Type :=
| Returned (result : js)
| Thrown (e : error)
| Pending.

(** The effects of a call, in order. *)
Inductive event : Type :=
| Request (url : string)
| Sleep (delay : Q)
| Emit (name : string) (payload : js).

(** [this.cache[cacheKey]]; an omitted argument reads the property
    ["undefined"]. *)
Definition property_key (cacheKey : option string) : string :=
  match cacheKey with
  | Some k => k
  | None => "undefined"
  end.

(** The entries of the cache object: its own properties. *)
Definition cache_read (svc : t) (cacheKey : option string) : option cache_entry :=
  cache svc !! property_key cacheKey.

(** The cache object is an object literal, and [this.cache[cacheKey]]
    also finds the members that it inherits from [Object.prototype]:
    functions and, under [__proto__], the prototype itself.  Such a member
    is not [undefined], so reading [data] from it does not throw, and it
    has no [ttl], so it never counts as fresh. *)
Definition inherited_keys : list string :=
  [ "constructor"; "__defineGetter__"; "__defineSetter__"; "hasOwnProperty";
    "__lookupGetter__"; "__lookupSetter__"; "isPrototypeOf"; "propertyIsEnumerable";
    "toString"; "valueOf"; "__proto__"; "toLocaleString" ].

Definition inherited (k : string) : bool := existsb (String.eqb k) inherited_keys.

(** [if (cacheKey && this.cache[cacheKey]) { ... data = result; timestamp = Date.now() }].
    Under an inherited key the two writes land on the inherited member,
    which is no part of the service. *)
Definition update_cache (svc : t) (cacheKey : option string) (result : js) (now : Z) : t :=
  match cacheKey with
  | Some k =>
      if negb (String.eqb k "") then
        match cache svc !! k with
        | Some c =>
            with_cache svc
              (<[ k := {| ce_data := result; ce_timestamp := Some now; ce_ttl := ce_ttl c |} ]>
                 (cache svc))
        | None => svc
        end
      else svc
  | None => svc
  end.

(** [baseDelay * Math.pow(backoffFactor, retryCount - 1)]. *)
Definition retry_delay (cfg : retry_config) (retryCount : nat) : Q :=
  (baseDelay cfg * backoffFactor cfg ^ (Z.of_nat retryCount - 1))%Q.

Definition status_is (status : option Z) (code : Z) : bool :=
  match status with
  | Some s => s =? code
  | None => false
  end.

(** The [while] loop of [executeWithRetry]; [fuel] bounds the iterations
    that remain, [clock n] is the reading of [Date.now()] after the
    [n]-th request. *)
Fixpoint retry_loop (fuel : nat) (svc : t) (call : api_call) (cacheKey : option string)
    (clock : nat -> Z) (retryCount : nat) (lastError : error) (trace : list event)
  : outcome * t * list event :=
  match fuel with
  | O => (Thrown lastError, svc, trace)
  | S fuel' =>
      let url := getApiUrl svc +:+ path call in
      let trace1 := trace ++ [Request url] in
      let caught (e : error) (status : option Z) :=
        if status_is status 404 then (Thrown e, svc, trace1)
        else
          let retryCount' := S retryCount in
          if Nat.ltb (maxRetries (retryConfig svc)) retryCount' then (Thrown e, svc, trace1)
          else
            retry_loop fuel' svc call cacheKey clock retryCount' e
              (trace1 ++ [Sleep (retry_delay (retryConfig svc) retryCount')]) in
      match respond call url retryCount with
      | Ok result =>
          if nullish result then caught EmptyResponse None
          else
            (Returned result,
             update_cache (incrementRequestCount svc) cacheKey result (clock retryCount),
             trace1)
      | Fail status => caught (ApiError status) status
      end
  end.

(** [executeWithRetry(apiCallFn, cacheKey)]. *)
Definition executeWithRetry (svc : t) (call : api_call) (cacheKey : option string)
    (clock : nat -> Z) : outcome * t * list event :=
  retry_loop (S (maxRetries (retryConfig svc))) svc call cacheKey clock 0 NoError [].

(** What [processQueue()] does before its first [await] when the limit
    is reached: it takes the role of the queue processor. *)
Definition enqueue (svc : t) (call : api_call) (cacheKey : option string) : t :=
  let r := rateLimiter svc in
  with_rateLimiter svc
    {| requestCount := requestCount r; requestLimit := requestLimit r;
       resetTime := resetTime r;
       queue := queue r ++ [ {| queued_call := call; queued_cacheKey := cacheKey |} ];
       processingQueue := true |}.

Definition fresh (c : cache_entry) (now : Z) : bool :=
  truthy (ce_data c) &&
  match ce_timestamp c with
  | Some ts => negb (ts =? 0) && (now - ts <? ce_ttl c)
  | None => false
  end.

(** [executeApiCall(apiCallFn, cacheKey)], the second definition of the
    class body, which is the one in effect.  Reading [cache.data] of
    [undefined], what [this.cache[cacheKey]] is when the key names no
    property, is the [TypeError]; an inherited member is read without an
    error and is not fresh. *)
Definition executeApiCall (svc : t) (call : api_call) (cacheKey : option string)
    (now : Z) (clock : nat -> Z) : outcome * t * list event :=
  match cache_read svc cacheKey with
  | None =>
      if inherited (property_key cacheKey) then
        if canMakeRequest svc then executeWithRetry svc call cacheKey clock
        else (Pending, enqueue svc call cacheKey, [])
      else (Thrown TypeError, svc, [])
  | Some c =>
      if fresh c now then (Returned (ce_data c), svc, [])
      else if canMakeRequest svc then executeWithRetry svc call cacheKey clock
      else (Pending, enqueue svc call cacheKey, [])
  end.

(** ** The callers of [executeApiCall] *)

Section Callers.

(** The network, as the answer to the [n]-th request of a call at a URL;
    [String(v)] of the language, used where an id is spliced into a path;
    and its [Number(v)], used where a length is compared with [0]
    ([None] is [NaN]). *)
Variable net : string -> nat -> response.
Variable to_string : js -> string.
Variable to_number : js -> option Q.

(** Whether a listener for ['error'] is registered on the service when
    the method runs (one that returns): without one, [emit('error', ...)]
    throws.  And [error.response.data] of an error with a response: the
    body that the provider sent with the status. *)
Variable listening : bool.
Variable error_data : Z -> js.

Definition market_call : api_call :=
  {| path := "/coins/markets"; respond := net |}.

Definition detail_call (coinId : string) : api_call :=
  {| path := "/coins/" +:+ coinId; respond := net |}.

Definition chart_call (coinId : string) : api_call :=
  {| path := "/coins/" +:+ coinId +:+ "/market_chart"; respond := net |}.

(** [this.cache.marketData] and its siblings, which the constructor
    creates and nothing removes. *)
Definition entry (svc : t) (k : string) : cache_entry :=
  match cache svc !! k with
  | Some c => c
  | None => {| ce_data := JsUndefined; ce_timestamp := None; ce_ttl := 0 |}
  end.

Definition set_entry (svc : t) (k : string) (data : js) (ts : option Z) : t :=
  with_cache svc
    (<[ k := {| ce_data := data; ce_timestamp := ts; ce_ttl := ce_ttl (entry svc k) |} ]>
       (cache svc)).

(** The value caught is an [Error] object: [null] is not, and reading a
    property of it throws. *)
Definition is_error_object (e : error) : bool :=
  match e with
  | NoError => false
  | _ => true
  end.

(** The [errorMsg] of the [catch] of [fetchMarketData] cannot be made:
    [error.response] is read from [null], or [error.response.data.error]
    from a response without a body. *)
Definition message_throws (e : error) : bool :=
  match e with
  | NoError => true
  | ApiError (Some status) => nullish (error_data status)
  | _ => false
  end.

(** The [catch] branch of [fetchMarketData], with the error caught: it
    makes the message, emits ['error'] and answers the cached data. *)
Definition market_fallback (svc : t) (e : error) (trace : list event)
  : outcome * t * list event :=
  let cached := ce_data (entry svc "marketData") in
  if message_throws e then (Thrown TypeError, svc, trace)
  else if negb listening then (Thrown Unhandled, svc, trace)
  else
    (Returned cached, svc,
     trace ++ [Emit "error" JsUndefined] ++
     (if truthy cached then [Emit "marketDataUpdated" cached] else [])).

(** [fetchMarketData()]. *)
Definition fetchMarketData (svc : t) (now : Z) (clock : nat -> Z)
  : outcome * t * list event :=
  match executeApiCall svc market_call (Some "marketData") now clock with
  | (Returned data, svc', trace) =>
      if truthy data then (Returned data, svc', trace ++ [Emit "marketDataUpdated" data])
      else market_fallback svc' BadData trace
  | (Thrown e, svc', trace) => market_fallback svc' e trace
  | (Pending, svc', trace) => (Pending, svc', trace)
  end.

(** [`${coinId}_${days}`]. *)
Definition chart_key (coinId : string) (days : Z) : string :=
  coinId +:+ "_" +:+ pretty days.

(** [data[cacheKey]] of the historical cache. *)
Definition cached_chart (svc : t) (coinId : string) (days : Z) : js :=
  js_get (ce_data (entry svc "historicalData")) (chart_key coinId days).

Definition js_set (o : js) (k : string) (v : js) : js :=
  match o with
  | JsObj fields =>
      JsObj (if existsb (fun f => String.eqb (fst f) k) fields
             then map (fun f => if String.eqb (fst f) k then (k, v) else f) fields
             else fields ++ [(k, v)])
  | _ => o
  end.

Definition is_array (v : js) : bool :=
  match v with JsArr _ => true | _ => false end.

(** The outer [catch] branch of [fetchHistoricalData]; what it catches
    is an [Error] made by the inner one.  It emits ['error'] and answers
    the cached chart or [null]. *)
Definition chart_fallback (svc : t) (coinId : string) (days : Z) (trace : list event)
  : outcome * t * list event :=
  let cached := cached_chart svc coinId days in
  if negb listening then (Thrown Unhandled, svc, trace)
  else
    (Returned (if truthy (ce_data (entry svc "historicalData")) && truthy cached
               then cached else JsNull),
     svc, trace ++ [Emit "error" JsUndefined]).

(** [fetchHistoricalData(coinId, days)]. *)
Definition fetchHistoricalData (svc0 : t) (coinId : string) (days : Z)
    (now finished : Z) (clock : nat -> Z) : outcome * t * list event :=
  let svc :=
    if truthy (ce_data (entry svc0 "historicalData")) then svc0
    else set_entry svc0 "historicalData" (JsObj []) (ce_timestamp (entry svc0 "historicalData")) in
  let h := entry svc "historicalData" in
  if truthy (cached_chart svc coinId days) &&
     match ce_timestamp h with
     | Some ts => negb (ts =? 0) && (now - ts <? ce_ttl h)
     | None => false
     end
  then (Returned (cached_chart svc coinId days), svc, [])
  else
    match executeApiCall svc (chart_call coinId) None now clock with
    | (Returned data, svc', trace) =>
        if truthy data && truthy (js_get data "prices") && is_array (js_get data "prices")
        then
          (Returned data,
           set_entry svc' "historicalData"
             (js_set (ce_data (entry svc' "historicalData")) (chart_key coinId days) data)
             (Some finished),
           trace)
        else chart_fallback svc' coinId days trace
    | (Thrown _, svc', trace) => chart_fallback svc' coinId days trace
    | (Pending, svc', trace) => (Pending, svc', trace)
    end.




(** How a round of the loop of [fetchDetailedData] ends: it carries on
    with the extended array, it is left pending on a queued call, or the
    search of the cache throws. *)
Inductive round : Type :=
| Next (acc : t * list js * list event)
| Parked (svc : t) (trace : list event)
| Threw (svc : t) (trace : list event).

(** [this.cache.detailedData.data.find(coin => coin.id === coinId)]. *)
Definition cached_detail (svc : t) (coinId : js) : option (option js) :=
  match ce_data (entry svc "detailedData") with
  | JsArr items => find_coin items coinId
  | _ => None
  end.

(** One round of the loop, with a coin id. *)
Definition detail_step (now : Z) (clock : nat -> Z)
    (acc : t * list js * list event) (coinId : js) : round :=
  let '(svc, detailedDataArray, trace) := acc in
  let d := entry svc "detailedData" in
  match cached_detail svc coinId with
  | None => Threw svc trace
  | Some cachedCoin =>
      let isCacheValid :=
        match cachedCoin, ce_timestamp d with
        | Some coin, Some ts => truthy coin && negb (ts =? 0) && (now - ts <? ce_ttl d)
        | _, _ => false
        end in
      if isCacheValid then Next (svc, detailedDataArray ++ option_list cachedCoin, trace)
      else
        match executeApiCall svc (detail_call (to_string coinId)) None now clock with
        | (Returned coinData, svc', tr) =>
            Next (svc', detailedDataArray ++ [coinData], trace ++ tr ++ [Sleep 300])
        | (Thrown e, svc', tr) =>
            if is_error_object e then
              Next (svc',
                    detailedDataArray ++
                    match cachedCoin with
                    | Some coin => if truthy coin then [coin] else []
                    | None => []
                    end,
                    trace ++ tr ++ [Sleep 300])
            else Threw svc' (trace ++ tr)
        | (Pending, svc', tr) => Parked svc' (trace ++ tr)
        end
  end.

Fixpoint detail_loop (now : Z) (clock : nat -> Z) (topCoins : list js)
    (acc : t * list js * list event) : round :=
  match topCoins with
  | [] => Next acc
  | coinId :: rest =>
      match detail_step now clock acc coinId with
      | Next acc' => detail_loop now clock rest acc'
      | r => r
      end
  end.

(** The outer [catch] branch of [fetchDetailedData]; what it catches is
    an [Error] object.  It emits ['error'] and answers the cached data. *)
Definition detailed_fallback (svc : t) (trace : list event) : outcome * t * list event :=
  let cached := ce_data (entry svc "detailedData") in
  if negb listening then (Thrown Unhandled, svc, trace)
  else
    (Returned cached, svc,
     trace ++ [Emit "error" JsUndefined] ++
     (match cached with
      | JsArr (_ :: _) => [Emit "detailedDataUpdated" cached]
      | _ => []
      end)).

(** The part of [fetchDetailedData] that follows the check of the basic
    data. *)
Definition fetch_details (svc : t) (trace : list event) (now finished : Z)
    (clock : nat -> Z) : outcome * t * list event :=
  match ce_data (entry svc "marketData") with
  | JsArr items =>
      match ids (firstn 10 items) with
      | Some topCoins =>
          match detail_loop now clock topCoins (svc, [], trace) with
          | Next (svc', detailedDataArray, trace') =>
              (Returned (JsArr detailedDataArray),
               set_entry svc' "detailedData" (JsArr detailedDataArray) (Some finished),
               trace' ++ [Emit "detailedDataUpdated" (JsArr detailedDataArray)])
          | Parked svc' trace' => (Pending, svc', trace')
          | Threw svc' trace' => detailed_fallback svc' trace'
          end
      | None => detailed_fallback svc trace
      end
  | _ => detailed_fallback svc trace
  end.

(** [data.length === 0]. *)
Definition length_is_zero (data : js) : bool :=
  match data with
  | JsArr [] => true
  | JsStr s => String.eqb s ""
  | JsObj _ => match js_get data "length" with
               | JsNum q => Qeq_bool q 0
               | _ => false
               end
  | _ => false
  end.

(** [fetchDetailedData()]; [now0] is the clock at the fetch of the basic
    data, [now] at the start of the loop, [finished] at its end. *)
Definition fetchDetailedData (svc : t) (now0 now finished : Z) (clock : nat -> Z)
  : outcome * t * list event :=
  let data := ce_data (entry svc "marketData") in
  if negb (truthy data) || length_is_zero data then
    match fetchMarketData svc now0 clock with
    | (Pending, svc', trace) => (Pending, svc', trace)
    | (Thrown _, svc', trace) => detailed_fallback svc' trace
    | (Returned _, svc', trace) =>
        if truthy (ce_data (entry svc' "marketData"))
        then fetch_details svc' trace now finished clock
        else detailed_fallback svc' trace
    end
  else fetch_details svc [] now finished clock.

End Callers.

(** The cache object has the three entries of the constructor. *)
Definition cache_keys : gset string :=
  {[ "marketData"; "detailedData"; "historicalData" ]}.

Definition well_formed (svc : t) : Prop := dom (cache svc) = cache_keys.

(** The URLs requested by a call, in order. *)
Definition requests (trace : list event) : list string :=
  flat_map (fun e => match e with Request url => [url] | _ => [] end) trace.


(** The delays slept by a call, in order. *)
Definition sleeps (trace : list event) : list Q :=
  flat_map (fun e => match e with Sleep d => [d] | _ => [] end) trace.

(** ** Properties *)


Lemma set_entry_well_formed (svc : t) (k : string) (data : js) (ts : option Z) :
  well_formed svc -> k ∈ cache_keys -> well_formed (set_entry svc k data ts).
Proof.
  unfold well_formed, set_entry. cbn [cache with_cache]. intros H Hk.
  rewrite dom_insert_L, H. apply subseteq_union_1_L.
  now apply singleton_subseteq_l.
Qed.







Section CallersFacts.

Variable net : string -> nat -> response.
Variable to_string : js -> string.



End CallersFacts.




(** *** Retries *)

Lemma update_cache_endpoint (svc : t) (cacheKey : option string) (result : js) (now : Z) :
  baseUrl (update_cache svc cacheKey result now) = baseUrl svc /\
  currentProxyIndex (update_cache svc cacheKey result now) = currentProxyIndex svc.
Proof.
  unfold update_cache. destruct cacheKey as [k|]; [|split; reflexivity].
  destruct (negb (k =? "")%string); [|split; reflexivity].
  destruct (cache svc !! k); split; reflexivity.
Qed.

(** The loop never changes the provider endpoint, and sends every
    request to the URL in use when it started. *)
Lemma retry_loop_endpoint (fuel : nat) (svc : t) (call : api_call)
    (cacheKey : option string) (clock : nat -> Z) (retryCount : nat) (e : error)
    (trace : list event) :
  let r := retry_loop fuel svc call cacheKey clock retryCount e trace in
  baseUrl (snd (fst r)) = baseUrl svc /\
  currentProxyIndex (snd (fst r)) = currentProxyIndex svc /\
  (Forall (fun url => url = getApiUrl svc +:+ path call) (requests trace) ->
   Forall (fun url => url = getApiUrl svc +:+ path call) (requests (snd r))).
Proof.
  revert retryCount e trace.
  induction fuel as [|fuel IH]; intros retryCount e trace; cbn zeta.
  - simpl. auto.
  - assert (Hreq : forall tr extra,
              requests extra = [] \/ requests extra = [getApiUrl svc +:+ path call] ->
              Forall (fun url => url = getApiUrl svc +:+ path call) (requests tr) ->
              Forall (fun url => url = getApiUrl svc +:+ path call) (requests (tr ++ extra))).
    { intros tr extra Hex Htr. unfold requests in *. rewrite flat_map_app.
      apply Forall_app. split; [exact Htr|].
      destruct Hex as [-> | ->]; repeat constructor. }
    simpl.
    assert (Hcaught : forall e' status,
              let r := (if status_is status 404
                        then (Thrown e', svc, trace ++ [Request (getApiUrl svc +:+ path call)])
                        else if Nat.ltb (maxRetries (retryConfig svc)) (S retryCount)
                        then (Thrown e', svc, trace ++ [Request (getApiUrl svc +:+ path call)])
                        else retry_loop fuel svc call cacheKey clock (S retryCount) e'
                               ((trace ++ [Request (getApiUrl svc +:+ path call)]) ++
                                [Sleep (retry_delay (retryConfig svc) (S retryCount))])) in
              baseUrl (snd (fst r)) = baseUrl svc /\
              currentProxyIndex (snd (fst r)) = currentProxyIndex svc /\
              (Forall (fun url => url = getApiUrl svc +:+ path call) (requests trace) ->
               Forall (fun url => url = getApiUrl svc +:+ path call) (requests (snd r)))).
    { intros e' status. cbn zeta.
      destruct (status_is status 404).
      - simpl. split; [reflexivity|]. split; [reflexivity|].
        intros H. apply Hreq; [right; reflexivity|exact H].
      - destruct (Nat.ltb _ _).
        + simpl. split; [reflexivity|]. split; [reflexivity|].
          intros H. apply Hreq; [right; reflexivity|exact H].
        + specialize (IH (S retryCount) e'
                        ((trace ++ [Request (getApiUrl svc +:+ path call)]) ++
                         [Sleep (retry_delay (retryConfig svc) (S retryCount))])).
          cbn zeta in IH. destruct IH as (I1 & I2 & I3).
          split; [exact I1|]. split; [exact I2|].
          intros H. apply I3. apply Hreq; [left; reflexivity|].
          apply Hreq; [right; reflexivity|exact H]. }
    destruct (respond call (getApiUrl svc +:+ path call) retryCount) as [result|status].
    + destruct (nullish result).
      * apply (Hcaught EmptyResponse None).
      * simpl.
        destruct (update_cache_endpoint (incrementRequestCount svc) cacheKey result
                    (clock retryCount)) as [U1 U2].
        split; [exact U1|]. split; [exact U2|].
        intros H. apply Hreq; [right; reflexivity|exact H].
    + apply (Hcaught (ApiError status) status).
Qed.

(** The delays of the loop are those of the retry schedule, one per
    retry and in order: the sleep before retry [k] lasts
    [baseDelay * backoffFactor ^ (k - 1)], and no retry goes beyond
    [maxRetries]. *)
Lemma retry_loop_delays (fuel : nat) (svc : t) (call : api_call)
    (cacheKey : option string) (clock : nat -> Z) (retryCount : nat) (e : error)
    (trace : list event) :
  exists n : nat,
    sleeps (snd (retry_loop fuel svc call cacheKey clock retryCount e trace)) =
      sleeps trace ++ map (retry_delay (retryConfig svc)) (List.seq (S retryCount) n) /\
    (n = 0 \/ retryCount + n <= maxRetries (retryConfig svc))%nat.
Proof.
  revert retryCount e trace.
  induction fuel as [|fuel IH]; intros retryCount e trace.
  - exists 0%nat. simpl. rewrite app_nil_r. auto.
  - simpl.
    assert (Hcaught : forall e' status,
              exists n : nat,
                sleeps (snd (if status_is status 404
                        then (Thrown e', svc, trace ++ [Request (getApiUrl svc +:+ path call)])
                        else if Nat.ltb (maxRetries (retryConfig svc)) (S retryCount)
                        then (Thrown e', svc, trace ++ [Request (getApiUrl svc +:+ path call)])
                        else retry_loop fuel svc call cacheKey clock (S retryCount) e'
                               ((trace ++ [Request (getApiUrl svc +:+ path call)]) ++
                                [Sleep (retry_delay (retryConfig svc) (S retryCount))]))) =
                  sleeps trace ++
                  map (retry_delay (retryConfig svc)) (List.seq (S retryCount) n) /\
                (n = 0 \/ retryCount + n <= maxRetries (retryConfig svc))%nat).
    { intros e' status.
      destruct (status_is status 404).
      - exists 0%nat. simpl. unfold sleeps. rewrite flat_map_app. simpl. auto.
      - destruct (Nat.ltb _ _) eqn:Hlt.
        + exists 0%nat. simpl. unfold sleeps. rewrite flat_map_app. simpl. auto.
        + apply Nat.ltb_ge in Hlt.
          destruct (IH (S retryCount) e'
                      ((trace ++ [Request (getApiUrl svc +:+ path call)]) ++
                       [Sleep (retry_delay (retryConfig svc) (S retryCount))]))
            as (n & Hn & Hbound).
          exists (S n). split.
          * rewrite Hn. unfold sleeps. rewrite !flat_map_app. simpl.
            rewrite app_nil_r, <- app_assoc. reflexivity.
          * right. destruct Hbound as [-> | Hb]; lia. }
    destruct (respond call (getApiUrl svc +:+ path call) retryCount) as [result|status].
    + destruct (nullish result).
      * apply (Hcaught EmptyResponse None).
      * exists 0%nat. simpl. unfold sleeps. rewrite flat_map_app. simpl. auto.
    + apply (Hcaught (ApiError status) status).
Qed.

(** The retry schedule of [executeWithRetry]. *)
Lemma executeWithRetry_delays (svc : t) (call : api_call) (cacheKey : option string)
    (clock : nat -> Z) :
  exists n : nat,
    (n <= maxRetries (retryConfig svc))%nat /\
    sleeps (snd (executeWithRetry svc call cacheKey clock)) =
      map (fun k => (baseDelay (retryConfig svc) *
                     backoffFactor (retryConfig svc) ^ (Z.of_nat k - 1))%Q)
          (List.seq 1 n).
Proof.
  unfold executeWithRetry.
  destruct (retry_loop_delays (S (maxRetries (retryConfig svc))) svc call cacheKey clock
              0 NoError []) as (n & Hn & Hb).
  exists n. split; [destruct Hb; lia|]. exact Hn.
Qed.

(** A 404 is not retried. *)
Lemma executeWithRetry_not_found (svc : t) (call : api_call) (cacheKey : option string)
    (clock : nat -> Z) :
  respond call (getApiUrl svc +:+ path call) 0 = Fail (Some 404) ->
  executeWithRetry svc call cacheKey clock =
    (Thrown (ApiError (Some 404)), svc, [Request (getApiUrl svc +:+ path call)]).
Proof. intros H. unfold executeWithRetry. simpl. rewrite H. reflexivity. Qed.

(** No call of [executeWithRetry] fails over. *)
Lemma executeWithRetry_endpoint (svc : t) (call : api_call) (cacheKey : option string)
    (clock : nat -> Z) :
  currentProxyIndex (snd (fst (executeWithRetry svc call cacheKey clock))) =
    currentProxyIndex svc /\
  getApiUrl (snd (fst (executeWithRetry svc call cacheKey clock))) = getApiUrl svc /\
  Forall (fun url => url = getApiUrl svc +:+ path call)
         (requests (snd (executeWithRetry svc call cacheKey clock))).
Proof.
  unfold executeWithRetry.
  destruct (retry_loop_endpoint (S (maxRetries (retryConfig svc))) svc call cacheKey clock
              0 NoError []) as (H1 & H2 & H3).
  split; [exact H2|]. split.
  - unfold getApiUrl. now rewrite H1, H2.
  - apply H3. constructor.
Qed.

(** With a configured base URL, even [switchToNextProxy] leaves the URL
    of [getApiUrl] as it is. *)
Lemma getApiUrl_ignores_proxy (svc : t) :
  baseUrl svc <> "" -> getApiUrl (switchToNextProxy svc) = getApiUrl svc.
Proof.
  intros H. unfold getApiUrl, switchToNextProxy. cbn [baseUrl].
  destruct (String.eqb_spec (baseUrl svc) ""); [contradiction|reflexivity].
Qed.

(** A network that answers the first request of a call with status 429
    (403) and the next one with a payload. *)
Definition limited_once (status : Z) (url : string) (n : nat) : response :=
  match n with
  | O => Fail (Some status)
  | S _ => Ok (JsArr [JsObj [("id", JsStr "bitcoin")]])
  end.

Definition markets (status : Z) : api_call :=
  {| path := "/coins/markets"; respond := limited_once status |}.

(** C3 (the code departs from the claim on failover).  The first request
    of a market fetch is answered with status 429 (and likewise 403).
    [executeWithRetry] sleeps [baseDelay = 2000] and sends the second
    request to the same URL as the first; the provider index is still 0
    when the call returns.  No failover has taken place. *)
Theorem rate_limited_retry_keeps_endpoint :
  executeWithRetry (create 0) (markets 429) (Some "marketData") (fun _ => 1) =
    (Returned (JsArr [JsObj [("id", JsStr "bitcoin")]]),
     snd (fst (executeWithRetry (create 0) (markets 429) (Some "marketData") (fun _ => 1))),
     [ Request "https://api.coingecko.com/api/v3/coins/markets";
       Sleep 2000;
       Request "https://api.coingecko.com/api/v3/coins/markets" ]) /\
  currentProxyIndex
    (snd (fst (executeWithRetry (create 0) (markets 429) (Some "marketData") (fun _ => 1))))
    = 0%nat /\
  requests (snd (executeWithRetry (create 0) (markets 403) (Some "marketData") (fun _ => 1))) =
    [ "https://api.coingecko.com/api/v3/coins/markets";
      "https://api.coingecko.com/api/v3/coins/markets" ] /\
  currentProxyIndex
    (snd (fst (executeWithRetry (create 0) (markets 403) (Some "marketData") (fun _ => 1))))
    = 0%nat.
Proof.
  split; [|split; [|split]].
  - unfold executeWithRetry. cbn -[create Qpower].
    unfold retry_delay. cbn -[create]. reflexivity.
  - apply executeWithRetry_endpoint.
  - reflexivity.
  - apply executeWithRetry_endpoint.
Qed.

(** ** The contract of [executeWithRetry] *)

(** A response after which the loop goes round again: an empty payload,
    or an error that is not a 404. *)
Definition retriable (r : response) : bool :=
  match r with
  | Ok result => nullish result
  | Fail status => negb (status_is status 404)
  end.

(** The error that a retriable response leaves in [lastError]. *)
Definition error_of (r : response) : error :=
  match r with
  | Ok _ => EmptyResponse
  | Fail status => ApiError status
  end.

(** A first request, then [j] retries, each after its sleep. *)
Definition attempts (cfg : retry_config) (url : string) (first j : nat) : list event :=
  Request url ::
  flat_map (fun k => [Sleep (retry_delay cfg k); Request url]) (List.seq (S first) j).

Lemma attempts_step (cfg : retry_config) (url : string) (trace : list event) (k d : nat) :
  ((trace ++ [Request url]) ++ [Sleep (retry_delay cfg (S k))]) ++ attempts cfg url (S k) d =
  trace ++ attempts cfg url k (S d).
Proof. unfold attempts. cbn [List.seq flat_map]. rewrite <- !app_assoc. reflexivity. Qed.

(** The loop from retry count [k] on, when the responses [k .. k+d-1] are
    retriable and the response [k+d] is not. *)
Lemma retry_loop_settles (d : nat) :
  forall (fuel : nat) (svc : t) (call : api_call) (cacheKey : option string)
         (clock : nat -> Z) (k : nat) (e : error) (trace : list event),
    let url := getApiUrl svc +:+ path call in
    (d < fuel)%nat -> (k + d <= maxRetries (retryConfig svc))%nat ->
    (forall i, (k <= i < k + d)%nat -> retriable (respond call url i) = true) ->
    retriable (respond call url (k + d)%nat) = false ->
    retry_loop fuel svc call cacheKey clock k e trace =
      match respond call url (k + d)%nat with
      | Ok result =>
          (Returned result,
           update_cache (incrementRequestCount svc) cacheKey result (clock (k + d)%nat),
           trace ++ attempts (retryConfig svc) url k d)
      | Fail status =>
          (Thrown (ApiError status), svc, trace ++ attempts (retryConfig svc) url k d)
      end.
Proof.
  induction d as [|d IH]; intros fuel svc call cacheKey clock k e trace url Hfuel Hmax Hretry Hfinal.
  - destruct fuel as [|fuel]; [lia|]. rewrite Nat.add_0_r in *. cbn [retry_loop]. fold url.
    unfold retriable in Hfinal.
    destruct (respond call url k) as [result|status].
    + rewrite Hfinal. reflexivity.
    + apply negb_false_iff in Hfinal. rewrite Hfinal. reflexivity.
  - destruct fuel as [|fuel]; [lia|]. cbn [retry_loop]. fold url.
    assert (Hk : retriable (respond call url k) = true) by (apply Hretry; lia).
    assert (Hlt : Nat.ltb (maxRetries (retryConfig svc)) (S k) = false)
      by (apply Nat.ltb_ge; lia).
    assert (Hnext : forall e',
              retry_loop fuel svc call cacheKey clock (S k) e'
                ((trace ++ [Request url]) ++ [Sleep (retry_delay (retryConfig svc) (S k))]) =
              match respond call url (k + S d)%nat with
              | Ok result =>
                  (Returned result,
                   update_cache (incrementRequestCount svc) cacheKey result (clock (k + S d)%nat),
                   trace ++ attempts (retryConfig svc) url k (S d))
              | Fail status =>
                  (Thrown (ApiError status), svc,
                   trace ++ attempts (retryConfig svc) url k (S d))
              end).
    { intros e'. replace (k + S d)%nat with (S k + d)%nat by lia.
      rewrite (IH fuel svc call cacheKey clock (S k) e'); fold url; try lia.
      - rewrite attempts_step. reflexivity.
      - intros i Hi. apply Hretry. lia.
      - replace (S k + d)%nat with (k + S d)%nat by lia. exact Hfinal. }
    unfold retriable in Hk.
    destruct (respond call url k) as [result|status].
    + rewrite Hk, Hlt. cbn [status_is]. apply Hnext.
    + apply negb_true_iff in Hk. rewrite Hk, Hlt. apply Hnext.
Qed.

(** The loop from retry count [k] on, when every response up to the
    last permitted attempt is retriable. *)
Lemma retry_loop_exhausted (d : nat) :
  forall (fuel : nat) (svc : t) (call : api_call) (cacheKey : option string)
         (clock : nat -> Z) (k : nat) (e : error) (trace : list event),
    let url := getApiUrl svc +:+ path call in
    (d < fuel)%nat -> (k + d = maxRetries (retryConfig svc))%nat ->
    (forall i, (k <= i <= k + d)%nat -> retriable (respond call url i) = true) ->
    retry_loop fuel svc call cacheKey clock k e trace =
      (Thrown (error_of (respond call url (k + d)%nat)), svc,
       trace ++ attempts (retryConfig svc) url k d).
Proof.
  induction d as [|d IH]; intros fuel svc call cacheKey clock k e trace url Hfuel Hmax Hretry.
  - destruct fuel as [|fuel]; [lia|]. rewrite Nat.add_0_r in *. cbn [retry_loop]. fold url.
    assert (Hk : retriable (respond call url k) = true) by (apply Hretry; lia).
    assert (Hlt : Nat.ltb (maxRetries (retryConfig svc)) (S k) = true)
      by (apply Nat.ltb_lt; lia).
    unfold retriable in Hk. unfold error_of.
    destruct (respond call url k) as [result|status].
    + rewrite Hk, Hlt. reflexivity.
    + apply negb_true_iff in Hk. rewrite Hk, Hlt. reflexivity.
  - destruct fuel as [|fuel]; [lia|]. cbn [retry_loop]. fold url.
    assert (Hk : retriable (respond call url k) = true) by (apply Hretry; lia).
    assert (Hlt : Nat.ltb (maxRetries (retryConfig svc)) (S k) = false)
      by (apply Nat.ltb_ge; lia).
    assert (Hnext : forall e',
              retry_loop fuel svc call cacheKey clock (S k) e'
                ((trace ++ [Request url]) ++ [Sleep (retry_delay (retryConfig svc) (S k))]) =
              (Thrown (error_of (respond call url (k + S d)%nat)), svc,
               trace ++ attempts (retryConfig svc) url k (S d))).
    { intros e'. replace (k + S d)%nat with (S k + d)%nat by lia.
      rewrite (IH fuel svc call cacheKey clock (S k) e'); fold url; try lia.
      - rewrite attempts_step. reflexivity.
      - intros i Hi. apply Hretry. lia. }
    unfold retriable in Hk.
    destruct (respond call url k) as [result|status].
    + rewrite Hk, Hlt. cbn [status_is]. apply Hnext.
    + apply negb_true_iff in Hk. rewrite Hk, Hlt. apply Hnext.
Qed.

Lemma requests_attempts (cfg : retry_config) (url : string) (first j : nat) :
  requests (attempts cfg url first j) = repeat url (S j).
Proof.
  unfold attempts, requests. cbn [flat_map app repeat]. f_equal.
  revert first. induction j as [|j IH]; intros first; [reflexivity|].
  cbn [List.seq flat_map app repeat]. now rewrite IH.
Qed.

Lemma sleeps_attempts (cfg : retry_config) (url : string) (first j : nat) :
  sleeps (attempts cfg url first j) = map (retry_delay cfg) (List.seq (S first) j).
Proof.
  unfold attempts, sleeps. cbn [flat_map app].
  revert first. induction j as [|j IH]; intros first; [reflexivity|].
  cbn [List.seq flat_map app map]. now rewrite IH.
Qed.

(** X1.  [executeWithRetry] stops at the first response that is a
    payload or a 404.  If that is attempt [j] (counted from 0, with
    [j <= maxRetries]), the call has sent [j + 1] requests to one URL and
    slept [baseDelay * backoffFactor ^ (k - 1)] before retry [k], for
    [k = 1 .. j]; a payload is returned, stored in the cache entry with
    the clock reading and counted once against the rate limit; a 404 is
    thrown with the service unchanged. *)
Theorem executeWithRetry_settles (svc : t) (call : api_call) (cacheKey : option string)
    (clock : nat -> Z) (j : nat) :
  let url := getApiUrl svc +:+ path call in
  (j <= maxRetries (retryConfig svc))%nat ->
  (forall i, (i < j)%nat -> retriable (respond call url i) = true) ->
  retriable (respond call url j) = false ->
  executeWithRetry svc call cacheKey clock =
    match respond call url j with
    | Ok result =>
        (Returned result,
         update_cache (incrementRequestCount svc) cacheKey result (clock j),
         attempts (retryConfig svc) url 0 j)
    | Fail status => (Thrown (ApiError status), svc, attempts (retryConfig svc) url 0 j)
    end.
Proof.
  intros url Hj Hretry Hfinal. unfold executeWithRetry.
  apply (retry_loop_settles j (S (maxRetries (retryConfig svc))) svc call cacheKey clock
           0 NoError []); try lia.
  - intros i Hi. apply Hretry. lia.
  - exact Hfinal.
Qed.

(** A network that answers two requests with status 500 and the third
    one with a payload, and one that always answers 500. *)
Definition third_time_lucky (url : string) (n : nat) : response :=
  match n with
  | 0%nat | 1%nat => Fail (Some 500)
  | _ => Ok (JsArr [JsObj [("id", JsStr "bitcoin")]])
  end.

Definition always_down (url : string) (n : nat) : response := Fail (Some 500).

Lemma executeWithRetry_settles_witness :
  executeWithRetry (create 0) {| path := "/coins/markets"; respond := third_time_lucky |}
    (Some "marketData") (fun _ => 7) =
  (Returned (JsArr [JsObj [("id", JsStr "bitcoin")]]),
   update_cache (incrementRequestCount (create 0)) (Some "marketData")
     (JsArr [JsObj [("id", JsStr "bitcoin")]]) 7,
   attempts (retryConfig (create 0)) "https://api.coingecko.com/api/v3/coins/markets" 0 2).
Proof.
  apply (executeWithRetry_settles (create 0)
           {| path := "/coins/markets"; respond := third_time_lucky |}
           (Some "marketData") (fun _ => 7) 2).
  - simpl. lia.
  - intros [|[|i]] Hi; [reflexivity|reflexivity|lia].
  - reflexivity.
Defined.

(** X2.  When every response up to attempt [maxRetries] is an empty
    payload or an error other than 404, [executeWithRetry] sends exactly
    [maxRetries + 1] requests, sleeps [maxRetries] times on the backoff
    schedule, and throws the error of the last attempt; the service (cache,
    request counter, provider index) is left as it was. *)
Theorem executeWithRetry_exhausted (svc : t) (call : api_call) (cacheKey : option string)
    (clock : nat -> Z) :
  let url := getApiUrl svc +:+ path call in
  let n := maxRetries (retryConfig svc) in
  (forall i, (i <= n)%nat -> retriable (respond call url i) = true) ->
  executeWithRetry svc call cacheKey clock =
    (Thrown (error_of (respond call url n)), svc, attempts (retryConfig svc) url 0 n) /\
  length (requests (attempts (retryConfig svc) url 0 n)) = S n /\
  sleeps (attempts (retryConfig svc) url 0 n) =
    map (fun k => (baseDelay (retryConfig svc) *
                   backoffFactor (retryConfig svc) ^ (Z.of_nat k - 1))%Q) (List.seq 1 n).
Proof.
  intros url n Hretry. split; [|split].
  - unfold executeWithRetry.
    apply (retry_loop_exhausted n (S n) svc call cacheKey clock 0 NoError []); try lia.
    intros i Hi. apply Hretry. lia.
  - rewrite requests_attempts. apply repeat_length.
  - apply sleeps_attempts.
Qed.

Lemma executeWithRetry_exhausted_witness :
  executeWithRetry (create 0) {| path := "/coins/markets"; respond := always_down |}
    (Some "marketData") (fun _ => 7) =
  (Thrown (ApiError (Some 500)), create 0,
   attempts (retryConfig (create 0)) "https://api.coingecko.com/api/v3/coins/markets" 0 5).
Proof.
  apply (executeWithRetry_exhausted (create 0)
           {| path := "/coins/markets"; respond := always_down |}
           (Some "marketData") (fun _ => 7)).
  intros i Hi. reflexivity.
Defined.

(** How a run of the loop leaves the service: after a payload, with the
    cache entry written and one request counted; after an error, as it
    was.  The loop itself never parks a call. *)
Lemma retry_loop_state (fuel : nat) :
  forall (svc : t) (call : api_call) (cacheKey : option string) (clock : nat -> Z)
         (k : nat) (e : error) (trace : list event),
    match retry_loop fuel svc call cacheKey clock k e trace with
    | (Returned v, svc', trace') =>
        (exists j, svc' = update_cache (incrementRequestCount svc) cacheKey v (clock j)) /\
        nullish v = false /\ trace' <> []
    | (Thrown _, svc', _) => svc' = svc
    | (Pending, _, _) => False
    end.
Proof.
  induction fuel as [|fuel IH]; intros svc call cacheKey clock k e trace; [reflexivity|].
  cbn [retry_loop].
  assert (Hcaught : forall e' status,
            match (if status_is status 404
                   then (Thrown e', svc, trace ++ [Request (getApiUrl svc +:+ path call)])
                   else if Nat.ltb (maxRetries (retryConfig svc)) (S k)
                   then (Thrown e', svc, trace ++ [Request (getApiUrl svc +:+ path call)])
                   else retry_loop fuel svc call cacheKey clock (S k) e'
                          ((trace ++ [Request (getApiUrl svc +:+ path call)]) ++
                           [Sleep (retry_delay (retryConfig svc) (S k))])) with
            | (Returned v, svc', trace') =>
                (exists j, svc' = update_cache (incrementRequestCount svc) cacheKey v (clock j)) /\
                nullish v = false /\ trace' <> []
            | (Thrown _, svc', _) => svc' = svc
            | (Pending, _, _) => False
            end).
  { intros e' status. destruct (status_is status 404); [reflexivity|].
    destruct (Nat.ltb _ _); [reflexivity|]. apply IH. }
  destruct (respond call (getApiUrl svc +:+ path call) k) as [result|status].
  - destruct (nullish result) eqn:Hn; [apply (Hcaught EmptyResponse None)|].
    split; [now exists k|]. split; [exact Hn|]. now destruct trace.
  - apply (Hcaught (ApiError status) status).
Qed.

Lemma update_cache_rateLimiter (svc : t) (cacheKey : option string) (result : js) (now : Z) :
  rateLimiter (update_cache svc cacheKey result now) = rateLimiter svc.
Proof.
  unfold update_cache. destruct cacheKey as [k|]; [|reflexivity].
  destruct (negb (k =? "")%string); [|reflexivity].
  destruct (cache svc !! k); reflexivity.
Qed.

(** X3.  No call of the effective [executeApiCall] fails over, whatever
    the cache holds and whatever the network answers (429 and 403
    included): the provider index and the URL of [getApiUrl] are the same
    after the call as before, and every request of the call went to that
    URL followed by the path of the call. *)
Theorem executeApiCall_never_fails_over (svc : t) (call : api_call)
    (cacheKey : option string) (now : Z) (clock : nat -> Z) :
  let r := executeApiCall svc call cacheKey now clock in
  currentProxyIndex (snd (fst r)) = currentProxyIndex svc /\
  getApiUrl (snd (fst r)) = getApiUrl svc /\
  Forall (fun url => url = getApiUrl svc +:+ path call) (requests (snd r)).
Proof.
  assert (Hgo : let r := if canMakeRequest svc then executeWithRetry svc call cacheKey clock
                          else (Pending, enqueue svc call cacheKey, []) in
                currentProxyIndex (snd (fst r)) = currentProxyIndex svc /\
                getApiUrl (snd (fst r)) = getApiUrl svc /\
                Forall (fun url => url = getApiUrl svc +:+ path call) (requests (snd r))).
  { destruct (canMakeRequest svc).
    - destruct (retry_loop_endpoint (S (maxRetries (retryConfig svc))) svc call cacheKey clock
                  0 NoError []) as (H1 & H2 & H3).
      unfold executeWithRetry. cbn zeta in *. split; [exact H2|]. split.
      + unfold getApiUrl. now rewrite H1, H2.
      + apply H3. constructor.
    - repeat split; constructor. }
  unfold executeApiCall.
  destruct (cache_read svc cacheKey) as [c|].
  - destruct (fresh c now); [repeat split; constructor|exact Hgo].
  - destruct (inherited (property_key cacheKey)); [exact Hgo|repeat split; constructor].
Qed.

(** X4.  A payload fetched under a cache key is served from the cache
    afterwards: if a call of [executeApiCall] under a key of the cache
    went to the network and returned a truthy payload, then every later
    call under that key, made while the stored clock reading is younger
    than the entry's time to live, returns the same payload without any
    request and without changing the service. *)
Theorem executeApiCall_cache_round_trip (svc svc' : t) (call : api_call) (k : string)
    (c : cache_entry) (now : Z) (clock : nat -> Z) (v : js) (trace : list event)
    (later : Z) :
  cache svc !! k = Some c ->
  k <> "" ->
  executeApiCall svc call (Some k) now clock = (Returned v, svc', trace) ->
  trace <> [] ->
  truthy v = true ->
  (forall n, clock n <> 0 /\ later - clock n < ce_ttl c) ->
  forall call' clock',
    executeApiCall svc' call' (Some k) later clock' = (Returned v, svc', []).
Proof.
  intros Hc Hk Hcall Htrace Hv Hclock call' clock'.
  unfold executeApiCall, cache_read in Hcall. cbn [property_key] in Hcall. rewrite Hc in Hcall.
  destruct (fresh c now); [injection Hcall as _ _ <-; contradiction|].
  destruct (canMakeRequest svc); [|discriminate].
  unfold executeWithRetry in Hcall.
  pose proof (retry_loop_state (S (maxRetries (retryConfig svc))) svc call (Some k) clock
                0 NoError []) as Hst.
  rewrite Hcall in Hst. destruct Hst as ((j & ->) & _ & _).
  destruct (Hclock j) as [Hj0 Hjttl].
  assert (Hentry : cache (update_cache (incrementRequestCount svc) (Some k) v (clock j)) !! k =
                   Some {| ce_data := v; ce_timestamp := Some (clock j); ce_ttl := ce_ttl c |}).
  { unfold update_cache. destruct (String.eqb_spec k ""); [contradiction|].
    cbn [negb incrementRequestCount with_rateLimiter cache]. rewrite Hc.
    cbn [cache with_cache]. apply lookup_insert_eq. }
  unfold executeApiCall, cache_read. cbn [property_key]. rewrite Hentry.
  unfold fresh. cbn [ce_data ce_timestamp ce_ttl]. rewrite Hv.
  destruct (Z.eqb_spec (clock j) 0); [contradiction|].
  destruct (Z.ltb_spec (later - clock j) (ce_ttl c)); [reflexivity|lia].
Qed.

Lemma executeApiCall_cache_round_trip_witness :
  executeApiCall
    (update_cache (incrementRequestCount (create 0)) (Some "marketData")
       (JsArr [JsObj [("id", JsStr "bitcoin")]]) 7)
    {| path := "/coins/markets"; respond := always_down |} (Some "marketData") 50000
    (fun _ => 0) =
  (Returned (JsArr [JsObj [("id", JsStr "bitcoin")]]),
   update_cache (incrementRequestCount (create 0)) (Some "marketData")
     (JsArr [JsObj [("id", JsStr "bitcoin")]]) 7,
   []).
Proof.
  apply (executeApiCall_cache_round_trip (create 0) _
           {| path := "/coins/markets"; respond := third_time_lucky |} "marketData"
           {| ce_data := JsNull; ce_timestamp := None; ce_ttl := 60000 |}
           10 (fun _ => 7) (JsArr [JsObj [("id", JsStr "bitcoin")]])
           (attempts (retryConfig (create 0))
              "https://api.coingecko.com/api/v3/coins/markets" 0 2)
           50000).
  - reflexivity.
  - discriminate.
  - reflexivity.
  - discriminate.
  - reflexivity.
  - intros n. cbn. split; lia.
Defined.

(** X5.  The request counter of the rate limiter counts payloads, not
    requests: a call of [executeApiCall] under a key of the cache adds
    one to [requestCount] when it returns a payload fetched from the
    network, however many attempts that took, and nothing in every other
    case (cache hit, error after all retries, parked call).  Requests are
    sent only while [canMakeRequest()] holds and the cache entry is not
    fresh. *)
Theorem executeApiCall_request_accounting (svc : t) (call : api_call)
    (cacheKey : option string) (c : cache_entry) (now : Z) (clock : nat -> Z) :
  cache_read svc cacheKey = Some c ->
  let r := executeApiCall svc call cacheKey now clock in
  requestCount (rateLimiter (snd (fst r))) =
    requestCount (rateLimiter svc) +
    match fst (fst r), snd r with
    | Returned _, _ :: _ => 1
    | _, _ => 0
    end /\
  (snd r <> [] -> canMakeRequest svc = true /\ fresh c now = false).
Proof.
  intros Hc. unfold executeApiCall. rewrite Hc.
  destruct (fresh c now); [split; [cbn; lia|intros []; reflexivity]|].
  destruct (canMakeRequest svc); [|split; [cbn; lia|intros []; reflexivity]].
  unfold executeWithRetry.
  pose proof (retry_loop_state (S (maxRetries (retryConfig svc))) svc call cacheKey clock
                0 NoError []) as Hst.
  destruct (retry_loop _ svc call cacheKey clock 0 NoError []) as [[o svc'] tr].
  cbn [fst snd]. split; [|auto].
  destruct o as [v|e|]; [|subst; destruct tr; lia|contradiction].
  destruct Hst as ((j & ->) & _ & Htr). rewrite update_cache_rateLimiter.
  destruct tr; [contradiction|]. reflexivity.
Qed.

Lemma executeApiCall_request_accounting_witness :
  requestCount
    (rateLimiter
       (snd (fst (executeApiCall (create 0)
                    {| path := "/coins/markets"; respond := third_time_lucky |}
                    (Some "marketData") 10 (fun _ => 7))))) = 1.
Proof.
  apply (executeApiCall_request_accounting (create 0)
           {| path := "/coins/markets"; respond := third_time_lucky |}
           (Some "marketData")
           {| ce_data := JsNull; ce_timestamp := None; ce_ttl := 60000 |}
           10 (fun _ => 7)).
  reflexivity.
Defined.

(** The promise of the call is not rejected. *)
Definition not_thrown (r : outcome * t * list event) : Prop :=
  match fst (fst r) with
  | Thrown _ => False
  | _ => True
  end.

(** What the loop throws is an [Error] object: the loop of
    [executeWithRetry] does not end without a [throw] of what a request
    made it catch, so [lastError] is never thrown as the [null] it
    starts as. *)
Lemma retry_loop_error (fuel : nat) :
  forall (svc : t) (call : api_call) (cacheKey : option string) (clock : nat -> Z)
         (k : nat) (e : error) (trace : list event),
    is_error_object e = true \/ (k <= maxRetries (retryConfig svc) < k + fuel)%nat ->
    match fst (fst (retry_loop fuel svc call cacheKey clock k e trace)) with
    | Thrown e' => is_error_object e' = true
    | _ => True
    end.
Proof.
  induction fuel as [|fuel IH]; intros svc call cacheKey clock k e trace H.
  - cbn. destruct H as [H|H]; [exact H|lia].
  - cbn [retry_loop].
    assert (Hcaught : forall e' status,
              is_error_object e' = true ->
              match fst (fst (if status_is status 404
                     then (Thrown e', svc, trace ++ [Request (getApiUrl svc +:+ path call)])
                     else if Nat.ltb (maxRetries (retryConfig svc)) (S k)
                     then (Thrown e', svc, trace ++ [Request (getApiUrl svc +:+ path call)])
                     else retry_loop fuel svc call cacheKey clock (S k) e'
                            ((trace ++ [Request (getApiUrl svc +:+ path call)]) ++
                             [Sleep (retry_delay (retryConfig svc) (S k))]))) with
              | Thrown e'' => is_error_object e'' = true
              | _ => True
              end).
    { intros e' status He'. destruct (status_is status 404); [exact He'|].
      destruct (Nat.ltb _ _); [exact He'|]. apply IH. now left. }
    destruct (respond call (getApiUrl svc +:+ path call) k) as [result|status].
    + destruct (nullish result); [now apply (Hcaught EmptyResponse None)|exact I].
    + now apply (Hcaught (ApiError status) status).
Qed.

Lemma executeApiCall_error (svc : t) (call : api_call) (cacheKey : option string)
    (now : Z) (clock : nat -> Z) :
  match fst (fst (executeApiCall svc call cacheKey now clock)) with
  | Thrown e => is_error_object e = true
  | _ => True
  end.
Proof.
  assert (Hgo : match fst (fst (if canMakeRequest svc
                                then executeWithRetry svc call cacheKey clock
                                else (Pending, enqueue svc call cacheKey, []))) with
                | Thrown e => is_error_object e = true
                | _ => True
                end).
  { destruct (canMakeRequest svc); [|exact I].
    apply retry_loop_error. right. lia. }
  unfold executeApiCall. destruct (cache_read svc cacheKey) as [c|].
  - destruct (fresh c now); [exact I|exact Hgo].
  - destruct (inherited (property_key cacheKey)); [exact Hgo|reflexivity].
Qed.

(** X6.  The three periodic fetch methods and the listener for
    ['error'].  When a listener for ['error'] is registered and every
    error response of the provider has a body (its [data] is neither
    [null] nor [undefined]), [fetchMarketData], [fetchHistoricalData] and
    [fetchDetailedData] do not reject, whatever the state of the service
    and the answers of the network: they return a value (fresh or cached
    data, or [null]) or stay pending on a queued call.  When no listener is
    registered, each of the three [catch] branches rejects instead of
    answering the cached data: [emit('error', ...)] throws, and in
    [fetchMarketData] the message of the error may throw before that. *)
Theorem fetch_methods_never_throw (net : string -> nat -> response)
    (to_string : js -> string) (error_data : Z -> js) (svc : t) (coinId : string)
    (days : Z) (now0 now finished : Z) (clock : nat -> Z) :
  (forall status, nullish (error_data status) = false) ->
  not_thrown (fetchMarketData net true error_data svc now clock) /\
  not_thrown (fetchHistoricalData net true svc coinId days now finished clock) /\
  not_thrown (fetchDetailedData net to_string true error_data svc now0 now finished clock) /\
  (forall e trace,
     market_fallback false error_data svc e trace =
       (Thrown (if message_throws error_data e then TypeError else Unhandled), svc, trace)) /\
  (forall trace,
     chart_fallback false svc coinId days trace = (Thrown Unhandled, svc, trace)) /\
  (forall trace, detailed_fallback false svc trace = (Thrown Unhandled, svc, trace)).
Proof.
  intros Hbody.
  assert (Hmessage : forall e, is_error_object e = true -> message_throws error_data e = false).
  { intros [[status|]| | | | |] He; try reflexivity; [apply Hbody|discriminate He]. }
  assert (Hmarket : forall s n, not_thrown (fetchMarketData net true error_data s n clock)).
  { intros s n. unfold fetchMarketData, not_thrown.
    pose proof (executeApiCall_error s (market_call net) (Some "marketData") n clock) as He.
    destruct (executeApiCall s (market_call net) (Some "marketData") n clock)
      as [[[v|e|] s'] tr]; cbn [fst] in He.
    - destruct (truthy v); [exact I|]. unfold market_fallback. exact I.
    - unfold market_fallback. rewrite (Hmessage e He). exact I.
    - exact I. }
  assert (Hdetails : forall s tr,
            not_thrown (fetch_details net to_string true s tr now finished clock)).
  { intros s tr. unfold fetch_details, not_thrown.
    destruct (ce_data (entry s "marketData")); try exact I.
    destruct (ids (firstn 10 items)) as [topCoins|]; [|exact I].
    destruct (detail_loop net to_string now clock topCoins (s, [], tr))
      as [[[s' arr] tr']|s' tr'|s' tr']; exact I. }
  split; [apply Hmarket|]. split; [|split; [|split; [|split]]].
  - unfold fetchHistoricalData, not_thrown.
    match goal with |- context [if ?b then _ else _] => destruct b end; [exact I|].
    match goal with |- context [executeApiCall ?s ?c None now clock] =>
      destruct (executeApiCall s c None now clock) as [[[v|e|] s'] tr] end;
      [|exact I|exact I].
    match goal with |- context [if ?b then _ else _] => destruct b end; exact I.
  - unfold fetchDetailedData.
    destruct (negb (truthy (ce_data (entry svc "marketData"))) ||
              length_is_zero (ce_data (entry svc "marketData"))); [|apply Hdetails].
    pose proof (Hmarket svc now0) as Hm. unfold not_thrown in Hm.
    destruct (fetchMarketData net true error_data svc now0 clock) as [[[v|e|] s'] tr];
      cbn [fst] in Hm.
    + destruct (truthy (ce_data (entry s' "marketData"))); [apply Hdetails|exact I].
    + contradiction.
    + exact I.
  - intros e trace. unfold market_fallback.
    destruct (message_throws error_data e); reflexivity.
  - intros trace. reflexivity.
  - intros trace. reflexivity.
Qed.

Lemma fetch_methods_never_throw_witness :
  not_thrown (fetchMarketData always_down true (fun _ => JsObj []) (create 0) 0 (fun _ => 0)) /\
  market_fallback false (fun _ => JsObj []) (create 0) (ApiError (Some 500)) [] =
    (Thrown Unhandled, create 0, []).
Proof.
  destruct (fetch_methods_never_throw always_down (fun _ => "") (fun _ => JsObj [])
              (create 0) "bitcoin" 7 0 0 0 (fun _ => 0)) as (H1 & _ & _ & H4 & _).
  - intros status. reflexivity.
  - split; [exact H1|]. exact (H4 (ApiError (Some 500)) []).
Defined.

(** X7.  Provider rotation.  [switchToNextProxy] keeps the index inside
    the list of three providers and three switches come back to the
    start; with an empty base URL every switch changes the URL of
    [getApiUrl]; with a base URL configured, as the constructor does, no
    number of switches changes it. *)
Theorem switchToNextProxy_rotation (svc : t) :
  (currentProxyIndex (switchToNextProxy svc) < 3)%nat /\
  ((currentProxyIndex svc < 3)%nat ->
   currentProxyIndex (switchToNextProxy (switchToNextProxy (switchToNextProxy svc))) =
     currentProxyIndex svc) /\
  (baseUrl svc = "" -> (currentProxyIndex svc < 3)%nat ->
   getApiUrl (switchToNextProxy svc) <> getApiUrl svc) /\
  (baseUrl svc <> "" ->
   forall n, getApiUrl (Nat.iter n switchToNextProxy svc) = getApiUrl svc).
Proof.
  split; [|split; [|split]].
  - unfold switchToNextProxy. cbn [currentProxyIndex API_PROXIES length].
    apply Nat.mod_upper_bound. discriminate.
  - intros H. unfold switchToNextProxy. cbn [currentProxyIndex API_PROXIES length].
    destruct (currentProxyIndex svc) as [|[|[|i]]]; [reflexivity|reflexivity|reflexivity|lia].
  - intros Hb Hi. unfold getApiUrl, switchToNextProxy. cbn [baseUrl currentProxyIndex].
    rewrite Hb. cbn [String.eqb negb API_PROXIES length].
    destruct (currentProxyIndex svc) as [|[|[|i]]]; [discriminate|discriminate|discriminate|lia].
  - intros Hb n. induction n as [|n IH]; [reflexivity|].
    cbn [Nat.iter]. rewrite <- IH. apply getApiUrl_ignores_proxy.
    clear IH. induction n as [|n IHn]; [exact Hb|exact IHn].
Qed.

End CoinGecko.

(* ===================================================================== *)
(** * Forecast ensemble (services/pricePrediction.js) *)
(* ===================================================================== *)

Module PricePrediction.

Local Open Scope Q_scope.

Definition Qlt_bool (a b : Q) : bool := negb (Qle_bool b a).

(** [Math.max(0, x)]. *)
Definition max0 (x : Q) : Q := if Qle_bool 0 x then x else 0.

Definition of_nat (n : nat) : Q := inject_Z (Z.of_nat n).

(** [arr.reduce((sum, v) => sum + v, 0)]. *)
Definition sum (l : list Q) : Q := fold_left Qplus l 0.

(** ** [class LinearRegression] *)

Module LinearRegression.

Record t : Type := {
  alpha : Q;
  beta : Q;
  trained : bool
}.

Definition create : t := {| alpha := 0; beta := 0; trained := false |}.

(** The four running sums of the loop of [train]. *)
Record sums : Type := {
  sumX : Q;
  sumY : Q;
  sumXY : Q;
  sumX2 : Q
}.

Definition accumulate (s : sums) (xy : Q * Q) : sums :=
  {| sumX := sumX s + fst xy;
     sumY := sumY s + snd xy;
     sumXY := sumXY s + fst xy * snd xy;
     sumX2 := sumX2 s + fst xy * fst xy |}.

(** [train(x, y)]; [None] is one of its two errors, which leave the
    model as it was. *)
Definition train (m : t) (x y : list Q) : option t :=
  if negb (Nat.eqb (length x) (length y)) || Nat.eqb (length x) 0 then None
  else
    let n := of_nat (length x) in
    let s := fold_left accumulate (combine x y)
                       {| sumX := 0; sumY := 0; sumXY := 0; sumX2 := 0 |} in
    let denominator := n * sumX2 s - sumX s * sumX s in
    if Qeq_bool denominator 0 then None
    else
      let beta' := (n * sumXY s - sumX s * sumY s) / denominator in
      Some {| alpha := (sumY s - beta' * sumX s) / n; beta := beta'; trained := true |}.

(** [predict(x)] on an array; [None] is the error of an untrained model. *)
Definition predict (m : t) (x : list Q) : option (list Q) :=
  if negb (trained m) then None
  else Some (map (fun xi => alpha m + beta m * xi) x).

End LinearRegression.

(** ** [class ExponentialSmoothing] *)

Module ExponentialSmoothing.

Record t : Type := {
  alpha : Q;
  beta : Q;
  level : option Q;
  trend : option Q
}.

Definition create : t := {| alpha := 0.3; beta := 0.1; level := None; trend := None |}.

(** The sum of the differences of neighbours, [data[i] - data[i-1]]. *)
Fixpoint sum_of_changes (prev : Q) (rest : list Q) (acc : Q) : Q :=
  match rest with
  | [] => acc
  | x :: rest' => sum_of_changes x rest' (acc + (x - prev))
  end.

(** [initialize(data)]: the initial level and trend. *)
Definition initialize (data : list Q) : option (Q * Q) :=
  match data with
  | first :: rest =>
      if Nat.ltb (length data) 2 then None
      else Some (first, sum_of_changes first rest 0 / of_nat (length data - 1))
  | [] => None
  end.

(** One round of the loop of [fit]. *)
Definition update (a b : Q) (lt : Q * Q) (x : Q) : Q * Q :=
  let oldLevel := fst lt in
  let level' := a * x + (1 - a) * (oldLevel + snd lt) in
  (level', b * (level' - oldLevel) + (1 - b) * snd lt).

(** [fit(data)]; [None] is its error, which leaves the model as it was. *)
Definition fit (m : t) (data : list Q) : option t :=
  if Nat.ltb (length data) 2 then None
  else
    match initialize data with
    | Some lt0 =>
        let lt := fold_left (update (alpha m) (beta m)) (tl data) lt0 in
        Some {| alpha := alpha m; beta := beta m;
                level := Some (fst lt); trend := Some (snd lt) |}
    | None => None
    end.

(** [forecast(steps)]. *)
Definition forecast (m : t) (steps : nat) : option (list Q) :=
  match level m, trend m with
  | Some l, Some tr => Some (map (fun i => max0 (l + of_nat i * tr)) (seq 1 steps))
  | _, _ => None
  end.

End ExponentialSmoothing.

(** ** [class AutoRegression] *)

Module AutoRegression.

Record t : Type := {
  order : nat;
  coefficients : list Q;
  intercept : Q;
  normalization : option (Q * Q)
}.

Definition create : t :=
  {| order := 3; coefficients := []; intercept := 0; normalization := None |}.

(** Reads of arrays of numbers inside their bounds. *)
Definition at_ (l : list Q) (i : nat) : Q := nth i l 0.
Definition get (A : list (list Q)) (r c : nat) : Q := nth c (nth r A []) 0.
Definition set (A : list (list Q)) (r c : nat) (v : Q) : list (list Q) :=
  <[ r := <[ c := v ]> (nth r A []) ]> A.

(** [createLagMatrix(data)]: the rows [data[i-1], ..., data[i-order]] and
    the targets [data[i]], for [i] from [order]. *)
Definition createLagMatrix (ord : nat) (data : list Q) : list (list Q) * list Q :=
  let idx := seq ord (length data - ord) in
  (map (fun i => map (fun j => at_ data (i - j)) (seq 1 ord)) idx,
   map (fun i => at_ data i) idx).

(** [X^T X], by the triple loop. *)
Definition XTX (X1 : list (list Q)) (p : nat) : list (list Q) :=
  map (fun i =>
         map (fun j => fold_left (fun acc row => acc + at_ row i * at_ row j) X1 0)
             (seq 0 p))
      (seq 0 p).

(** [X^T y]. *)
Definition XTy (X1 : list (list Q)) (y : list Q) (p : nat) : list Q :=
  map (fun i => fold_left (fun acc ry => acc + at_ (fst ry) i * snd ry) (combine X1 y) 0)
      (seq 0 p).

Definition lambda : Q := 1e-6.

(** [XTX[i][i] += lambda]. *)
Definition regularized (A : list (list Q)) (p : nat) : list (list Q) :=
  fold_left (fun A i => set A i i (get A i i + lambda)) (seq 0 p) A.

(** [[XTX | XTy]]. *)
Definition augmented (A : list (list Q)) (b : list Q) : list (list Q) :=
  map (fun rb => fst rb ++ [snd rb]) (combine A b).

(** The row of the largest entry of column [i] at or below the diagonal. *)
Definition pivot_row (A : list (list Q)) (p i : nat) : nat :=
  fold_left
    (fun maxRow j => if Qlt_bool (Qabs (get A maxRow i)) (Qabs (get A j i)) then j else maxRow)
    (seq (S i) (p - S i)) i.

Definition swap_rows (A : list (list Q)) (i maxRow : nat) : list (list Q) :=
  if Nat.eqb maxRow i then A
  else <[ maxRow := nth i A [] ]> (<[ i := nth maxRow A [] ]> A).

(** [if (Math.abs(pivot) < 1e-10) augmentedMatrix[i][i] += 1e-5]. *)
Definition nudge_pivot (A : list (list Q)) (i : nat) : list (list Q) :=
  if Qlt_bool (Qabs (get A i i)) 1e-10 then set A i i (get A i i + 1e-5) else A.

(** [for (j = i; j <= p; j++) augmentedMatrix[i][j] /= augmentedMatrix[i][i]]:
    the divisor is read anew in every round. *)
Definition normalize_row (A : list (list Q)) (p i : nat) : list (list Q) :=
  fold_left (fun A j => set A i j (get A i j / get A i i)) (seq i (S p - i)) A.

(** The elimination of column [i] from the other rows. *)
Definition eliminate (A : list (list Q)) (p i : nat) : list (list Q) :=
  fold_left
    (fun A j =>
       if Nat.eqb j i then A
       else
         let factor := get A j i in
         fold_left (fun A k => set A j k (get A j k - factor * get A i k))
                   (seq i (S p - i)) A)
    (seq 0 p) A.

Definition gauss_step (p : nat) (A : list (list Q)) (i : nat) : list (list Q) :=
  eliminate (normalize_row (nudge_pivot (swap_rows A i (pivot_row A p i)) i) p i) p i.

(** [ordinaryLeastSquares(X, y)]: the intercept and the coefficients.
    With no rows, reading [X_with_intercept[0].length] throws, and so
    does [X[0].length] in the handler, after it has reset the intercept:
    that is [None]. *)
Definition ordinaryLeastSquares (X : list (list Q)) (y : list Q) : option (Q * list Q) :=
  match X with
  | [] => None
  | row0 :: _ =>
      let X1 := map (fun row => 1 :: row) X in
      let p := S (length row0) in
      let A := augmented (regularized (XTX X1 p) p) (XTy X1 y p) in
      let solution := map (fun row => at_ row p) (fold_left (gauss_step p) (seq 0 p) A) in
      Some (at_ solution 0, tl solution)
  end.

(** The order used by [fit]. *)
Definition fit_order (ord : nat) (data : list Q) : nat :=
  if Nat.leb (length data) ord then Nat.max 1 (length data / 3) else ord.

(** [std > 1e-10 ? std : 1]. *)
Definition scale_factor (std : Q) : Q :=
  if Qlt_bool 1e-10 std then std else 1.

(** The rest of [fit] once the mean and the scale are known: the model
    after the call, and whether it returned ([true]) or threw. *)
Definition fit_scaled (m : t) (ord : nat) (data : list Q) (mean scaleFactor : Q)
  : t * bool :=
  let normalizedData := map (fun value => (value - mean) / scaleFactor) data in
  let '(X, y) := createLagMatrix ord normalizedData in
  match ordinaryLeastSquares X y with
  | Some (b0, coefs) =>
      ({| order := ord; coefficients := coefs; intercept := b0;
          normalization := Some (mean, scaleFactor) |}, true)
  | None =>
      ({| order := ord; coefficients := coefficients m; intercept := 0;
          normalization := normalization m |}, false)
  end.

Section Sqrt.

(** [Math.sqrt]. *)
Variable sqrt : Q -> Q.

(** [fit(data)]. *)
Definition fit (m : t) (data : list Q) : t * bool :=
  let ord := fit_order (order m) data in
  let mean := sum data / of_nat (length data) in
  let std :=
    sqrt (sum (map (fun value => (value - mean) ^ 2) data) / of_nat (length data)) in
  fit_scaled m ord data mean (scale_factor std).

End Sqrt.

(** [arr.slice(-n)]. *)
Definition slice_last (n : nat) (l : list Q) : list Q :=
  if Nat.eqb n 0 then l else skipn (length l - n) l.

(** The loop of [forecast]. *)
Fixpoint forecast_loop (m : t) (steps : nat) (lastValues : list Q) : list Q :=
  match steps with
  | O => []
  | S steps' =>
      let prediction :=
        fold_left (fun acc j => acc + at_ (coefficients m) j * at_ lastValues j)
                  (seq 0 (order m)) (intercept m) in
      let rescaled :=
        match normalization m with
        | Some (mean, std) => prediction * std + mean
        | None => prediction
        end in
      max0 rescaled :: forecast_loop m steps' (prediction :: removelast lastValues)
  end.

(** [forecast(history, steps)]. *)
Definition forecast (m : t) (history : list Q) (steps : nat) : option (list Q) :=
  if Nat.eqb (length (coefficients m)) 0 then None
  else if Nat.ltb (length history) (order m) then None
  else
    let normalizedHistory :=
      match normalization m with
      | Some (mean, std) => map (fun value => (value - mean) / std) history
      | None => history
      end in
    Some (forecast_loop m steps (rev (slice_last (order m) normalizedHistory))).

End AutoRegression.

(** ** [class ModelEnsemble] *)

Module ModelEnsemble.

Record weights : Type := {
  w_linearRegression : Q;
  w_exponentialSmoothing : Q;
  w_autoRegression : Q
}.

Record t : Type := {
  linearRegression : LinearRegression.t;
  exponentialSmoothing : ExponentialSmoothing.t;
  autoRegression : AutoRegression.t;
  w : weights
}.

Definition create : t :=
  {| linearRegression := LinearRegression.create;
     exponentialSmoothing := ExponentialSmoothing.create;
     autoRegression := AutoRegression.create;
     w := {| w_linearRegression := 0.3;
             w_exponentialSmoothing := 0.3;
             w_autoRegression := 0.4 |} |}.

Definition weight_sum (x : weights) : Q :=
  w_linearRegression x + w_exponentialSmoothing x + w_autoRegression x.

(** The three handlers that move the weight of a failed predictor to the
    two others.  Here the weights are rationals and the additions exact;
    [EnsembleWeights] below has the same handlers over binary64. *)
Definition drop_linearRegression (x : weights) : weights :=
  {| w_linearRegression := 0;
     w_exponentialSmoothing := w_exponentialSmoothing x + w_linearRegression x / 2;
     w_autoRegression := w_autoRegression x + w_linearRegression x / 2 |}.

Definition drop_exponentialSmoothing (x : weights) : weights :=
  {| w_linearRegression := w_linearRegression x + w_exponentialSmoothing x / 2;
     w_exponentialSmoothing := 0;
     w_autoRegression := w_autoRegression x + w_exponentialSmoothing x / 2 |}.

Definition drop_autoRegression (x : weights) : weights :=
  {| w_linearRegression := w_linearRegression x + w_autoRegression x / 2;
     w_exponentialSmoothing := w_exponentialSmoothing x + w_autoRegression x / 2;
     w_autoRegression := 0 |}.

Section Sqrt.

Variable sqrt : Q -> Q.

(** [trainAll(data)]; [None] is the error on fewer than 10 values. *)
Definition trainAll (e : t) (data : list Q) : option t :=
  if Nat.ltb (length data) 10 then None
  else
    let x := map of_nat (seq 0 (length data)) in
    let lr :=
      match LinearRegression.train (linearRegression e) x data with
      | Some m => m
      | None =>
          {| LinearRegression.alpha := AutoRegression.at_ data 0;
             LinearRegression.beta :=
               (AutoRegression.at_ data (length data - 1) - AutoRegression.at_ data 0)
               / of_nat (length data);
             LinearRegression.trained := true |}
      end in
    let '(es, w1) :=
      match ExponentialSmoothing.fit (exponentialSmoothing e) data with
      | Some m => (m, w e)
      | None => (exponentialSmoothing e, drop_exponentialSmoothing (w e))
      end in
    let '(ar, ok) := AutoRegression.fit sqrt (autoRegression e) data in
    let w2 := if ok then w1 else drop_autoRegression w1 in
    Some {| linearRegression := lr; exponentialSmoothing := es;
            autoRegression := ar; w := w2 |}.

End Sqrt.

(** The predictions of the three models with the weights after the
    handlers of [forecast] have run. *)
Definition predictions (e : t) (history : list Q) (steps : nat)
  : list Q * list Q * list Q * weights :=
  let lastX := (of_nat (length history) - 1)%Q in
  let forecastX := map (fun i => lastX + of_nat i + 1) (seq 0 steps) in
  let '(linearPredictions, w1) :=
    match LinearRegression.predict (linearRegression e) forecastX with
    | Some l => (l, w e)
    | None => ([], drop_linearRegression (w e))
    end in
  let '(exponentialPredictions, w2) :=
    match ExponentialSmoothing.forecast (exponentialSmoothing e) steps with
    | Some l => (l, w1)
    | None => ([], drop_exponentialSmoothing w1)
    end in
  let '(autoPredictions, w3) :=
    match AutoRegression.forecast (autoRegression e) history steps with
    | Some l => (l, w2)
    | None => ([], drop_autoRegression w2)
    end in
  (linearPredictions, exponentialPredictions, autoPredictions, w3).

(** The normalisation of the weights when their sum is off by more than
    [0.001]. *)
Definition normalize (x : weights) : weights :=
  let sumWeights := weight_sum x in
  if Qlt_bool 0.001 (Qabs (sumWeights - 1)) then
    {| w_linearRegression := w_linearRegression x / sumWeights;
       w_exponentialSmoothing := w_exponentialSmoothing x / sumWeights;
       w_autoRegression := w_autoRegression x / sumWeights |}
  else x.

(** One model's share in the weighted sum at step [i]. *)
Definition add_share (weight : Q) (preds : list Q) (i : nat) (acc : Q * Q) : Q * Q :=
  if Qlt_bool 0 weight && Nat.ltb i (length preds)
  then (fst acc + weight * AutoRegression.at_ preds i, snd acc + weight)
  else acc.

(** The combined prediction of step [i].  Here the quotient is a quotient
    of rationals; [EnsembleWeights.regression_share] below has it over
    binary64, for a step at which only the regression has a prediction. *)
Definition combine_at (x : weights) (lp ep ap history : list Q) (i : nat) : Q :=
  let acc := add_share (w_autoRegression x) ap i
               (add_share (w_exponentialSmoothing x) ep i
                  (add_share (w_linearRegression x) lp i (0, 0))) in
  max0 (if Qlt_bool 0 (snd acc) then fst acc / snd acc
        else List.last history 0).

(** [forecast(history, steps)]: the predictions, and the ensemble with
    the weights as the call leaves them. *)
Definition forecast (e : t) (history : list Q) (steps : nat) : list Q * t :=
  let '(lp, ep, ap, w3) := predictions e history steps in
  if Qlt_bool (weight_sum w3) 0.001 then
    let lastValues := AutoRegression.slice_last 5 history in
    (map (fun _ => sum lastValues / of_nat (length lastValues)) (seq 0 steps),
     {| linearRegression := linearRegression e;
        exponentialSmoothing := exponentialSmoothing e;
        autoRegression := autoRegression e; w := w3 |})
  else
    let w4 := normalize w3 in
    (map (combine_at w4 lp ep ap history) (seq 0 steps),
     {| linearRegression := linearRegression e;
        exponentialSmoothing := exponentialSmoothing e;
        autoRegression := autoRegression e; w := w4 |}).

End ModelEnsemble.

Import ModelEnsemble.

(** ** The weights of the ensemble *)

Lemma Qlt_bool_false (a b : Q) : b <= a -> Qlt_bool a b = false.
Proof. intros H. unfold Qlt_bool. apply negb_false_iff. now apply Qle_bool_iff. Qed.

Lemma Qlt_bool_true (a b : Q) : a < b -> Qlt_bool a b = true.
Proof.
  intros H. unfold Qlt_bool. apply negb_true_iff.
  destruct (Qle_bool b a) eqn:E; [|reflexivity].
  apply Qle_bool_iff in E. exfalso. apply (Qlt_not_le _ _ H E).
Qed.

Lemma drop_linearRegression_sum (x : weights) :
  weight_sum (drop_linearRegression x) == weight_sum x.
Proof. unfold weight_sum, drop_linearRegression. simpl. field. Qed.

Lemma drop_exponentialSmoothing_sum (x : weights) :
  weight_sum (drop_exponentialSmoothing x) == weight_sum x.
Proof. unfold weight_sum, drop_exponentialSmoothing. simpl. field. Qed.

Lemma drop_autoRegression_sum (x : weights) :
  weight_sum (drop_autoRegression x) == weight_sum x.
Proof. unfold weight_sum, drop_autoRegression. simpl. field. Qed.

(** Training keeps the sum of the weights. *)
Lemma trainAll_sum (sqrt : Q -> Q) (e e' : t) (data : list Q) :
  trainAll sqrt e data = Some e' -> weight_sum (w e') == weight_sum (w e).
Proof.
  unfold trainAll. destruct (Nat.ltb (length data) 10); [discriminate|].
  destruct (ExponentialSmoothing.fit (exponentialSmoothing e) data) as [es|];
    destruct (AutoRegression.fit sqrt (autoRegression e) data) as [ar [|]];
    intros [= <-]; cbn [w];
    rewrite ?drop_autoRegression_sum, ?drop_exponentialSmoothing_sum; reflexivity.
Qed.

(** So do the handlers of [forecast]. *)
Lemma predictions_sum (e : t) (history : list Q) (steps : nat) :
  weight_sum (snd (predictions e history steps)) == weight_sum (w e).
Proof.
  unfold predictions.
  destruct (LinearRegression.predict _ _);
    destruct (ExponentialSmoothing.forecast _ _);
    destruct (AutoRegression.forecast _ _ _); cbn [snd];
    rewrite ?drop_autoRegression_sum, ?drop_exponentialSmoothing_sum,
            ?drop_linearRegression_sum; reflexivity.
Qed.

Lemma normalize_unit (x : weights) : weight_sum x == 1 -> normalize x = x.
Proof.
  intros H. unfold normalize.
  rewrite Qlt_bool_false; [reflexivity|].
  assert (E : weight_sum x - 1 == 0) by (rewrite H; ring).
  rewrite E. discriminate.
Qed.

Lemma forecast_weights (e : t) (history : list Q) (steps : nat) :
  weight_sum (w e) == 1 ->
  w (snd (forecast e history steps)) = snd (predictions e history steps).
Proof.
  intros H. unfold forecast.
  pose proof (predictions_sum e history steps) as Hs.
  destruct (predictions e history steps) as [[[lp ep] ap] w3]. cbn [snd] in *.
  rewrite Qlt_bool_false.
  - cbn [snd w]. apply normalize_unit. now rewrite Hs.
  - rewrite Hs, H. discriminate.
Qed.

(** In exact arithmetic the weights of a new ensemble sum to 1;
    [trainAll] and [forecast] keep the sum at 1 whatever the data and
    whichever of the training and prediction steps fail, since each failure
    handler moves the weight of the failed predictor to the two others,
    half each.  When all three predictions fail (the forecast of an
    untrained ensemble) the weights end as 0.6125, 0.3875 and 0.  The
    weights of the program are binary64 numbers: see [EnsembleWeights]
    below. *)
Lemma weight_sum_exact (sqrt : Q -> Q) (data history : list Q) (steps : nat) :
  weight_sum (w create) == 1 /\
  (forall e e', weight_sum (w e) == 1 -> trainAll sqrt e data = Some e' ->
                weight_sum (w e') == 1) /\
  (forall e, weight_sum (w e) == 1 ->
             weight_sum (w (snd (forecast e history steps))) == 1) /\
  (forall e', trainAll sqrt create data = Some e' ->
              weight_sum (w (snd (forecast e' history steps))) == 1) /\
  (fst (predictions create history steps) = ([], [], []) /\
   w_linearRegression (w (snd (forecast create history steps))) == 0.6125 /\
   w_exponentialSmoothing (w (snd (forecast create history steps))) == 0.3875 /\
   w_autoRegression (w (snd (forecast create history steps))) == 0 /\
   weight_sum (w (snd (forecast create history steps))) == 1).
Proof.
  assert (H0 : weight_sum (w create) == 1) by reflexivity.
  assert (Hf : forall e, weight_sum (w e) == 1 ->
                         weight_sum (w (snd (forecast e history steps))) == 1).
  { intros e He. rewrite (forecast_weights e history steps He).
    now rewrite predictions_sum. }
  split; [exact H0|]. split; [|split; [exact Hf|split]].
  - intros e e' He Ht. now rewrite (trainAll_sum sqrt e e' data Ht).
  - intros e' Ht. apply Hf. now rewrite (trainAll_sum sqrt create e' data Ht).
  - rewrite (forecast_weights create history steps H0).
    split; [reflexivity|]. split; [reflexivity|]. split; [reflexivity|].
    split; [reflexivity|]. now rewrite predictions_sum.
Qed.

(** ** A flat history *)

Lemma Qle_bool_wd (a x y : Q) : x == y -> Qle_bool a x = Qle_bool a y.
Proof.
  intros H. destruct (Qle_bool a y) eqn:E.
  - apply Qle_bool_iff. apply Qle_bool_iff in E. now rewrite H.
  - destruct (Qle_bool a x) eqn:E'; [|reflexivity].
    apply Qle_bool_iff in E'. rewrite H in E'. apply Qle_bool_iff in E'. congruence.
Qed.

Lemma max0_wd (x y : Q) : x == y -> max0 x == max0 y.
Proof.
  intros H. unfold max0. rewrite (Qle_bool_wd 0 x y H).
  destruct (Qle_bool 0 y); [exact H|reflexivity].
Qed.

Lemma max0_100 (x : Q) : x == 100 -> max0 x == 100.
Proof. intros H. rewrite (max0_wd x 100 H). reflexivity. Qed.

(** Every entry of an array of zeros reads as zero. *)
Lemma at_zero (l : list Q) (i : nat) :
  Forall (fun c => c == 0) l -> AutoRegression.at_ l i == 0.
Proof.
  intros H. unfold AutoRegression.at_. revert i.
  induction H as [|c l Hc Hl IH]; intros [|i]; simpl; try reflexivity; auto.
Qed.

(** An in-range entry of an array of equal values. *)
Lemma at_const (c : Q) (l : list Q) (i : nat) :
  Forall (fun p => p == c) l -> (i < length l)%nat -> AutoRegression.at_ l i == c.
Proof.
  intros H. unfold AutoRegression.at_. revert i.
  induction H as [|x l Hx Hl IH]; intros [|i]; simpl; intros Hi; try lia; auto.
  apply IH. lia.
Qed.

(** With a zero slope the line predicts its intercept. *)
Lemma linear_flat (m : LinearRegression.t) (xs l : list Q) :
  LinearRegression.beta m == 0 ->
  LinearRegression.predict m xs = Some l ->
  length l = length xs /\ Forall (fun p => p == LinearRegression.alpha m) l.
Proof.
  intros Hb. unfold LinearRegression.predict.
  destruct (negb (LinearRegression.trained m)); [discriminate|].
  intros [= <-]. split; [apply length_map|].
  apply List.Forall_forall. intros p Hp. apply in_map_iff in Hp as (x & <- & _).
  rewrite Hb. ring.
Qed.

(** With a zero trend the smoothing predicts its level. *)
Lemma smoothing_flat (m : ExponentialSmoothing.t) (steps : nat) (lv tr : Q) :
  ExponentialSmoothing.level m = Some lv -> ExponentialSmoothing.trend m = Some tr ->
  tr == 0 ->
  exists l, ExponentialSmoothing.forecast m steps = Some l /\
            length l = steps /\ Forall (fun p => p == max0 lv) l.
Proof.
  intros Hl Ht H0. unfold ExponentialSmoothing.forecast. rewrite Hl, Ht.
  eexists. split; [reflexivity|]. split; [now rewrite length_map, length_seq|].
  apply List.Forall_forall. intros p Hp. apply in_map_iff in Hp as (i & <- & _).
  apply max0_wd. rewrite H0. ring.
Qed.

Lemma zero_dot (coefs lastValues : list Q) (js : list nat) (acc : Q) :
  Forall (fun c => c == 0) coefs ->
  fold_left (fun acc j => acc + AutoRegression.at_ coefs j * AutoRegression.at_ lastValues j)
            js acc == acc.
Proof.
  intros H. revert acc. induction js as [|j js IH]; intros acc; simpl; [reflexivity|].
  rewrite IH. rewrite (at_zero coefs j H). ring.
Qed.

(** With zero coefficients and a zero intercept the autoregression
    predicts the mean of its normalisation. *)
Lemma autoregression_loop_flat (m : AutoRegression.t) (mean std : Q)
    (steps : nat) (lastValues : list Q) :
  AutoRegression.intercept m == 0 ->
  Forall (fun c => c == 0) (AutoRegression.coefficients m) ->
  AutoRegression.normalization m = Some (mean, std) ->
  length (AutoRegression.forecast_loop m steps lastValues) = steps /\
  Forall (fun p => p == max0 mean) (AutoRegression.forecast_loop m steps lastValues).
Proof.
  intros Hi Hc Hn. revert lastValues.
  induction steps as [|steps IH]; intros lastValues; simpl; [split; [reflexivity|constructor]|].
  rewrite Hn. destruct (IH (fold_left
      (fun acc j => acc + AutoRegression.at_ (AutoRegression.coefficients m) j *
                          AutoRegression.at_ lastValues j)
      (seq 0 (AutoRegression.order m)) (AutoRegression.intercept m)
      :: removelast lastValues)) as [IH1 IH2].
  split; [now rewrite IH1|].
  constructor; [|exact IH2].
  apply max0_wd. rewrite zero_dot by exact Hc. rewrite Hi. ring.
Qed.

(** The weighted mean of three equal predictions, with the default
    weights. *)
Lemma combine_flat (x : weights) (lp ep ap history : list Q) (i : nat) (c : Q) :
  x = w create ->
  Forall (fun p => p == c) lp -> Forall (fun p => p == c) ep ->
  Forall (fun p => p == c) ap ->
  (i < length lp)%nat -> (i < length ep)%nat -> (i < length ap)%nat ->
  combine_at x lp ep ap history i == max0 c.
Proof.
  intros -> Hl He Ha Il Ie Ia. unfold combine_at, add_share.
  apply Nat.ltb_lt in Il as Il', Ie as Ie', Ia as Ia'.
  cbn [w create w_linearRegression w_exponentialSmoothing w_autoRegression].
  rewrite Il', Ie', Ia'.
  change (Qlt_bool 0 0.3) with true. change (Qlt_bool 0 0.4) with true.
  cbn [andb fst snd].
  change (Qlt_bool 0 (0 + 0.3 + 0.3 + 0.4)) with true. cbv iota.
  apply max0_wd.
  rewrite (at_const c lp i Hl Il), (at_const c ep i He Ie), (at_const c ap i Ha Ia).
  field.
Qed.

(** The 30 identical values of the example. *)
Definition flat : list Q := repeat 100 30.

Lemma scale_factor_zero (sqrt : Q -> Q) (v : Q) :
  (forall q, q == 0 -> sqrt q == 0) -> v == 0 ->
  AutoRegression.scale_factor (sqrt v) = 1.
Proof.
  intros Hs Hv. unfold AutoRegression.scale_factor.
  assert (E : Qlt_bool 1e-10 (sqrt v) = false).
  { unfold Qlt_bool. apply negb_false_iff. apply Qle_bool_iff.
    rewrite (Hs v Hv). discriminate. }
  now rewrite E.
Qed.

Lemma Forall_eq_trans (c d : Q) (l : list Q) :
  c == d -> Forall (fun p => p == c) l -> Forall (fun p => p == d) l.
Proof.
  intros H Hl. apply List.Forall_forall. intros p Hp.
  rewrite <- H. revert p Hp. now apply List.Forall_forall.
Qed.

(** An ensemble with the default weights whose three models all predict
    100 forecasts 100 at every step. *)
Lemma forecast_of_flat_models (e : t) (history : list Q) (steps : nat)
    (lv tr mean std : Q) :
  w e = w create ->
  LinearRegression.trained (linearRegression e) = true ->
  LinearRegression.beta (linearRegression e) == 0 ->
  LinearRegression.alpha (linearRegression e) == 100 ->
  ExponentialSmoothing.level (exponentialSmoothing e) = Some lv -> lv == 100 ->
  ExponentialSmoothing.trend (exponentialSmoothing e) = Some tr -> tr == 0 ->
  AutoRegression.intercept (autoRegression e) == 0 ->
  Forall (fun c => c == 0) (AutoRegression.coefficients (autoRegression e)) ->
  Nat.eqb (length (AutoRegression.coefficients (autoRegression e))) 0 = false ->
  Nat.ltb (length history) (AutoRegression.order (autoRegression e)) = false ->
  AutoRegression.normalization (autoRegression e) = Some (mean, std) -> mean == 100 ->
  (exists ap, AutoRegression.forecast (autoRegression e) history steps = Some ap /\
              length ap = steps /\ Forall (fun p => p == 100) ap) /\
  length (fst (forecast e history steps)) = steps /\
  Forall (fun p => p == 100) (fst (forecast e history steps)) /\
  w (snd (forecast e history steps)) = w create.
Proof.
  intros Hw Htrained Hbeta Halpha Hlevel Hlv Htrend Htr Hint Hcoefs Hlen Hord Hnorm Hmean.
  set (xs := map (fun i => (of_nat (length history) - 1) + of_nat i + 1) (seq 0 steps)).
  assert (Hlp : exists lp, LinearRegression.predict (linearRegression e) xs = Some lp /\
                           length lp = steps /\ Forall (fun p => p == 100) lp).
  { unfold LinearRegression.predict. rewrite Htrained. eexists. split; [reflexivity|].
    destruct (linear_flat (linearRegression e) xs _ Hbeta
                (eq_trans (f_equal (fun b => if negb b then None else _) Htrained) eq_refl))
      as [L1 L2].
    split; [rewrite L1; unfold xs; now rewrite length_map, length_seq|].
    now apply (Forall_eq_trans _ _ _ Halpha). }
  assert (Hep : exists ep, ExponentialSmoothing.forecast (exponentialSmoothing e) steps = Some ep /\
                           length ep = steps /\ Forall (fun p => p == 100) ep).
  { destruct (smoothing_flat (exponentialSmoothing e) steps lv tr Hlevel Htrend Htr)
      as (ep & E1 & E2 & E3).
    exists ep. split; [exact E1|]. split; [exact E2|].
    apply (Forall_eq_trans _ _ _ (max0_100 lv Hlv) E3). }
  assert (Hap : exists ap, AutoRegression.forecast (autoRegression e) history steps = Some ap /\
                           length ap = steps /\ Forall (fun p => p == 100) ap).
  { unfold AutoRegression.forecast. rewrite Hlen, Hord. eexists. split; [reflexivity|].
    destruct (autoregression_loop_flat (autoRegression e) mean std steps
                (rev (AutoRegression.slice_last (AutoRegression.order (autoRegression e))
                        match AutoRegression.normalization (autoRegression e) with
                        | Some (mean0, std0) => map (fun value => (value - mean0) / std0) history
                        | None => history
                        end)) Hint Hcoefs Hnorm) as [A1 A2].
    split; [exact A1|]. apply (Forall_eq_trans _ _ _ (max0_100 mean Hmean) A2). }
  split; [exact Hap|].
  destruct Hlp as (lp & P1 & P2 & P3), Hep as (ep & E1 & E2 & E3),
           Hap as (ap & A1 & A2 & A3).
  unfold forecast, predictions. fold xs. rewrite P1, E1, A1, Hw.
  change (Qlt_bool (weight_sum (w create)) 0.001) with false. cbv iota.
  rewrite (normalize_unit (w create) (reflexivity _)). cbn [fst snd w].
  split; [now rewrite length_map, length_seq|]. split; [|reflexivity].
  apply List.Forall_forall. intros p Hp. apply in_map_iff in Hp as (i & <- & Hi).
  apply in_seq in Hi.
  rewrite (combine_flat (w create) lp ep ap history i 100 eq_refl P3 E3 A3); [reflexivity|lia..].
Qed.

(** *** Smoothing of a constant series *)

Lemma sum_of_changes_constant (c prev acc : Q) (rest : list Q) :
  prev == c -> Forall (fun x => x == c) rest ->
  ExponentialSmoothing.sum_of_changes prev rest acc == acc.
Proof.
  intros Hp Hr. revert prev acc Hp.
  induction Hr as [|x rest Hx Hrest IH]; intros prev acc Hp; simpl; [reflexivity|].
  rewrite (IH x _ Hx). rewrite Hx, Hp. ring.
Qed.

Lemma update_constant (a b c : Q) (lt : Q * Q) (xs : list Q) :
  fst lt == c -> snd lt == 0 -> Forall (fun x => x == c) xs ->
  fst (fold_left (ExponentialSmoothing.update a b) xs lt) == c /\
  snd (fold_left (ExponentialSmoothing.update a b) xs lt) == 0.
Proof.
  intros Hl Ht Hx. revert lt Hl Ht.
  induction Hx as [|x xs Hx Hxs IH]; intros lt Hl Ht; simpl; [split; assumption|].
  apply IH; unfold ExponentialSmoothing.update; cbn [fst snd];
    rewrite Hx, Hl, Ht; ring.
Qed.

(** On a constant series of at least two values the smoothing ends
    with that value as its level and with a zero trend. *)
Lemma smoothing_constant (c : Q) (data : list Q) :
  Forall (fun x => x == c) data -> (2 <= length data)%nat ->
  exists m lv tr,
    ExponentialSmoothing.fit ExponentialSmoothing.create data = Some m /\
    ExponentialSmoothing.level m = Some lv /\ lv == c /\
    ExponentialSmoothing.trend m = Some tr /\ tr == 0.
Proof.
  intros Hd Hlen. unfold ExponentialSmoothing.fit, ExponentialSmoothing.initialize.
  destruct data as [|first rest]; [simpl in Hlen; lia|].
  assert (E : Nat.ltb (length (first :: rest)) 2 = false) by (apply Nat.ltb_ge; lia).
  rewrite !E.
  inversion Hd as [|? ? Hfirst Hrest]; subst.
  eexists _, _, _. split; [reflexivity|]. cbn [ExponentialSmoothing.level
    ExponentialSmoothing.trend tl].
  destruct (update_constant (ExponentialSmoothing.alpha ExponentialSmoothing.create)
              (ExponentialSmoothing.beta ExponentialSmoothing.create) c
              (first, ExponentialSmoothing.sum_of_changes first rest 0 /
                      of_nat (length (first :: rest) - 1)) rest) as [L T].
  - exact Hfirst.
  - cbn [snd]. rewrite (sum_of_changes_constant c first 0 rest Hfirst Hrest).
    unfold Qdiv. ring.
  - exact Hrest.
  - split; [reflexivity|]. split; [exact L|]. split; [reflexivity|exact T].
Qed.

(** *** Least squares with zero targets *)

(** The last column of an augmented matrix, at index [p], is zero. *)
Definition zero_rhs (p : nat) (A : list (list Q)) : Prop :=
  Forall (fun row => AutoRegression.at_ row p == 0) A.

Lemma at_insert (row : list Q) (c p : nat) (v : Q) :
  AutoRegression.at_ (<[ c := v ]> row) p =
    if Nat.eqb c p && Nat.ltb c (length row) then v else AutoRegression.at_ row p.
Proof.
  unfold AutoRegression.at_. revert c p.
  induction row as [|x row IH]; intros c p.
  - cbn [length]. replace (Nat.ltb c 0) with false by (destruct c; reflexivity).
    rewrite andb_false_r. reflexivity.
  - destruct c as [|c], p as [|p]; simpl; try reflexivity. apply IH.
Qed.

Lemma zero_rhs_row (p : nat) (A : list (list Q)) (r : nat) :
  zero_rhs p A -> AutoRegression.at_ (nth r A []) p == 0.
Proof.
  intros H. revert r. induction H as [|row A Hrow HA IH]; intros [|r]; simpl;
    try (destruct p; reflexivity); auto.
Qed.

Lemma zero_rhs_get (p : nat) (A : list (list Q)) (r : nat) :
  zero_rhs p A -> AutoRegression.get A r p == 0.
Proof. intros H. apply (zero_rhs_row p A r H). Qed.

Lemma zero_rhs_set (p : nat) (A : list (list Q)) (r c : nat) (v : Q) :
  zero_rhs p A -> (c <> p \/ v == 0) -> zero_rhs p (AutoRegression.set A r c v).
Proof.
  intros H Hv. unfold AutoRegression.set, zero_rhs. apply Forall_insert; [exact H|].
  rewrite at_insert. destruct (Nat.eqb_spec c p) as [->|Hne]; simpl.
  - destruct (Nat.ltb p (length (nth r A []))).
    + destruct Hv as [Hv|Hv]; [contradiction|exact Hv].
    + apply zero_rhs_row, H.
  - apply zero_rhs_row, H.
Qed.

Lemma zero_rhs_swap (p : nat) (A : list (list Q)) (i m : nat) :
  zero_rhs p A -> zero_rhs p (AutoRegression.swap_rows A i m).
Proof.
  intros H. unfold AutoRegression.swap_rows. destruct (Nat.eqb m i); [exact H|].
  unfold zero_rhs. apply Forall_insert; [apply Forall_insert; [exact H|]|];
    apply zero_rhs_row, H.
Qed.

Lemma zero_rhs_fold_set (p : nat) (ks : list nat) (A : list (list Q))
    (row : nat) (value : list (list Q) -> nat -> Q) :
  (forall B, zero_rhs p B -> value B p == 0) ->
  zero_rhs p A ->
  zero_rhs p (fold_left (fun B k => AutoRegression.set B row k (value B k)) ks A).
Proof.
  intros Hv. revert A. induction ks as [|k ks IH]; intros A H; simpl; [exact H|].
  apply IH. apply zero_rhs_set; [exact H|].
  destruct (Nat.eq_dec k p) as [->|Hne]; [right; now apply Hv|left; exact Hne].
Qed.

Lemma zero_rhs_step (p : nat) (A : list (list Q)) (i : nat) :
  (i < p)%nat -> zero_rhs p A -> zero_rhs p (AutoRegression.gauss_step p A i).
Proof.
  intros Hi H. unfold AutoRegression.gauss_step.
  set (A1 := AutoRegression.swap_rows A i (AutoRegression.pivot_row A p i)).
  assert (H1 : zero_rhs p A1) by now apply zero_rhs_swap.
  assert (H2 : zero_rhs p (AutoRegression.nudge_pivot A1 i)).
  { unfold AutoRegression.nudge_pivot. destruct (Qlt_bool _ _); [|exact H1].
    apply zero_rhs_set; [exact H1|left; lia]. }
  set (A2 := AutoRegression.nudge_pivot A1 i) in *.
  assert (H3 : zero_rhs p (AutoRegression.normalize_row A2 p i)).
  { unfold AutoRegression.normalize_row.
    apply (zero_rhs_fold_set p _ A2 i
             (fun B j => AutoRegression.get B i j / AutoRegression.get B i i)); [|exact H2].
    intros B HB. rewrite (zero_rhs_get p B i HB). unfold Qdiv. ring. }
  set (A3 := AutoRegression.normalize_row A2 p i) in *.
  unfold AutoRegression.eliminate.
  generalize (seq 0 p). intros js. revert H3. generalize A3. clear.
  induction js as [|j js IH]; intros A H; simpl; [exact H|].
  apply IH. destruct (Nat.eqb j i); [exact H|].
  apply (zero_rhs_fold_set p _ A j
           (fun B k => AutoRegression.get B j k -
                       AutoRegression.get A j i * AutoRegression.get B i k)); [|exact H].
  intros B HB. rewrite (zero_rhs_get p B j HB), (zero_rhs_get p B i HB). ring.
Qed.

Lemma zero_rhs_steps (p : nat) (is_ : list nat) (A : list (list Q)) :
  Forall (fun i => (i < p)%nat) is_ -> zero_rhs p A ->
  zero_rhs p (fold_left (AutoRegression.gauss_step p) is_ A).
Proof.
  intros Hi. revert A. induction Hi as [|i is_ Hi His IH]; intros A H; simpl; [exact H|].
  apply IH. now apply zero_rhs_step.
Qed.

Lemma Forall_insert_in {A : Type} (P : A -> Prop) (l : list A) (i : nat) (x : A) :
  Forall P l -> ((i < length l)%nat -> P x) -> Forall P (<[ i := x ]> l).
Proof.
  intros Hl Hx. destruct (Nat.lt_ge_cases i (length l)) as [Hi|Hi].
  - apply Forall_insert; auto.
  - now rewrite list_insert_ge.
Qed.

Lemma nth_in_range {A : Type} (P : A -> Prop) (l : list A) (i : nat) (d : A) :
  Forall P l -> (i < length l)%nat -> P (nth i l d).
Proof.
  intros H. revert i. induction H as [|x l Hx Hl IH]; intros [|i] Hi; simpl in *;
    try lia; auto. apply IH. lia.
Qed.

Lemma set_widths (p : nat) (A : list (list Q)) (r c : nat) (v : Q) :
  Forall (fun row => length row = p) A ->
  Forall (fun row => length row = p) (AutoRegression.set A r c v).
Proof.
  intros H. unfold AutoRegression.set. apply Forall_insert_in; [exact H|].
  intros Hr. rewrite length_insert.
  now apply (nth_in_range (fun row => length row = p) A r []).
Qed.

Lemma regularized_widths (p : nat) (A : list (list Q)) :
  Forall (fun row => length row = p) A ->
  Forall (fun row => length row = p) (AutoRegression.regularized A p).
Proof.
  unfold AutoRegression.regularized. generalize (seq 0 p) at 1. intros is_. revert A.
  induction is_ as [|i is_ IH]; intros A H; simpl; [exact H|].
  apply IH. now apply set_widths.
Qed.

Lemma length_set (A : list (list Q)) (r c : nat) (v : Q) :
  length (AutoRegression.set A r c v) = length A.
Proof. unfold AutoRegression.set. apply length_insert. Qed.

Lemma length_fold_set (ks : list nat) (A : list (list Q)) (row : nat)
    (value : list (list Q) -> nat -> Q) :
  length (fold_left (fun B k => AutoRegression.set B row k (value B k)) ks A) = length A.
Proof.
  revert A. induction ks as [|k ks IH]; intros A; simpl; [reflexivity|].
  rewrite IH. apply length_set.
Qed.

Lemma length_gauss_step (p : nat) (A : list (list Q)) (i : nat) :
  length (AutoRegression.gauss_step p A i) = length A.
Proof.
  unfold AutoRegression.gauss_step, AutoRegression.eliminate.
  set (A3 := AutoRegression.normalize_row _ p i).
  assert (H3 : length A3 = length A).
  { unfold A3, AutoRegression.normalize_row.
    rewrite (length_fold_set _ _ i
               (fun B j => AutoRegression.get B i j / AutoRegression.get B i i)).
    unfold AutoRegression.nudge_pivot.
    destruct (Qlt_bool _ _); rewrite ?length_set; unfold AutoRegression.swap_rows;
      destruct (Nat.eqb _ _); rewrite ?length_insert; reflexivity. }
  rewrite <- H3. generalize (seq 0 p). intros js. generalize A3. clear.
  induction js as [|j js IH]; intros A; simpl; [reflexivity|].
  rewrite IH. destruct (Nat.eqb j i); [reflexivity|].
  apply (length_fold_set _ A j
           (fun B k => AutoRegression.get B j k -
                       AutoRegression.get A j i * AutoRegression.get B i k)).
Qed.

Lemma length_gauss_steps (p : nat) (is_ : list nat) (A : list (list Q)) :
  length (fold_left (AutoRegression.gauss_step p) is_ A) = length A.
Proof.
  revert A. induction is_ as [|i is_ IH]; intros A; simpl; [reflexivity|].
  rewrite IH. apply length_gauss_step.
Qed.

Lemma XTy_zero (X1 : list (list Q)) (y : list Q) (p : nat) :
  Forall (fun t => t == 0) y ->
  Forall (fun b => b == 0) (AutoRegression.XTy X1 y p).
Proof.
  intros Hy. unfold AutoRegression.XTy. apply List.Forall_forall. intros b Hb.
  apply in_map_iff in Hb as (i & <- & _).
  assert (G : forall acc, fold_left (fun acc ry => acc + AutoRegression.at_ (fst ry) i * snd ry)
                            (combine X1 y) acc == acc).
  { revert X1. induction Hy as [|t y Ht Hy IH]; intros X1 acc.
    - destruct X1; reflexivity.
    - destruct X1 as [|row X1]; simpl; [reflexivity|]. rewrite IH, Ht. ring. }
  apply G.
Qed.

Lemma augmented_zero_rhs (p : nat) (A : list (list Q)) (b : list Q) :
  Forall (fun row => length row = p) A -> Forall (fun t => t == 0) b ->
  zero_rhs p (AutoRegression.augmented A b).
Proof.
  intros HA. revert b. unfold AutoRegression.augmented, zero_rhs.
  induction HA as [|row A Hrow HA IH]; intros b Hb; simpl; [constructor|].
  destruct Hb as [|t b Ht Hb]; simpl; constructor; [|now apply IH].
  unfold AutoRegression.at_. rewrite app_nth2 by lia.
  rewrite Hrow, Nat.sub_diag. exact Ht.
Qed.

(** Least squares on targets that are all zero: the intercept and every
    coefficient are zero, one coefficient per lag. *)
Lemma ols_zero_targets (row0 : list Q) (X : list (list Q)) (y : list Q) :
  Forall (fun t => t == 0) y ->
  exists b0 coefs,
    AutoRegression.ordinaryLeastSquares (row0 :: X) y = Some (b0, coefs) /\
    b0 == 0 /\ Forall (fun c => c == 0) coefs /\ length coefs = length row0.
Proof.
  intros Hy. unfold AutoRegression.ordinaryLeastSquares.
  set (p := S (length row0)).
  set (X1 := map (fun row => 1 :: row) (row0 :: X)).
  set (A0 := AutoRegression.augmented
               (AutoRegression.regularized (AutoRegression.XTX X1 p) p)
               (AutoRegression.XTy X1 y p)).
  set (A := fold_left (AutoRegression.gauss_step p) (seq 0 p) A0).
  assert (H0 : zero_rhs p A0).
  { apply augmented_zero_rhs; [|now apply XTy_zero].
    apply regularized_widths. unfold AutoRegression.XTX.
    apply List.Forall_forall. intros row Hrow. apply in_map_iff in Hrow as (i & <- & _).
    now rewrite length_map, length_seq. }
  assert (HA : zero_rhs p A).
  { apply zero_rhs_steps; [|exact H0]. apply List.Forall_forall. intros i Hi.
    apply in_seq in Hi. lia. }
  assert (Hsol : Forall (fun t => t == 0) (map (fun row => AutoRegression.at_ row p) A)).
  { apply List.Forall_forall. intros t Ht. apply in_map_iff in Ht as (row & <- & Hrow).
    revert row Hrow. now apply List.Forall_forall. }
  assert (HlenA : length A = p).
  { unfold A. rewrite length_gauss_steps. unfold A0, AutoRegression.augmented.
    rewrite length_map, length_combine.
    assert (L1 : length (AutoRegression.regularized (AutoRegression.XTX X1 p) p) = p).
    { unfold AutoRegression.regularized.
      assert (G : forall is_ B, length (fold_left
                    (fun A i => AutoRegression.set A i i (AutoRegression.get A i i +
                                                          AutoRegression.lambda)) is_ B)
                  = length B).
      { induction is_ as [|i is_ IH]; intros B; simpl; [reflexivity|].
        rewrite IH. apply length_set. }
      rewrite G. unfold AutoRegression.XTX. now rewrite length_map, length_seq. }
    assert (L2 : length (AutoRegression.XTy X1 y p) = p).
    { unfold AutoRegression.XTy. now rewrite length_map, length_seq. }
    rewrite L1, L2. apply Nat.min_id. }
  eexists _, _. split; [reflexivity|]. split; [now apply at_zero|]. split.
  - destruct (map (fun row => AutoRegression.at_ row p) A) as [|s0 sol]; [constructor|].
    now inversion Hsol.
  - assert (L : length (map (fun row => AutoRegression.at_ row p) A) = p)
      by now rewrite length_map.
    destruct (map (fun row => AutoRegression.at_ row p) A) as [|s0 sol];
      simpl in *; unfold p in L; lia.
Qed.

(** The autoregression fitted to the flat history. *)
Lemma autoregression_flat (sqrt : Q -> Q) :
  (forall q, q == 0 -> sqrt q == 0) ->
  exists m mean,
    AutoRegression.fit sqrt AutoRegression.create flat = (m, true) /\
    AutoRegression.intercept m == 0 /\
    Forall (fun c => c == 0) (AutoRegression.coefficients m) /\
    length (AutoRegression.coefficients m) = 3%nat /\
    AutoRegression.order m = 3%nat /\
    AutoRegression.normalization m = Some (mean, 1) /\ mean == 100.
Proof.
  intros Hs. unfold AutoRegression.fit.
  rewrite (scale_factor_zero sqrt _ Hs) by (vm_compute; reflexivity).
  change (AutoRegression.fit_order (AutoRegression.order AutoRegression.create) flat)
    with 3%nat.
  unfold AutoRegression.fit_scaled.
  set (Xy := AutoRegression.createLagMatrix 3 _).
  vm_compute in Xy. subst Xy. cbv beta iota.
  match goal with
  | |- context [AutoRegression.ordinaryLeastSquares (?row0 :: ?X) ?y] =>
      destruct (ols_zero_targets row0 X y) as (b0 & coefs & Hols & Hb & Hc & Hl);
        [repeat constructor|]
  end.
  rewrite Hols. eexists _, _. split; [reflexivity|].
  cbn [AutoRegression.intercept AutoRegression.coefficients AutoRegression.order
       AutoRegression.normalization].
  split; [exact Hb|]. split; [exact Hc|]. split; [exact Hl|]. split; [reflexivity|].
  split; [reflexivity|]. vm_compute. reflexivity.
Qed.

(** C6.  Let [Math.sqrt] map zero to zero.  On the history of 30 values
    100 training succeeds; the regression has slope 0 and intercept 100;
    the smoothing ends with level 100 and trend 0; the autoregression,
    fitted to the normalised series of zeros with scale 1, has a zero
    intercept and zero coefficients and forecasts 100 at every step after
    denormalisation; and the forecast of the ensemble has the requested
    length and equals 100 at every step, for every horizon. *)
Theorem flat_history_flat_forecast (sqrt : Q -> Q) (steps : nat) :
  (forall q, q == 0 -> sqrt q == 0) ->
  exists e lv tr ap,
    trainAll sqrt create flat = Some e /\
    LinearRegression.beta (linearRegression e) == 0 /\
    LinearRegression.alpha (linearRegression e) == 100 /\
    ExponentialSmoothing.level (exponentialSmoothing e) = Some lv /\ lv == 100 /\
    ExponentialSmoothing.trend (exponentialSmoothing e) = Some tr /\ tr == 0 /\
    AutoRegression.intercept (autoRegression e) == 0 /\
    Forall (fun c => c == 0) (AutoRegression.coefficients (autoRegression e)) /\
    AutoRegression.forecast (autoRegression e) flat steps = Some ap /\
    length ap = steps /\ Forall (fun p => p == 100) ap /\
    length (fst (forecast e flat steps)) = steps /\
    Forall (fun p => p == 100) (fst (forecast e flat steps)).
Proof.
  intros Hs.
  destruct (autoregression_flat sqrt Hs)
    as (ar & mean & Har & Hint & Hcoefs & Hlen & Hord & Hnorm & Hmean).
  destruct (smoothing_constant 100 flat) as (es & lv & tr & Hes & Hlevel & Hlv & Htrend & Htr);
    [repeat constructor|simpl; lia|].
  assert (Hlr : exists lr,
            LinearRegression.train LinearRegression.create
              (map of_nat (seq 0 (length flat))) flat = Some lr /\
            LinearRegression.trained lr = true /\
            LinearRegression.beta lr == 0 /\ LinearRegression.alpha lr == 100).
  { eexists. split; [vm_compute; reflexivity|]. repeat split. }
  destruct Hlr as (lr & Hlr & Htrained & Hbeta & Halpha).
  set (e := {| linearRegression := lr; exponentialSmoothing := es;
               autoRegression := ar; w := w create |}).
  assert (Ht : trainAll sqrt create flat = Some e).
  { unfold trainAll.
    change (Nat.ltb (length flat) 10) with false. cbv iota.
    change (linearRegression create) with LinearRegression.create.
    change (exponentialSmoothing create) with ExponentialSmoothing.create.
    change (autoRegression create) with AutoRegression.create.
    rewrite Hlr, Hes, Har. reflexivity. }
  destruct (forecast_of_flat_models e flat steps lv tr mean 1)
    as ((ap & A1 & A2 & A3) & Hflen & Hfall & _); try assumption; try reflexivity.
  - unfold e. cbn [autoRegression]. now rewrite Hlen.
  - unfold e. cbn [autoRegression]. now rewrite Hord.
  - exists e, lv, tr, ap. repeat (split; [assumption|]). assumption.
Qed.

(** A square root that is exact on quotients of perfect squares. *)
Definition sqrt_floor (q : Q) : Q :=
  inject_Z (Z.sqrt (Qnum q)) / inject_Z (Z.sqrt (Zpos (Qden q))).

Lemma flat_history_flat_forecast_witness :
  exists e lv tr ap,
    trainAll sqrt_floor create flat = Some e /\
    LinearRegression.beta (linearRegression e) == 0 /\
    LinearRegression.alpha (linearRegression e) == 100 /\
    ExponentialSmoothing.level (exponentialSmoothing e) = Some lv /\ lv == 100 /\
    ExponentialSmoothing.trend (exponentialSmoothing e) = Some tr /\ tr == 0 /\
    AutoRegression.intercept (autoRegression e) == 0 /\
    Forall (fun c => c == 0) (AutoRegression.coefficients (autoRegression e)) /\
    AutoRegression.forecast (autoRegression e) flat 7 = Some ap /\
    length ap = 7%nat /\ Forall (fun p => p == 100) ap /\
    length (fst (forecast e flat 7)) = 7%nat /\
    Forall (fun p => p == 100) (fst (forecast e flat 7)).
Proof.
  apply (flat_history_flat_forecast sqrt_floor 7).
  intros q Hq. unfold Qeq in Hq. simpl in Hq.
  assert (E : Qnum q = 0%Z) by lia.
  unfold sqrt_floor. rewrite E. reflexivity.
Defined.

(** ** The range of a forecast *)

Lemma max0_nonneg (x : Q) : 0 <= max0 x.
Proof.
  unfold max0. destruct (Qle_bool 0 x) eqn:E; [now apply Qle_bool_iff|discriminate].
Qed.

Lemma sum_from_nonneg (l : list Q) (acc : Q) :
  Forall (fun p => 0 <= p) l -> 0 <= acc -> 0 <= fold_left Qplus l acc.
Proof.
  intros H. revert acc. induction H as [|x l Hx Hl IH]; intros acc Hacc; simpl;
    [exact Hacc|].
  apply IH. lra.
Qed.

Lemma slice_last_Forall (P : Q -> Prop) (n : nat) (l : list Q) :
  Forall P l -> Forall P (AutoRegression.slice_last n l).
Proof.
  intros H. unfold AutoRegression.slice_last. destruct (Nat.eqb n 0); [exact H|].
  rewrite <- (firstn_skipn (length l - n) l) in H.
  apply Forall_app in H. exact (proj2 H).
Qed.

Lemma quotient_nonneg (a : Q) (n : nat) : 0 <= a -> 0 <= a / of_nat n.
Proof.
  intros Ha. unfold Qdiv. apply Qmult_le_0_compat; [exact Ha|].
  apply Qinv_le_0_compat. unfold of_nat.
  change 0 with (inject_Z 0). rewrite <- Zle_Qle. lia.
Qed.

(** X19.  A forecast is never negative.  For a non-empty history of
    non-negative prices, [forecast] of an ensemble in any state (trained or
    not, whatever its weights) returns exactly [steps] values, none of
    which is negative.  (The history is required to be non-empty because
    the last resort of the code reads its last element.) *)
Theorem forecast_is_a_price_list (e : t) (history : list Q) (steps : nat) :
  history <> [] -> Forall (fun p => 0 <= p) history ->
  length (fst (forecast e history steps)) = steps /\
  Forall (fun p => 0 <= p) (fst (forecast e history steps)).
Proof.
  intros _ Hpos. unfold forecast.
  destruct (predictions e history steps) as [[[lp ep] ap] w3].
  destruct (Qlt_bool (weight_sum w3) 0.001); cbn [fst];
    (split; [now rewrite length_map, length_seq|]);
    apply List.Forall_forall; intros p Hp; apply in_map_iff in Hp as (i & <- & _).
  - apply quotient_nonneg. unfold sum. apply sum_from_nonneg; [|discriminate].
    now apply slice_last_Forall.
  - apply max0_nonneg.
Qed.

Lemma forecast_is_a_price_list_witness :
  length (fst (forecast create [1; 2; 3] 2)) = 2%nat /\
  Forall (fun p => 0 <= p) (fst (forecast create [1; 2; 3] 2)).
Proof.
  apply (forecast_is_a_price_list create [1; 2; 3] 2).
  - discriminate.
  - repeat constructor; discriminate.
Defined.

(** ** The regression line *)

Lemma of_nat_S (n : nat) : of_nat (S n) == of_nat n + 1.
Proof.
  unfold of_nat. rewrite Nat2Z.inj_succ. unfold Z.succ. now rewrite inject_Z_plus.
Qed.

(** The running sums of [train] on points of the line [y = a + b x]. *)
Lemma accumulate_line (a b : Q) (x : list Q) :
  forall s0 : LinearRegression.sums,
    let s := fold_left LinearRegression.accumulate
               (combine x (map (fun xi => a + b * xi) x)) s0 in
    LinearRegression.sumY s ==
      LinearRegression.sumY s0 + a * of_nat (length x) +
      b * (LinearRegression.sumX s - LinearRegression.sumX s0) /\
    LinearRegression.sumXY s ==
      LinearRegression.sumXY s0 +
      a * (LinearRegression.sumX s - LinearRegression.sumX s0) +
      b * (LinearRegression.sumX2 s - LinearRegression.sumX2 s0).
Proof.
  induction x as [|x0 x IH]; intros s0; cbn zeta.
  - cbn [map combine fold_left length]. change (of_nat 0) with 0. split; ring.
  - cbn [map combine fold_left length]. rewrite of_nat_S.
    set (s1 := LinearRegression.accumulate s0 (x0, a + b * x0)).
    destruct (IH s1) as [E1 E2]. cbn zeta in E1, E2.
    set (s := fold_left LinearRegression.accumulate _ s1) in *.
    rewrite E1, E2.
    change (LinearRegression.sumX s1) with (LinearRegression.sumX s0 + x0).
    change (LinearRegression.sumY s1) with (LinearRegression.sumY s0 + (a + b * x0)).
    change (LinearRegression.sumXY s1)
      with (LinearRegression.sumXY s0 + x0 * (a + b * x0)).
    change (LinearRegression.sumX2 s1) with (LinearRegression.sumX2 s0 + x0 * x0).
    split; ring.
Qed.

(** X20.  The regression recovers a line.  When every target lies on
    the line [a + b x] and [train] does not throw, the trained intercept
    is [a] and the trained slope is [b], and [predict] answers the value
    of the line at every point it is asked about. *)
Theorem train_recovers_line (a b : Q) (m m' : LinearRegression.t) (x xs : list Q) :
  LinearRegression.train m x (map (fun xi => a + b * xi) x) = Some m' ->
  LinearRegression.alpha m' == a /\
  LinearRegression.beta m' == b /\
  exists l, LinearRegression.predict m' xs = Some l /\
            Forall2 (fun p xi => p == a + b * xi) l xs.
Proof.
  unfold LinearRegression.train. rewrite length_map, Nat.eqb_refl. cbn [negb orb].
  destruct (Nat.eqb (length x) 0) eqn:Hn; [discriminate|].
  apply Nat.eqb_neq in Hn.
  destruct (accumulate_line a b x
              {| LinearRegression.sumX := 0; LinearRegression.sumY := 0;
                 LinearRegression.sumXY := 0; LinearRegression.sumX2 := 0 |}) as [EY EXY].
  cbn zeta in EY, EXY. cbn [LinearRegression.sumX LinearRegression.sumY
    LinearRegression.sumXY LinearRegression.sumX2] in EY, EXY.
  set (s := fold_left LinearRegression.accumulate _ _) in *.
  set (n := of_nat (length x)) in *.
  destruct (Qeq_bool (n * LinearRegression.sumX2 s -
                      LinearRegression.sumX s * LinearRegression.sumX s) 0) eqn:Hd;
    [discriminate|].
  assert (Hden : ~ n * LinearRegression.sumX2 s -
                   LinearRegression.sumX s * LinearRegression.sumX s == 0).
  { intros H0. apply Qeq_bool_iff in H0. congruence. }
  assert (Hn0 : ~ n == 0).
  { unfold n, of_nat. change 0 with (inject_Z 0). rewrite inject_Z_injective. lia. }
  intros [= <-]. cbn [LinearRegression.alpha LinearRegression.beta].
  assert (Hb : (n * LinearRegression.sumXY s - LinearRegression.sumX s * LinearRegression.sumY s) /
               (n * LinearRegression.sumX2 s -
                LinearRegression.sumX s * LinearRegression.sumX s) == b).
  { rewrite EY, EXY. field. exact Hden. }
  assert (Ha : (LinearRegression.sumY s -
                (n * LinearRegression.sumXY s -
                 LinearRegression.sumX s * LinearRegression.sumY s) /
                (n * LinearRegression.sumX2 s -
                 LinearRegression.sumX s * LinearRegression.sumX s) *
                LinearRegression.sumX s) / n == a).
  { rewrite Hb, EY. field. exact Hn0. }
  split; [exact Ha|]. split; [exact Hb|].
  unfold LinearRegression.predict. cbn [LinearRegression.trained negb
    LinearRegression.alpha LinearRegression.beta].
  eexists. split; [reflexivity|].
  induction xs as [|x0 xs IH]; cbn [map]; constructor; [|exact IH].
  now rewrite Ha, Hb.
Qed.

Lemma train_recovers_line_witness :
  exists m',
    LinearRegression.train LinearRegression.create [0; 1; 2] [1; 3; 5] = Some m' /\
    LinearRegression.alpha m' == 1 /\ LinearRegression.beta m' == 2.
Proof.
  destruct (LinearRegression.train LinearRegression.create [0; 1; 2] [1; 3; 5])
    as [m'|] eqn:E; [|discriminate E].
  exists m'. split; [reflexivity|].
  destruct (train_recovers_line 1 2 LinearRegression.create m' [0; 1; 2] []) as (Ha & Hb & _).
  - rewrite <- E. vm_compute. reflexivity.
  - split; [exact Ha|exact Hb].
Defined.

(** ** The coefficient of determination *)

(** [calculateR2(actual, predicted)]; [None] is the error on arrays of
    different lengths. *)
Definition calculateR2 (actual predicted : list Q) : option Q :=
  if negb (Nat.eqb (length actual) (length predicted)) then None
  else
    let mean := sum actual / of_nat (length actual) in
    let ssTotal := fold_left (fun acc a => acc + (a - mean) ^ 2) actual 0 in
    let ssResidual :=
      fold_left (fun acc ap => acc + (fst ap - snd ap) ^ 2) (combine actual predicted) 0 in
    if Qlt_bool ssTotal 1e-10 then Some 0
    else Some (max0 (1 - ssResidual / ssTotal)).

Lemma sum_of_squares_nonneg {A : Type} (f : A -> Q) (l : list A) (acc : Q) :
  0 <= acc -> 0 <= fold_left (fun acc x => acc + f x ^ 2) l acc.
Proof.
  revert acc. induction l as [|x l IH]; intros acc Hacc; simpl; [exact Hacc|].
  apply IH. assert (0 <= f x * f x) by nra. lra.
Qed.

Lemma sum_of_squares_zero (l : list Q) (acc : Q) :
  fold_left (fun acc ap => acc + (fst ap - snd ap) ^ 2) (combine l l) acc == acc.
Proof.
  revert acc. induction l as [|x l IH]; intros acc; simpl; [reflexivity|].
  rewrite IH. ring.
Qed.

(** The total sum of squares of [calculateR2]: the spread of the actual
    values around their mean. *)
Definition ssTotal (actual : list Q) : Q :=
  fold_left
    (fun acc a => acc + (a - sum actual / of_nat (length actual)) ^ 2) actual 0.

(** X21.  The coefficient of determination, over exact numbers.
    [calculateR2] throws exactly when the two arrays differ in length;
    otherwise its result lies in the closed interval from 0 to 1; it is 0
    whenever the total sum of squares of the actual values is below 1e-10,
    whatever the predictions; and it is 1 whenever that sum is at least
    1e-10 and the predictions are the actual values. *)
Theorem calculateR2_range (actual predicted : list Q) :
  match calculateR2 actual predicted with
  | None => length actual <> length predicted
  | Some r =>
      length actual = length predicted /\ 0 <= r /\ r <= 1 /\
      (ssTotal actual < 1e-10 -> r = 0) /\
      (1e-10 <= ssTotal actual -> predicted = actual -> r == 1)
  end.
Proof.
  unfold calculateR2.
  destruct (Nat.eqb (length actual) (length predicted)) eqn:Hlen; cbn [negb].
  2:{ now apply Nat.eqb_neq. }
  apply Nat.eqb_eq in Hlen. cbn zeta. fold (ssTotal actual).
  destruct (Qlt_bool (ssTotal actual) 1e-10) eqn:Hsmall.
  { split; [exact Hlen|]. split; [discriminate|]. split; [discriminate|].
    split; [reflexivity|]. intros Hle _. exfalso.
    unfold Qlt_bool in Hsmall. apply negb_true_iff in Hsmall.
    apply Qle_bool_iff in Hle. congruence. }
  assert (Htot : 1e-10 <= ssTotal actual).
  { unfold Qlt_bool in Hsmall. apply negb_false_iff in Hsmall.
    now apply Qle_bool_iff in Hsmall. }
  assert (Hpos : 0 < ssTotal actual) by (eapply Qlt_le_trans; [|exact Htot]; reflexivity).
  split; [exact Hlen|]. split; [apply max0_nonneg|]. split; [|split].
  - pose proof (sum_of_squares_nonneg (fun ap : Q * Q => fst ap - snd ap)
                  (combine actual predicted) 0 (Qle_refl 0)) as Hres.
    cbv beta in Hres.
    set (ssResidual := fold_left _ (combine actual predicted) 0) in *.
    assert (Hq : 0 <= ssResidual / ssTotal actual).
    { unfold Qdiv. apply Qmult_le_0_compat; [exact Hres|].
      apply Qinv_le_0_compat. now apply Qlt_le_weak. }
    unfold max0. destruct (Qle_bool 0 (1 - ssResidual / ssTotal actual)); [lra|discriminate].
  - intros Hlt. exfalso. apply (Qlt_not_le _ _ Hlt Htot).
  - intros _ ->. rewrite (max0_wd _ 1); [reflexivity|].
    rewrite (sum_of_squares_zero actual 0). unfold Qdiv. ring.
Qed.

(** ** The three models on the production path *)

Lemma train_trained (m m' : LinearRegression.t) (x y : list Q) :
  LinearRegression.train m x y = Some m' -> LinearRegression.trained m' = true.
Proof.
  unfold LinearRegression.train. destruct (_ || _); [discriminate|].
  destruct (Qeq_bool _ 0); [discriminate|]. now intros [= <-].
Qed.

Lemma fit_levels (m : ExponentialSmoothing.t) (data : list Q) :
  (2 <= length data)%nat ->
  exists es lv tr,
    ExponentialSmoothing.fit m data = Some es /\
    ExponentialSmoothing.level es = Some lv /\ ExponentialSmoothing.trend es = Some tr.
Proof.
  intros Hlen. unfold ExponentialSmoothing.fit, ExponentialSmoothing.initialize.
  destruct data as [|first rest]; [simpl in Hlen; lia|].
  assert (E : Nat.ltb (length (first :: rest)) 2 = false) by (apply Nat.ltb_ge; lia).
  rewrite !E. eexists _, _, _. repeat split.
Qed.

(** Least squares on a matrix with at least one row: one coefficient per
    column. *)
Lemma ols_shape (row0 : list Q) (X : list (list Q)) (y : list Q) :
  exists b0 coefs,
    AutoRegression.ordinaryLeastSquares (row0 :: X) y = Some (b0, coefs) /\
    length coefs = length row0.
Proof.
  unfold AutoRegression.ordinaryLeastSquares.
  set (p := S (length row0)).
  set (X1 := map (fun row => 1 :: row) (row0 :: X)).
  set (A0 := AutoRegression.augmented
               (AutoRegression.regularized (AutoRegression.XTX X1 p) p)
               (AutoRegression.XTy X1 y p)).
  set (A := fold_left (AutoRegression.gauss_step p) (seq 0 p) A0).
  assert (HlenA : length A = p).
  { unfold A. rewrite length_gauss_steps. unfold A0, AutoRegression.augmented.
    rewrite length_map, length_combine.
    assert (L1 : length (AutoRegression.regularized (AutoRegression.XTX X1 p) p) = p).
    { unfold AutoRegression.regularized.
      assert (G : forall is_ B, length (fold_left
                    (fun A i => AutoRegression.set A i i (AutoRegression.get A i i +
                                                          AutoRegression.lambda)) is_ B)
                  = length B).
      { induction is_ as [|i is_ IH]; intros B; simpl; [reflexivity|].
        rewrite IH. apply length_set. }
      rewrite G. unfold AutoRegression.XTX. now rewrite length_map, length_seq. }
    assert (L2 : length (AutoRegression.XTy X1 y p) = p).
    { unfold AutoRegression.XTy. now rewrite length_map, length_seq. }
    rewrite L1, L2. apply Nat.min_id. }
  eexists _, _. split; [reflexivity|].
  assert (L : length (map (fun row => AutoRegression.at_ row p) A) = p)
    by now rewrite length_map.
  destruct (map (fun row => AutoRegression.at_ row p) A) as [|s0 sol];
    simpl in *; unfold p in L; lia.
Qed.

(** The autoregression of a new ensemble fitted to more than three
    values: the fit returns, with three coefficients. *)
Lemma fit_create_shape (sqrt : Q -> Q) (data : list Q) :
  (4 <= length data)%nat ->
  exists ar,
    AutoRegression.fit sqrt AutoRegression.create data = (ar, true) /\
    AutoRegression.order ar = 3%nat /\
    length (AutoRegression.coefficients ar) = 3%nat.
Proof.
  intros Hlen. unfold AutoRegression.fit, AutoRegression.fit_order.
  cbn [AutoRegression.order AutoRegression.create].
  assert (E : Nat.leb (length data) 3 = false) by (apply Nat.leb_gt; lia).
  rewrite E. unfold AutoRegression.fit_scaled, AutoRegression.createLagMatrix.
  rewrite length_map.
  destruct (length data - 3)%nat as [|k] eqn:Hk; [lia|].
  cbn [seq map].
  match goal with
  | |- context [AutoRegression.ordinaryLeastSquares (?row0 :: ?X) ?y] =>
      destruct (ols_shape row0 X y) as (b0 & coefs & Hols & Hl)
  end.
  rewrite Hols. eexists. split; [reflexivity|].
  cbn [AutoRegression.order AutoRegression.coefficients]. split; [reflexivity|].
  rewrite Hl. reflexivity.
Qed.

Lemma forecast_loop_length (m : AutoRegression.t) (steps : nat) (lastValues : list Q) :
  length (AutoRegression.forecast_loop m steps lastValues) = steps.
Proof.
  revert lastValues. induction steps as [|steps IH]; intros lastValues; simpl;
    [reflexivity|]. now rewrite IH.
Qed.

(** X22.  On the production path no failure handler runs.  A new
    ensemble trained on at least 10 values is trained in all three of its
    models and keeps the weights 0.3, 0.3 and 0.4; a forecast from a
    history of at least 3 values then gets [steps] predictions from each of
    the three models and leaves the weights as they are. *)
Theorem trained_ensemble_keeps_weights (sqrt : Q -> Q) (data history : list Q)
    (steps : nat) :
  (10 <= length data)%nat -> (3 <= length history)%nat ->
  exists e lp ep ap,
    trainAll sqrt create data = Some e /\
    w e = w create /\
    predictions e history steps = (lp, ep, ap, w create) /\
    length lp = steps /\ length ep = steps /\ length ap = steps /\
    w (snd (forecast e history steps)) = w create /\
    length (fst (forecast e history steps)) = steps.
Proof.
  intros Hdata Hhist.
  destruct (fit_levels ExponentialSmoothing.create data) as (es & lv & tr & Hes & Hlv & Htr);
    [lia|].
  destruct (fit_create_shape sqrt data) as (ar & Har & Hord & Hcoefs); [lia|].
  assert (Hlr : exists lr,
            match LinearRegression.train LinearRegression.create
                    (map of_nat (seq 0 (length data))) data with
            | Some m => m
            | None =>
                {| LinearRegression.alpha := AutoRegression.at_ data 0;
                   LinearRegression.beta :=
                     (AutoRegression.at_ data (length data - 1) - AutoRegression.at_ data 0)
                     / of_nat (length data);
                   LinearRegression.trained := true |}
            end = lr /\ LinearRegression.trained lr = true).
  { destruct (LinearRegression.train _ _ data) as [m|] eqn:Hm; eexists; (split; [reflexivity|]).
    - exact (train_trained _ _ _ _ Hm).
    - reflexivity. }
  destruct Hlr as (lr & Hlr & Htrained).
  set (e := {| linearRegression := lr; exponentialSmoothing := es;
               autoRegression := ar; w := w create |}).
  assert (Ht : trainAll sqrt create data = Some e).
  { unfold trainAll.
    assert (E : Nat.ltb (length data) 10 = false) by (apply Nat.ltb_ge; lia).
    rewrite E.
    change (linearRegression create) with LinearRegression.create.
    change (exponentialSmoothing create) with ExponentialSmoothing.create.
    change (autoRegression create) with AutoRegression.create.
    rewrite Hlr, Hes, Har. reflexivity. }
  assert (Hp : exists lp ep ap,
            predictions e history steps = (lp, ep, ap, w create) /\
            length lp = steps /\ length ep = steps /\ length ap = steps).
  { unfold predictions, e.
    cbn [linearRegression exponentialSmoothing autoRegression w].
    unfold LinearRegression.predict, ExponentialSmoothing.forecast, AutoRegression.forecast.
    rewrite Htrained, Hlv, Htr, Hcoefs, Hord. cbn [negb Nat.eqb].
    assert (E : Nat.ltb (length history) 3 = false) by (apply Nat.ltb_ge; lia).
    rewrite E. eexists _, _, _. split; [reflexivity|].
    rewrite !length_map, !length_seq, forecast_loop_length. repeat split. }
  destruct Hp as (lp & ep & ap & Hp & L1 & L2 & L3).
  exists e, lp, ep, ap. split; [exact Ht|]. split; [reflexivity|].
  split; [exact Hp|]. split; [exact L1|]. split; [exact L2|]. split; [exact L3|].
  split.
  - rewrite (forecast_weights e history steps (reflexivity _ : weight_sum (w e) == 1)).
    now rewrite Hp.
  - unfold forecast. rewrite Hp.
    destruct (Qlt_bool _ _); cbn [fst]; now rewrite length_map, length_seq.
Qed.

Lemma trained_ensemble_keeps_weights_witness :
  exists e lp ep ap,
    trainAll sqrt_floor create flat = Some e /\
    w e = w create /\
    predictions e flat 7 = (lp, ep, ap, w create) /\
    length lp = 7%nat /\ length ep = 7%nat /\ length ap = 7%nat /\
    w (snd (forecast e flat 7)) = w create /\
    length (fst (forecast e flat 7)) = 7%nat.
Proof.
  apply (trained_ensemble_keeps_weights sqrt_floor flat flat 7); cbn; lia.
Defined.

(** ** An ensemble with the regression alone *)

(** [new ModelEnsemble()] followed by
    [ensemble.models.linearRegression.train(x, prices)]: the ensemble of
    the synthetic, the fallback and the emergency model of
    [createPredictionModel]. *)
Definition linear_only (lr : LinearRegression.t) : t :=
  {| linearRegression := lr;
     exponentialSmoothing := ExponentialSmoothing.create;
     autoRegression := AutoRegression.create;
     w := w create |}.

Lemma at_map_seq (h : nat -> Q) (n i : nat) :
  (i < n)%nat -> AutoRegression.at_ (map h (seq 0 n)) i = h i.
Proof.
  intros Hi. unfold AutoRegression.at_.
  rewrite (nth_indep _ 0 (h 0%nat)) by (now rewrite length_map, length_seq).
  rewrite map_nth, seq_nth by exact Hi. reflexivity.
Qed.

Lemma Forall2_map_in {A : Type} (f g : A -> Q) (l : list A) :
  (forall i, In i l -> f i == g i) -> Forall2 Qeq (map f l) (map g l).
Proof.
  induction l as [|x l IH]; intros H; cbn [map]; constructor.
  - apply H. now left.
  - apply IH. intros i Hi. apply H. now right.
Qed.

(** Only the regression of the ensemble can predict: it is trained, the
    smoothing has no level and the autoregression no coefficients, and the
    weights are non-negative with sum 1. *)
Definition regression_only (e : t) : Prop :=
  LinearRegression.trained (linearRegression e) = true /\
  ExponentialSmoothing.level (exponentialSmoothing e) = None /\
  AutoRegression.coefficients (autoRegression e) = [] /\
  0 <= w_linearRegression (w e) /\
  0 <= w_exponentialSmoothing (w e) /\
  0 <= w_autoRegression (w e) /\
  weight_sum (w e) == 1.

Lemma linear_only_regression_only (lr : LinearRegression.t) :
  LinearRegression.trained lr = true -> regression_only (linear_only lr).
Proof.
  intros H. unfold regression_only, linear_only. cbn [linearRegression
    exponentialSmoothing autoRegression w].
  repeat split; try exact H; try reflexivity; discriminate.
Qed.

(** In exact arithmetic such an ensemble forecasts the regression line:
    the two other predictions throw, their handlers run, and as only the
    regression has predictions, [weightedSum / usedWeightSum] is the value
    of the line at the next index of the history.  The call leaves an
    ensemble of the same kind. *)
Lemma regression_only_forecast (e : t) (history : list Q) (steps : nat) :
  regression_only e ->
  Forall2 Qeq
    (fst (forecast e history steps))
    (map (fun i => max0 (LinearRegression.alpha (linearRegression e) +
                         LinearRegression.beta (linearRegression e) *
                           (of_nat (length history) + of_nat i)))
         (seq 0 steps)) /\
  w (snd (forecast e history steps)) =
    drop_autoRegression (drop_exponentialSmoothing (w e)) /\
  regression_only (snd (forecast e history steps)).
Proof.
  intros (Htrained & Hlevel & Hcoefs & Hlr & Hes & Har & Hsum).
  pose proof (forecast_weights e history steps Hsum) as Hw.
  assert (Hp : predictions e history steps =
               (map (fun xi => LinearRegression.alpha (linearRegression e) +
                               LinearRegression.beta (linearRegression e) * xi)
                    (map (fun i => of_nat (length history) - 1 + of_nat i + 1) (seq 0 steps)),
                [], [], drop_autoRegression (drop_exponentialSmoothing (w e)))).
  { unfold predictions, LinearRegression.predict, ExponentialSmoothing.forecast,
      AutoRegression.forecast.
    rewrite Htrained, Hlevel, Hcoefs. reflexivity. }
  rewrite Hp in Hw. cbn [snd] in Hw.
  set (w3 := drop_autoRegression (drop_exponentialSmoothing (w e))) in *.
  assert (Hsum3 : weight_sum w3 == 1).
  { unfold w3. now rewrite drop_autoRegression_sum, drop_exponentialSmoothing_sum. }
  assert (Hpos : 0 < w_linearRegression w3).
  { unfold w3, drop_autoRegression, drop_exponentialSmoothing.
    cbn [w_linearRegression w_exponentialSmoothing w_autoRegression].
    unfold weight_sum in Hsum.
    assert (E : w_linearRegression (w e) + w_exponentialSmoothing (w e) / 2 +
                (w_autoRegression (w e) + w_exponentialSmoothing (w e) / 2) / 2 ==
                w_linearRegression (w e) + (3 # 4) * w_exponentialSmoothing (w e) +
                (1 # 2) * w_autoRegression (w e)) by field.
    rewrite E. lra. }
  split; [|split; [exact Hw|]].
  - unfold forecast. rewrite Hp.
    rewrite Qlt_bool_false by (rewrite Hsum3; discriminate).
    rewrite (normalize_unit w3 Hsum3). cbn [fst].
    rewrite map_map. apply Forall2_map_in. intros i Hi. apply in_seq in Hi.
    unfold combine_at, add_share.
    rewrite (at_map_seq
               (fun i => LinearRegression.alpha (linearRegression e) +
                         LinearRegression.beta (linearRegression e) *
                           (of_nat (length history) - 1 + of_nat i + 1)) steps i)
      by lia.
    rewrite length_map, length_seq.
    assert (Ei : Nat.ltb i steps = true) by (apply Nat.ltb_lt; lia).
    rewrite Ei. cbn [length]. rewrite !andb_false_r.
    rewrite (Qlt_bool_true 0 (w_linearRegression w3) Hpos). cbn [andb fst snd].
    rewrite (Qlt_bool_true 0 (0 + w_linearRegression w3)) by lra.
    apply max0_wd. field. intros Hz. rewrite Hz in Hpos. discriminate Hpos.
  - assert (Hmodels : linearRegression (snd (forecast e history steps)) = linearRegression e /\
                      exponentialSmoothing (snd (forecast e history steps)) =
                        exponentialSmoothing e /\
                      autoRegression (snd (forecast e history steps)) = autoRegression e).
    { unfold forecast. rewrite Hp. destruct (Qlt_bool (weight_sum w3) 0.001); repeat split. }
    destruct Hmodels as (E1 & E2 & E3).
    unfold regression_only. rewrite E1, E2, E3, Hw.
    split; [exact Htrained|]. split; [exact Hlevel|]. split; [exact Hcoefs|].
    split; [now apply Qlt_le_weak|].
    split.
    + unfold w3, drop_autoRegression, drop_exponentialSmoothing.
      cbn [w_linearRegression w_exponentialSmoothing w_autoRegression].
      assert (E : 0 + (w_autoRegression (w e) + w_exponentialSmoothing (w e) / 2) / 2 ==
                  (1 # 2) * w_autoRegression (w e) +
                  (1 # 4) * w_exponentialSmoothing (w e)) by field.
      rewrite E. lra.
    + split; [|exact Hsum3]. unfold w3, drop_autoRegression. cbn [w_autoRegression].
      discriminate.
Qed.

(** The regression line through (0, 1), (1, 3), (2, 5). *)
Definition line_1_2 : LinearRegression.t :=
  {| LinearRegression.alpha := 1; LinearRegression.beta := 2;
     LinearRegression.trained := true |}.

End PricePrediction.

(* ===================================================================== *)
(** * The weights of the ensemble in binary64 ([ModelEnsemble], services/pricePrediction.js) *)
(* ===================================================================== *)

From Stdlib Require PrimFloat SpecFloat FloatOps Uint63.

Module EnsembleWeights.

Import PricePrediction.

(** ** Numbers

    What [trainAll] and [forecast] do to [this.weights] depends on the
    data only through the steps that throw.  It is embedded once more,
    over the operations applied to the weights, and read twice: over the
    rationals, where it is what [ModelEnsemble.trainAll] and
    [ModelEnsemble.forecast] above do, and over binary64, the numbers that
    the interpreter computes with. *)
Record arithmetic : Type := {
  number : Type;
  lit_0 : number;
  lit_1 : number;
  lit_2 : number;
  (** The literals [0.3], [0.4] and [0.001]. *)
  lit_0_3 : number;
  lit_0_4 : number;
  lit_0_001 : number;
  add : number -> number -> number;
  sub : number -> number -> number;
  mul : number -> number -> number;
  div : number -> number -> number;
  (** [Math.abs]. *)
  abs : number -> number;
  (** [x < y]; [x > y] is [ltb y x]. *)
  ltb : number -> number -> bool
}.

Definition exact : arithmetic :=
  {| number := Q;
     lit_0 := 0%Q; lit_1 := 1%Q; lit_2 := 2%Q;
     lit_0_3 := 0.3%Q; lit_0_4 := 0.4%Q; lit_0_001 := 0.001%Q;
     add := Qplus; sub := Qminus; mul := Qmult; div := Qdiv;
     abs := Qabs; ltb := Qlt_bool |}.

Module Binary64.
Import PrimFloat SpecFloat FloatOps.

(** The binary64 numbers that the literals denote. *)
#[warnings="-inexact-float"]
Definition three_tenths : float := 0.3%float.

#[warnings="-inexact-float"]
Definition four_tenths : float := 0.4%float.

#[warnings="-inexact-float"]
Definition thousandth : float := 0.001%float.



Definition seven : float := 7%float.

(** The binary64 number after 7: it is written 7.000000000000001. *)
Definition after_seven : float := 0x1.c000000000001p+2%float.

(** The rational number that a finite binary64 number is; [None] for
    the infinities and [NaN]. *)
Definition value (x : float) : option Q :=
  match Prim2SF x with
  | S754_zero _ => Some 0%Q
  | S754_finite s m e =>
      let magnitude :=
        if (0 <=? e)%Z then inject_Z (Zpos m * 2 ^ e)
        else Zpos m # Z.to_pos (2 ^ (- e)) in
      Some (if s then (- magnitude)%Q else magnitude)
  | _ => None
  end.

End Binary64.

Definition binary64 : arithmetic :=
  {| number := PrimFloat.float;
     lit_0 := PrimFloat.zero; lit_1 := PrimFloat.one; lit_2 := PrimFloat.two;
     lit_0_3 := Binary64.three_tenths; lit_0_4 := Binary64.four_tenths;
     lit_0_001 := Binary64.thousandth;
     add := PrimFloat.add; sub := PrimFloat.sub; mul := PrimFloat.mul;
     div := PrimFloat.div;
     abs := PrimFloat.abs; ltb := PrimFloat.ltb |}.

(** ** The weights *)

(** The steps of a call that throw. *)
Record failures : Type := {
  lr_fails : bool;
  es_fails : bool;
  ar_fails : bool
}.

Section Weights.

Variable A : arithmetic.

Record weights : Type := {
  linearRegression : number A;
  exponentialSmoothing : number A;
  autoRegression : number A
}.

(** [this.weights] as the constructor sets it. *)
Definition initial : weights :=
  {| linearRegression := lit_0_3 A;
     exponentialSmoothing := lit_0_3 A;
     autoRegression := lit_0_4 A |}.

(** The three handlers: [a += x / 2; b += x / 2; x = 0]. *)
Definition drop_linearRegression (x : weights) : weights :=
  {| linearRegression := lit_0 A;
     exponentialSmoothing :=
       add A (exponentialSmoothing x) (div A (linearRegression x) (lit_2 A));
     autoRegression :=
       add A (autoRegression x) (div A (linearRegression x) (lit_2 A)) |}.

Definition drop_exponentialSmoothing (x : weights) : weights :=
  {| linearRegression :=
       add A (linearRegression x) (div A (exponentialSmoothing x) (lit_2 A));
     exponentialSmoothing := lit_0 A;
     autoRegression :=
       add A (autoRegression x) (div A (exponentialSmoothing x) (lit_2 A)) |}.

Definition drop_autoRegression (x : weights) : weights :=
  {| linearRegression :=
       add A (linearRegression x) (div A (autoRegression x) (lit_2 A));
     exponentialSmoothing :=
       add A (exponentialSmoothing x) (div A (autoRegression x) (lit_2 A));
     autoRegression := lit_0 A |}.

(** The weights after [trainAll]: a failure of the regression leaves
    them alone, the two other failures run their handlers, in this
    order. *)
Definition trainAll_weights (f : failures) (x : weights) : weights :=
  let w1 := if es_fails f then drop_exponentialSmoothing x else x in
  if ar_fails f then drop_autoRegression w1 else w1.

(** [sumWeights], as [forecast] adds it up. *)
Definition sumWeights (x : weights) : number A :=
  add A (add A (linearRegression x) (exponentialSmoothing x)) (autoRegression x).

(** The weights after the three handlers of [forecast]. *)
Definition handlers (f : failures) (x : weights) : weights :=
  let w1 := if lr_fails f then drop_linearRegression x else x in
  let w2 := if es_fails f then drop_exponentialSmoothing w1 else w1 in
  if ar_fails f then drop_autoRegression w2 else w2.

(** The checks of [forecast] on [sumWeights]: below [0.001] the call
    returns with the weights as they are; off 1 by more than [0.001] the
    weights are divided by their sum. *)
Definition normalize (x : weights) : weights :=
  if ltb A (sumWeights x) (lit_0_001 A) then x
  else if ltb A (lit_0_001 A) (abs A (sub A (sumWeights x) (lit_1 A))) then
    {| linearRegression := div A (linearRegression x) (sumWeights x);
       exponentialSmoothing := div A (exponentialSmoothing x) (sumWeights x);
       autoRegression := div A (autoRegression x) (sumWeights x) |}
  else x.

(** The weights after [forecast]. *)
Definition forecast_weights (f : failures) (x : weights) : weights :=
  normalize (handlers f x).

(** [weightedSum / usedWeightSum] at a step for which only the regression
    has a prediction: [weightedSum] is [0 + weight * prediction] and
    [usedWeightSum] is [0 + weight]. *)
Definition regression_share (x : weights) (prediction : number A) : number A :=
  div A (add A (lit_0 A) (mul A (linearRegression x) prediction))
        (add A (lit_0 A) (linearRegression x)).

End Weights.

Arguments linearRegression {A}.
Arguments exponentialSmoothing {A}.
Arguments autoRegression {A}.

(** ** Over the rationals: the ensemble above *)

Definition of_model (x : ModelEnsemble.weights) : weights exact :=
  Build_weights exact
    (ModelEnsemble.w_linearRegression x)
    (ModelEnsemble.w_exponentialSmoothing x)
    (ModelEnsemble.w_autoRegression x).

Definition is_none {T : Type} (o : option T) : bool :=
  match o with Some _ => false | None => true end.

(** The steps of [trainAll(data)] that throw. *)
Definition train_failures (sqrt : Q -> Q) (e : ModelEnsemble.t) (data : list Q)
  : failures :=
  {| lr_fails :=
       is_none (LinearRegression.train (ModelEnsemble.linearRegression e)
                  (map of_nat (seq 0 (length data))) data);
     es_fails :=
       is_none (ExponentialSmoothing.fit (ModelEnsemble.exponentialSmoothing e) data);
     ar_fails :=
       negb (snd (AutoRegression.fit sqrt (ModelEnsemble.autoRegression e) data)) |}.

(** The steps of [forecast(history, steps)] that throw. *)
Definition forecast_failures (e : ModelEnsemble.t) (history : list Q) (steps : nat)
  : failures :=
  {| lr_fails :=
       is_none (LinearRegression.predict (ModelEnsemble.linearRegression e)
                  (map (fun i => (of_nat (length history) - 1 + of_nat i + 1)%Q)
                       (seq 0 steps)));
     es_fails :=
       is_none (ExponentialSmoothing.forecast (ModelEnsemble.exponentialSmoothing e) steps);
     ar_fails :=
       is_none (AutoRegression.forecast (ModelEnsemble.autoRegression e) history steps) |}.

Lemma trainAll_refines (sqrt : Q -> Q) (e e' : ModelEnsemble.t) (data : list Q) :
  ModelEnsemble.trainAll sqrt e data = Some e' ->
  of_model (ModelEnsemble.w e') =
    trainAll_weights exact (train_failures sqrt e data) (of_model (ModelEnsemble.w e)).
Proof.
  unfold ModelEnsemble.trainAll, trainAll_weights, train_failures.
  destruct (Nat.ltb (length data) 10); [discriminate|].
  cbn [es_fails ar_fails].
  destruct (ExponentialSmoothing.fit _ data) as [es|];
    destruct (AutoRegression.fit sqrt _ data) as [ar [|]];
    intros [= <-]; reflexivity.
Qed.

Lemma predictions_refines (e : ModelEnsemble.t) (history : list Q) (steps : nat) :
  of_model (snd (ModelEnsemble.predictions e history steps)) =
    handlers exact (forecast_failures e history steps) (of_model (ModelEnsemble.w e)).
Proof.
  unfold ModelEnsemble.predictions, forecast_failures, handlers.
  cbn [lr_fails es_fails ar_fails].
  destruct (LinearRegression.predict _ _);
    destruct (ExponentialSmoothing.forecast _ _);
    destruct (AutoRegression.forecast _ _ _); reflexivity.
Qed.

Lemma forecast_refines (e : ModelEnsemble.t) (history : list Q) (steps : nat) :
  of_model (ModelEnsemble.w (snd (ModelEnsemble.forecast e history steps))) =
    forecast_weights exact (forecast_failures e history steps)
      (of_model (ModelEnsemble.w e)).
Proof.
  unfold forecast_weights. rewrite <- predictions_refines.
  unfold ModelEnsemble.forecast.
  destruct (ModelEnsemble.predictions e history steps) as [[[lp ep] ap] w3].
  cbn [snd]. unfold normalize.
  change (sumWeights exact (of_model w3)) with (ModelEnsemble.weight_sum w3).
  change (ltb exact) with Qlt_bool.
  change (lit_0_001 exact) with 0.001%Q.
  destruct (Qlt_bool (ModelEnsemble.weight_sum w3) 0.001); cbn [snd ModelEnsemble.w];
    [reflexivity|].
  unfold ModelEnsemble.normalize.
  change (abs exact (sub exact (ModelEnsemble.weight_sum w3) (lit_1 exact)))
    with (Qabs (ModelEnsemble.weight_sum w3 - 1)).
  destruct (Qlt_bool 0.001 (Qabs (ModelEnsemble.weight_sum w3 - 1))); reflexivity.
Qed.

(** ** In binary64 *)

(** The sum of the three weights as rational numbers, without the
    rounding of [sumWeights]. *)
Definition total (x : weights binary64) : option Q :=
  match Binary64.value (linearRegression x),
        Binary64.value (exponentialSmoothing x),
        Binary64.value (autoRegression x) with
  | Some a, Some b, Some c => Some (Qred (a + b + c))
  | _, _, _ => None
  end.


(** The weights after training and one forecast of a new ensemble. *)
Definition run (training forecasting : failures) : weights binary64 :=
  forecast_weights binary64 forecasting
    (trainAll_weights binary64 training (initial binary64)).






(** ** An ensemble with the regression alone *)

Definition smoothing_and_autoregression_fail : failures :=
  {| lr_fails := false; es_fails := true; ar_fails := true |}.

Lemma share_exact (x : ModelEnsemble.weights) (p : Q) :
  (0 < ModelEnsemble.w_linearRegression x)%Q ->
  (regression_share exact (of_model x) p == p)%Q.
Proof.
  intros H. unfold regression_share, of_model.
  cbn [linearRegression lit_0 add mul div exact].
  field. lra.
Qed.

(** X23.  An ensemble of which only the regression can predict (it is
    trained, the smoothing has no level, the autoregression no coefficients,
    and the weights are non-negative with sum 1), such as the synthetic,
    the fallback and the emergency model of [createPredictionModel].  In
    exact arithmetic every call of [forecast] returns the regression line,
    the value of the line at the next indices of the history cut off at
    zero, moves the weights of the two other models to the regression and
    leaves an ensemble of the same kind, so that the same holds of every
    later call.  In binary64 the quotient [(0 + w * p) / (0 + w)] that the
    code returns need not be the prediction [p] of the line: with the
    weights of a new ensemble after the two handlers and the prediction 7
    it is 7.000000000000001. *)
Theorem linear_only_forecast (e : ModelEnsemble.t) (history : list Q) (steps : nat) :
  regression_only e ->
  Forall2 Qeq
    (fst (ModelEnsemble.forecast e history steps))
    (map (fun i =>
            max0 (LinearRegression.alpha (ModelEnsemble.linearRegression e) +
                  LinearRegression.beta (ModelEnsemble.linearRegression e) *
                    (of_nat (length history) + of_nat i))%Q)
         (seq 0 steps)) /\
  ModelEnsemble.w (snd (ModelEnsemble.forecast e history steps)) =
    ModelEnsemble.drop_autoRegression
      (ModelEnsemble.drop_exponentialSmoothing (ModelEnsemble.w e)) /\
  regression_only (snd (ModelEnsemble.forecast e history steps)) /\
  (forall p : Q,
     (regression_share exact
        (of_model (ModelEnsemble.w (snd (ModelEnsemble.forecast e history steps)))) p
      == p)%Q) /\
  regression_share binary64
    (handlers binary64 smoothing_and_autoregression_fail (initial binary64))
    Binary64.seven =
    Binary64.after_seven.
Proof.
  intros H.
  destruct (regression_only_forecast e history steps H) as (Hline & Hw & Hafter).
  split; [exact Hline|]. split; [exact Hw|]. split; [exact Hafter|]. split.
  - intros p. destruct H as (_ & _ & _ & Hlr & Hes & Har & Hsum).
    rewrite Hw. apply share_exact.
    cbn [ModelEnsemble.w_linearRegression ModelEnsemble.drop_autoRegression
         ModelEnsemble.drop_exponentialSmoothing ModelEnsemble.w_exponentialSmoothing
         ModelEnsemble.w_autoRegression].
    unfold ModelEnsemble.weight_sum in Hsum.
    assert (E : (ModelEnsemble.w_linearRegression (ModelEnsemble.w e) +
                 ModelEnsemble.w_exponentialSmoothing (ModelEnsemble.w e) / 2 +
                 (ModelEnsemble.w_autoRegression (ModelEnsemble.w e) +
                  ModelEnsemble.w_exponentialSmoothing (ModelEnsemble.w e) / 2) / 2 ==
                 ModelEnsemble.w_linearRegression (ModelEnsemble.w e) +
                 (3 # 4) * ModelEnsemble.w_exponentialSmoothing (ModelEnsemble.w e) +
                 (1 # 2) * ModelEnsemble.w_autoRegression (ModelEnsemble.w e))%Q) by field.
    rewrite E. lra.
  - vm_compute. reflexivity.
Qed.

Lemma linear_only_forecast_witness :
  Forall2 Qeq
    (fst (ModelEnsemble.forecast (linear_only line_1_2) [1; 3; 5]%Q 2))
    [max0 (1 + 2 * (3 + 0))%Q; max0 (1 + 2 * (3 + 1))%Q].
Proof.
  apply (linear_only_forecast (linear_only line_1_2) [1; 3; 5]%Q 2).
  repeat split; try reflexivity; discriminate.
Defined.

End EnsembleWeights.

(* ===================================================================== *)
(** * Correlation engine ([CorrelationAnalysisService], services/correlationAnalysis.js) *)
(* ===================================================================== *)

From Stdlib Require Import Reals Lra.

Module CorrelationAnalysis.

(** ** Numbers

    The engine is embedded once, over the operations that it applies to
    numbers, and read twice: over the reals, for what holds of the
    formula, and over binary64, the numbers that the interpreter computes
    with. *)
Record arithmetic : Type := {
  carrier : Type;
  n_zero : carrier;
  n_one : carrier;
  n_add : carrier -> carrier -> carrier;
  n_sub : carrier -> carrier -> carrier;
  n_mul : carrier -> carrier -> carrier;
  n_div : carrier -> carrier -> carrier;
  (** [Math.sqrt]. *)
  n_sqrt : carrier -> carrier;
  (** The length of an array, as a number. *)
  n_of_nat : nat -> carrier;
  (** [x === 0]. *)
  n_is_zero : carrier -> bool;
  (** [parseFloat(x.toFixed(4))]. *)
  n_round4 : carrier -> carrier
}.

(** *** The reals *)

(** Rounding to the nearest integer, ties away from zero. *)
Definition round_half_away (x : R) : Z :=
  if Rlt_dec x 0 then (- Zfloor (- x + / 2))%Z else Zfloor (x + / 2).

Definition round4 (x : R) : R := (IZR (round_half_away (x * 10000)) / 10000)%R.

Definition reals : arithmetic :=
  {| carrier := R;
     n_zero := 0%R;
     n_one := 1%R;
     n_add := Rplus;
     n_sub := Rminus;
     n_mul := Rmult;
     n_div := Rdiv;
     n_sqrt := sqrt;
     n_of_nat := INR;
     n_is_zero := fun x => if Req_dec_T x 0 then true else false;
     n_round4 := round4 |}.

(** *** binary64 *)

Module Binary64.
Import PrimFloat SpecFloat FloatOps.
Local Open Scope float_scope.

Definition of_Z (n : Z) : float := of_uint63 (Uint63.of_Z n).

(** [parseFloat(x.toFixed(4))].  [toFixed] takes the integer [n] nearest
    to the magnitude of [x] times [10^4] (the larger one on a tie) and
    writes [n / 10^4] in decimal, after the sign of [x]; [parseFloat]
    reads the nearest binary64 number back.  A multiple of [2^-4] has at
    most four decimals and is read back as it is; so are [NaN], the
    infinities and, through [toString], the numbers from [10^21] on.  A
    zero of either sign is written [0.0000]. *)
Definition round4 (x : float) : float :=
  match Prim2SF x with
  | S754_zero _ => 0
  | S754_finite s m e =>
      if (-4 <=? e)%Z then x
      else
        let n := ((2 * Zpos m * 10000 + 2 ^ (- e)) / 2 ^ (- e + 1))%Z in
        let magnitude := of_Z n / 10000 in
        if s then - magnitude else magnitude
  | _ => x
  end.

(** The binary64 number that the literal [0.1] denotes. *)
#[warnings="-inexact-float"]
Definition tenth : float := 0.1.

End Binary64.

Definition binary64 : arithmetic :=
  {| carrier := PrimFloat.float;
     n_zero := PrimFloat.zero;
     n_one := PrimFloat.one;
     n_add := PrimFloat.add;
     n_sub := PrimFloat.sub;
     n_mul := PrimFloat.mul;
     n_div := PrimFloat.div;
     n_sqrt := PrimFloat.sqrt;
     n_of_nat := fun n => Binary64.of_Z (Z.of_nat n);
     n_is_zero := fun x => PrimFloat.eqb x PrimFloat.zero;
     n_round4 := Binary64.round4 |}.

(** ** The engine *)

Section Engine.

Variable A : arithmetic.

#[warnings="-notation-for-abbreviation"]
Local Notation number := (carrier A).

(** A row of [price_history] as selected by the service, and a point of
    a prepared time series. *)
Record row : Type := {
  row_price : number;
  row_timestamp : string
}.

Record point : Type := {
  timestamp : Z;
  price : number
}.

(** *** [Map] keyed by timestamps, in insertion order *)

Fixpoint map_set (k : Z) (v : number) (m : list (Z * number)) : list (Z * number) :=
  match m with
  | [] => [(k, v)]
  | (k', v') :: m' => if Z.eqb k' k then (k, v) :: m' else (k', v') :: map_set k v m'
  end.

Fixpoint map_get (k : Z) (m : list (Z * number)) : option number :=
  match m with
  | [] => None
  | (k', v') :: m' => if Z.eqb k' k then Some v' else map_get k m'
  end.

Definition map_has (k : Z) (m : list (Z * number)) : bool :=
  match map_get k m with Some _ => true | None => false end.

(** [new Map(series.map(item => [item.timestamp, item.price]))]. *)
Definition map_of_series (s : list point) : list (Z * number) :=
  fold_left (fun m item => map_set (timestamp item) (price item) m) s [].

(** [alignTimeSeries(series1, series2)]: [prices1] and [prices2]. *)
Definition alignTimeSeries (series1 series2 : list point) : list number * list number :=
  let map1 := map_of_series series1 in
  let map2 := map_of_series series2 in
  let commonTimestamps := List.filter (fun ts => map_has ts map2) (map fst map1) in
  (map (fun ts => default (n_zero A) (map_get ts map1)) commonTimestamps,
   map (fun ts => default (n_zero A) (map_get ts map2)) commonTimestamps).

(** [prices.reduce((sum, price) => sum + price, 0)]. *)
Definition sum (l : list number) : number := fold_left (n_add A) l (n_zero A).

(** One round of the loop over the aligned prices: the numerator and
    the two denominators. *)
Definition accumulate (mean1 mean2 : number) (acc : number * number * number)
    (p : number * number) : number * number * number :=
  let '(numerator, denominator1, denominator2) := acc in
  let diff1 := n_sub A (fst p) mean1 in
  let diff2 := n_sub A (snd p) mean2 in
  (n_add A numerator (n_mul A diff1 diff2),
   n_add A denominator1 (n_mul A diff1 diff1),
   n_add A denominator2 (n_mul A diff2 diff2)).

(** The sums of the loop of [calculatePearsonCorrelation]. *)
Definition sums (prices1 prices2 : list number) : number * number * number :=
  let mean1 := n_div A (sum prices1) (n_of_nat A (length prices1)) in
  let mean2 := n_div A (sum prices2) (n_of_nat A (length prices2)) in
  fold_left (accumulate mean1 mean2) (combine prices1 prices2)
            (n_zero A, n_zero A, n_zero A).

(** [calculatePearsonCorrelation(series1, series2)]. *)
Definition calculatePearsonCorrelation (series1 series2 : list point) : number :=
  let '(prices1, prices2) := alignTimeSeries series1 series2 in
  if Nat.ltb (length prices1) 2 then n_zero A
  else
    let '(numerator, denominator1, denominator2) := sums prices1 prices2 in
    if n_is_zero A denominator1 || n_is_zero A denominator2 then n_zero A
    else
      n_round4 A
        (n_div A numerator (n_mul A (n_sqrt A denominator1) (n_sqrt A denominator2))).

(** *** The matrix *)

(** [result.correlations]: an object of objects. *)
#[warnings="-notation-for-abbreviation"]
Local Notation matrix := (gmap string (gmap string number)).

(** [m[a][b]]. *)
Definition entry (m : matrix) (a b : string) : option number :=
  match m !! a with
  | Some r => r !! b
  | None => None
  end.

(** [if (!m[a]) m[a] = {}; m[a][b] = v]. *)
Definition set_entry (m : matrix) (a b : string) (v : number) : matrix :=
  <[ a := <[ b := v ]> (default ∅ (m !! a)) ]> m.

(** The inner loop over the assets after [crypto1]. *)
Definition pair_with (crypto1 : string) (series1 : list point)
    (rest : list (string * list point)) (m : matrix) : matrix :=
  fold_left
    (fun m c2 =>
       let correlation := calculatePearsonCorrelation series1 (snd c2) in
       set_entry (set_entry m crypto1 (fst c2) correlation) (fst c2) crypto1 correlation)
    rest m.

(** The outer loop of [calculateCorrelationMatrix]. *)
Fixpoint matrix_rows (timeSeries : list (string * list point)) (m : matrix) : matrix :=
  match timeSeries with
  | [] => m
  | (crypto1, series1) :: rest =>
      matrix_rows rest
        (pair_with crypto1 series1 rest (set_entry m crypto1 crypto1 (n_one A)))
  end.

Record result : Type := {
  res_timestamp : Z;
  res_timeFrame : string;
  correlations : matrix
}.

(** [calculateCorrelationMatrix(timeSeries)], on the entries of the
    object in the order of [Object.keys]. *)
Definition calculateCorrelationMatrix (timeSeries : list (string * list point)) (now : Z)
  : result :=
  {| res_timestamp := now; res_timeFrame := "daily";
     correlations := matrix_rows timeSeries ∅ |}.

(** *** [calculateCorrelations] *)

(** Assignment [obj[key] = v] on an object whose keys are kept in the
    order of their first assignment.  (JavaScript enumerates the keys
    that are array indices before the others; the order of the assets
    changes which series of a pair is aligned first and nothing else.) *)
Fixpoint obj_set {V : Type} (k : string) (v : V) (o : list (string * V))
  : list (string * V) :=
  match o with
  | [] => [(k, v)]
  | (k', v') :: o' =>
      if String.eqb k' k then (k, v) :: o' else (k', v') :: obj_set k v o'
  end.

Fixpoint obj_get {V : Type} (k : string) (o : list (string * V)) : option V :=
  match o with
  | [] => None
  | (k', v') :: o' => if String.eqb k' k then Some v' else obj_get k o'
  end.

(** [new Date(s).getTime()], and the answer of the database to the
    history query of an asset over the window. *)
Variable getTime : string -> Z.
Variable history : string -> list row.

(** One round of the loop that fills [historicalData]. *)
Definition collect_step (historicalData : list (string * list row)) (cryptoId : string)
  : list (string * list row) :=
  match history cryptoId with
  | [] => historicalData
  | priceData => obj_set cryptoId priceData historicalData
  end.

Definition collect (cryptoIds : list string) : list (string * list row) :=
  fold_left collect_step cryptoIds [].

Definition prepare (data : list row) : list point :=
  map (fun item => {| timestamp := getTime (row_timestamp item);
                      price := row_price item |}) data.

(** [prepareTimeSeries(historicalData)]. *)
Definition prepareTimeSeries (historicalData : list (string * list row))
  : list (string * list point) :=
  map (fun e => (fst e, prepare (snd e))) historicalData.

(** [calculateCorrelations(cryptoIds, days)]; [saved] tells whether the
    transaction of [saveCorrelations] went through.  [None] is a thrown
    error. *)
Definition calculateCorrelations (cryptoIds : list string) (now : Z) (saved : bool)
  : option result :=
  if Nat.ltb (length cryptoIds) 2 then None
  else
    let historicalData := collect cryptoIds in
    if Nat.ltb (length historicalData) 2 then None
    else
      let correlationMatrix :=
        calculateCorrelationMatrix (prepareTimeSeries historicalData) now in
      if saved then Some correlationMatrix else None.

(** The value that the loops leave in [m[a][b]], read off the list of
    entries. *)
Fixpoint expected (timeSeries : list (string * list point)) (a b : string) : option number :=
  match timeSeries with
  | [] => None
  | (crypto1, series1) :: rest =>
      if String.eqb a crypto1 then
        if String.eqb b crypto1 then Some (n_one A)
        else option_map (calculatePearsonCorrelation series1) (obj_get b rest)
      else if String.eqb b crypto1 then
        option_map (calculatePearsonCorrelation series1) (obj_get a rest)
      else expected rest a b
  end.

End Engine.

Arguments row_price {A} _.
Arguments row_timestamp {A} _.
Arguments timestamp {A} _.
Arguments price {A} _.
Arguments res_timestamp {A} _.
Arguments res_timeFrame {A} _.
Arguments correlations {A} _.

(** ** The entries of the matrix, over any numbers *)

Section Entries.

Variable A : arithmetic.

Lemma entry_set (m : gmap string (gmap string (carrier A))) (x y : string)
    (v : carrier A) (a b : string) :
  entry A (set_entry A m x y v) a b =
    if String.eqb a x && String.eqb b y then Some v else entry A m a b.
Proof.
  unfold entry, set_entry.
  destruct (String.eqb_spec a x) as [->|Ha]; simpl.
  - rewrite lookup_insert_eq.
    destruct (String.eqb_spec b y) as [->|Hb].
    + apply lookup_insert_eq.
    + rewrite lookup_insert_ne by congruence.
      destruct (m !! x); [reflexivity|apply lookup_empty].
  - rewrite lookup_insert_ne by congruence. reflexivity.
Qed.

Lemma obj_get_None {V : Type} (k : string) (o : list (string * V)) :
  obj_get k o = None <-> ~ In k (map fst o).
Proof.
  induction o as [|[k' v'] o IH]; simpl; [tauto|].
  destruct (String.eqb_spec k' k) as [->|Hk].
  - split; [discriminate|]. intros H. exfalso. apply H. now left.
  - rewrite IH. split; [intros H [E|E]; [congruence|contradiction]|tauto].
Qed.

Lemma obj_get_In {V : Type} (k : string) (v : V) (o : list (string * V)) :
  obj_get k o = Some v -> In k (map fst o).
Proof.
  intros H. destruct (in_dec string_dec k (map fst o)) as [Hin|Hout]; [exact Hin|].
  apply obj_get_None in Hout. congruence.
Qed.

Lemma obj_get_fresh {V : Type} (k : string) (o : list (string * V)) :
  k ∉ map fst o -> obj_get k o = None.
Proof. intros H. apply obj_get_None. now rewrite <- list_elem_of_In. Qed.

(** The inner loop writes the pair of entries of [crypto1] with each
    later asset and nothing else. *)
Lemma pair_with_entry (crypto1 : string) (series1 : list (point A))
    (rest : list (string * list (point A))) (m : gmap string (gmap string (carrier A)))
    (a b : string) :
  obj_get crypto1 rest = None -> NoDup (map fst rest) ->
  entry A (pair_with A crypto1 series1 rest m) a b =
    if String.eqb a crypto1 then
      match obj_get b rest with
      | Some series2 => Some (calculatePearsonCorrelation A series1 series2)
      | None => entry A m a b
      end
    else if String.eqb b crypto1 then
      match obj_get a rest with
      | Some series2 => Some (calculatePearsonCorrelation A series1 series2)
      | None => entry A m a b
      end
    else entry A m a b.
Proof.
  revert m. induction rest as [|[c2 s2] rest IH]; intros m Hc1 Hnd.
  - simpl. destruct (String.eqb a crypto1), (String.eqb b crypto1); reflexivity.
  - simpl in Hc1, Hnd. inversion Hnd as [|? ? Hc2 Hnd']; subst.
    destruct (String.eqb_spec c2 crypto1) as [E|Hne]; [discriminate|].
    apply obj_get_fresh in Hc2.
    unfold pair_with in *. cbn [fold_left fst snd].
    rewrite (IH _ Hc1 Hnd'). rewrite !entry_set. cbn [obj_get].
    repeat match goal with
           | |- context [String.eqb ?x ?y] =>
               destruct (String.eqb_spec x y); subst; try congruence
           end;
      rewrite ?Hc2, ?Hc1; simpl; try reflexivity;
      repeat match goal with
             | |- context [obj_get ?k rest] => destruct (obj_get k rest)
             end; reflexivity.
Qed.

Lemma expected_keys (timeSeries : list (string * list (point A))) (a b : string)
    (v : carrier A) :
  expected A timeSeries a b = Some v ->
  In a (map fst timeSeries) /\ In b (map fst timeSeries).
Proof.
  induction timeSeries as [|[c1 s1] rest IH]; simpl; [discriminate|].
  destruct (String.eqb_spec a c1) as [->|Ha].
  - destruct (String.eqb_spec b c1) as [->|Hb]; [intros _; split; now left|].
    destruct (obj_get b rest) eqn:E; [|discriminate].
    intros _. split; [now left|right; now apply (obj_get_In b l)].
  - destruct (String.eqb_spec b c1) as [->|Hb].
    + destruct (obj_get a rest) eqn:E; [|discriminate].
      intros _. split; [right; now apply (obj_get_In a l)|now left].
    + intros H. destruct (IH H). split; now right.
Qed.

(** The loops of [calculateCorrelationMatrix] leave [expected] in the
    matrix. *)
Lemma matrix_rows_entry (timeSeries : list (string * list (point A)))
    (m : gmap string (gmap string (carrier A))) (a b : string) :
  NoDup (map fst timeSeries) ->
  entry A (matrix_rows A timeSeries m) a b =
    match expected A timeSeries a b with
    | Some v => Some v
    | None => entry A m a b
    end.
Proof.
  revert m. induction timeSeries as [|[c1 s1] rest IH]; intros m Hnd; [reflexivity|].
  simpl in Hnd. inversion Hnd as [|? ? Hc1 Hnd']; subst.
  cbn [matrix_rows expected]. rewrite (IH _ Hnd').
  assert (Hc1' : obj_get c1 rest = None) by now apply obj_get_fresh.
  rewrite list_elem_of_In in Hc1.
  rewrite (pair_with_entry c1 s1 rest _ a b Hc1' Hnd'), !entry_set.
  destruct (String.eqb_spec a c1) as [->|Ha].
  - destruct (expected A rest c1 b) eqn:E;
      [apply expected_keys in E as [E _]; contradiction|].
    destruct (String.eqb_spec b c1) as [->|Hb].
    + now rewrite Hc1'.
    + simpl. destruct (obj_get b rest); reflexivity.
  - destruct (String.eqb_spec b c1) as [->|Hb].
    + destruct (expected A rest a c1) eqn:E;
        [apply expected_keys in E as [_ E]; contradiction|].
      simpl. destruct (obj_get a rest); reflexivity.
    + simpl. reflexivity.
Qed.

Lemma expected_diagonal (timeSeries : list (string * list (point A))) (a : string) :
  In a (map fst timeSeries) -> expected A timeSeries a a = Some (n_one A).
Proof.
  induction timeSeries as [|[c1 s1] rest IH]; simpl; [contradiction|].
  destruct (String.eqb_spec a c1) as [->|Ha]; [reflexivity|].
  intros [E|Hin]; [congruence|]. now apply IH.
Qed.

Lemma expected_symmetric (timeSeries : list (string * list (point A))) (a b : string) :
  expected A timeSeries a b = expected A timeSeries b a.
Proof.
  induction timeSeries as [|[c1 s1] rest IH]; simpl; [reflexivity|].
  destruct (String.eqb_spec a c1), (String.eqb_spec b c1); subst; auto.
Qed.

(** The entry of two distinct assets is the coefficient of their series,
    aligned in the order of the keys. *)
Lemma expected_pair (timeSeries : list (string * list (point A))) (a b : string)
    (sa sb : list (point A)) :
  obj_get a timeSeries = Some sa -> obj_get b timeSeries = Some sb -> a <> b ->
  expected A timeSeries a b = Some (calculatePearsonCorrelation A sa sb) \/
  expected A timeSeries a b = Some (calculatePearsonCorrelation A sb sa).
Proof.
  induction timeSeries as [|[c1 s1] rest IH]; simpl; [discriminate|].
  rewrite (String.eqb_sym c1 a), (String.eqb_sym c1 b).
  destruct (String.eqb_spec a c1) as [->|Ha].
  - intros [= ->] Hb Hab. destruct (String.eqb_spec b c1) as [->|Hb']; [congruence|].
    rewrite Hb. now left.
  - destruct (String.eqb_spec b c1) as [->|Hb].
    + intros Hsa [= ->] _. rewrite Hsa. now right.
    + exact IH.
Qed.

(** *** The assets of the matrix *)

Lemma obj_get_set {V : Type} (k k' : string) (v : V) (o : list (string * V)) :
  obj_get k' (obj_set k v o) = if String.eqb k k' then Some v else obj_get k' o.
Proof.
  induction o as [|[k0 v0] o IH]; simpl.
  - reflexivity.
  - destruct (String.eqb_spec k0 k) as [->|Hk0]; simpl.
    + destruct (String.eqb k k'); reflexivity.
    + rewrite IH. destruct (String.eqb_spec k0 k') as [->|Hk'].
      * destruct (String.eqb_spec k k'); [congruence|reflexivity].
      * reflexivity.
Qed.

Lemma obj_set_keys {V : Type} (k k' : string) (v : V) (o : list (string * V)) :
  In k' (map fst (obj_set k v o)) -> k' = k \/ In k' (map fst o).
Proof.
  intros H. destruct (String.eqb_spec k k') as [->|Hne]; [now left|right].
  destruct (obj_get k' o) eqn:E; [now apply (obj_get_In k' v0)|].
  exfalso. apply (proj1 (obj_get_None k' (obj_set k v o))); [|exact H].
  rewrite obj_get_set. destruct (String.eqb_spec k k'); [congruence|exact E].
Qed.

Lemma obj_set_NoDup {V : Type} (k : string) (v : V) (o : list (string * V)) :
  NoDup (map fst o) -> NoDup (map fst (obj_set k v o)).
Proof.
  induction o as [|[k0 v0] o IH]; simpl; intros H.
  - apply NoDup_singleton.
  - apply NoDup_cons in H as [Hk0 Ho].
    destruct (String.eqb_spec k0 k) as [->|Hne]; simpl.
    + apply NoDup_cons. split; assumption.
    + apply NoDup_cons. split; [|now apply IH].
      rewrite list_elem_of_In. intros Hin. apply obj_set_keys in Hin as [E|Hin].
      * congruence.
      * apply Hk0. now apply list_elem_of_In.
Qed.

Variable getTime : string -> Z.
Variable history : string -> list (row A).

Lemma collect_invariant (cryptoIds : list string) (acc : list (string * list (row A))) :
  NoDup (map fst acc) ->
  (forall a v, obj_get a acc = Some v -> v = history a) ->
  NoDup (map fst (fold_left (collect_step A history) cryptoIds acc)) /\
  (forall a, (In a cryptoIds /\ history a <> []) \/ is_Some (obj_get a acc) ->
             obj_get a (fold_left (collect_step A history) cryptoIds acc) = Some (history a)).
Proof.
  revert acc. induction cryptoIds as [|id ids IH]; intros acc Hnd Hval; simpl.
  - split; [exact Hnd|]. intros a [[[] _]|[v Hv]]. now rewrite Hv, (Hval a v Hv).
  - assert (Hstep : NoDup (map fst (collect_step A history acc id)) /\
                    (forall a v, obj_get a (collect_step A history acc id) = Some v ->
                                 v = history a) /\
                    (forall a, (a = id /\ history a <> []) \/ is_Some (obj_get a acc) ->
                               is_Some (obj_get a (collect_step A history acc id)))).
    { unfold collect_step. destruct (history id) as [|r0 rs] eqn:Hid.
      - split; [exact Hnd|]. split; [exact Hval|].
        intros a [[-> Hne]|Hs]; [congruence|exact Hs].
      - split; [now apply obj_set_NoDup|]. split.
        + intros a v. rewrite obj_get_set.
          destruct (String.eqb_spec id a) as [<-|Hne]; [intros [= <-]; now rewrite Hid|].
          apply Hval.
        + intros a Ha. rewrite obj_get_set.
          destruct (String.eqb_spec id a) as [<-|Hne]; [eexists; reflexivity|].
          destruct Ha as [[-> _]|Hs]; [congruence|exact Hs]. }
    destruct Hstep as (S1 & S2 & S3).
    destruct (IH (collect_step A history acc id) S1 S2) as [I1 I2].
    split; [exact I1|]. intros a Ha. apply I2.
    destruct Ha as [[[<-|Hin] Hne]|Hs].
    + right. apply S3. left. now split.
    + left. now split.
    + right. apply S3. now right.
Qed.

Lemma collect_spec (cryptoIds : list string) :
  NoDup (map fst (collect A history cryptoIds)) /\
  (forall a, In a cryptoIds -> history a <> [] ->
             obj_get a (collect A history cryptoIds) = Some (history a)).
Proof.
  destruct (collect_invariant cryptoIds []) as [H1 H2].
  - apply NoDup_nil_2.
  - discriminate.
  - split; [exact H1|]. intros a Hin Hne. apply H2. left. now split.
Qed.

Lemma prepareTimeSeries_keys (historicalData : list (string * list (row A))) :
  map fst (prepareTimeSeries A getTime historicalData) = map fst historicalData.
Proof.
  unfold prepareTimeSeries. rewrite map_map. reflexivity.
Qed.

Lemma prepareTimeSeries_get (historicalData : list (string * list (row A))) (a : string) :
  obj_get a (prepareTimeSeries A getTime historicalData) =
    option_map (prepare A getTime) (obj_get a historicalData).
Proof.
  induction historicalData as [|[k v] o IH]; simpl; [reflexivity|].
  destruct (String.eqb k a); [reflexivity|exact IH].
Qed.

(** In every matrix that [calculateCorrelations] returns, whatever the
    numbers: each requested asset that has a price history has
    self-correlation 1; the matrix is symmetric; and two distinct such
    assets have, in both directions, the coefficient of their two series
    aligned in the order of the keys. *)
Lemma correlation_matrix_shape (cryptoIds : list string) (now : Z) (saved : bool)
    (r : result A) :
  calculateCorrelations A getTime history cryptoIds now saved = Some r ->
  (forall a b, entry A (correlations r) a b =
               expected A (prepareTimeSeries A getTime (collect A history cryptoIds)) a b) /\
  (forall a, In a cryptoIds -> history a <> [] ->
             entry A (correlations r) a a = Some (n_one A)) /\
  (forall a b, entry A (correlations r) a b = entry A (correlations r) b a) /\
  (forall a b,
     In a cryptoIds -> history a <> [] -> In b cryptoIds -> history b <> [] -> a <> b ->
     exists series1 series2,
       ((series1 = prepare A getTime (history a) /\ series2 = prepare A getTime (history b)) \/
        (series1 = prepare A getTime (history b) /\ series2 = prepare A getTime (history a))) /\
       entry A (correlations r) a b = Some (calculatePearsonCorrelation A series1 series2) /\
       entry A (correlations r) b a = Some (calculatePearsonCorrelation A series1 series2)).
Proof.
  unfold calculateCorrelations.
  destruct (Nat.ltb (length cryptoIds) 2); [discriminate|].
  destruct (Nat.ltb (length (collect A history cryptoIds)) 2); [discriminate|].
  destruct saved; [|discriminate]. intros [= <-]. cbn [correlations calculateCorrelationMatrix].
  destruct (collect_spec cryptoIds) as [Hnd Hget].
  set (ts := prepareTimeSeries A getTime (collect A history cryptoIds)).
  assert (Hts : NoDup (map fst ts)).
  { unfold ts. now rewrite prepareTimeSeries_keys. }
  assert (Hentry : forall a b, entry A (matrix_rows A ts ∅) a b = expected A ts a b).
  { intros a b. rewrite (matrix_rows_entry ts ∅ a b Hts).
    destruct (expected A ts a b); [reflexivity|]. unfold entry. now rewrite lookup_empty. }
  assert (Hseries : forall a, In a cryptoIds -> history a <> [] ->
                              obj_get a ts = Some (prepare A getTime (history a))).
  { intros a Hin Hne. unfold ts. rewrite prepareTimeSeries_get, (Hget a Hin Hne).
    reflexivity. }
  split; [exact Hentry|]. split; [|split].
  - intros a Hin Hne. rewrite Hentry. apply expected_diagonal.
    now apply (obj_get_In a (prepare A getTime (history a))), Hseries.
  - intros a b. rewrite !Hentry. apply expected_symmetric.
  - intros a b Ha Hna Hb Hnb Hab. rewrite !Hentry, (expected_symmetric ts b a).
    destruct (expected_pair ts a b _ _ (Hseries a Ha Hna) (Hseries b Hb Hnb) Hab) as [E|E];
      rewrite E.
    + exists (prepare A getTime (history a)), (prepare A getTime (history b)).
      split; [left; split; reflexivity|]. split; reflexivity.
    + exists (prepare A getTime (history b)), (prepare A getTime (history a)).
      split; [right; split; reflexivity|]. split; reflexivity.
Qed.

End Entries.

(** ** Over the reals: the coefficient lies in [-1, 1] *)

Section Exact.

Local Open Scope R_scope.

Ltac over_reals :=
  cbv [reals carrier n_zero n_one n_add n_sub n_mul n_div n_sqrt n_of_nat
       n_is_zero n_round4] in *.

(** Cauchy-Schwarz, as an invariant of the loop: the square of the
    numerator never exceeds the product of the denominators. *)
Definition bounded_sums (acc : R * R * R) : Prop :=
  let '(n, d1, d2) := acc in n * n <= d1 * d2 /\ 0 <= d1 /\ 0 <= d2.

Lemma accumulate_bounded (mean1 mean2 : R) (acc : R * R * R) (p : R * R) :
  bounded_sums acc -> bounded_sums (accumulate reals mean1 mean2 acc p).
Proof.
  destruct acc as [[n d1] d2]. unfold bounded_sums, accumulate. over_reals.
  set (a := fst p - mean1). set (b := snd p - mean2).
  intros (Hn & H1 & H2).
  assert (Ha : 0 <= a * a) by apply Rle_0_sqr.
  assert (Hb : 0 <= b * b) by apply Rle_0_sqr.
  split; [|split; lra].
  assert (Hx : 0 <= d1 * (b * b)) by now apply Rmult_le_pos.
  assert (Hy : 0 <= d2 * (a * a)) by now apply Rmult_le_pos.
  assert (Hcross : 2 * (n * (a * b)) <= d1 * (b * b) + d2 * (a * a)).
  { apply Rsqr_incr_0_var; [|lra]. unfold Rsqr.
    assert (Hsq : (n * (a * b)) * (n * (a * b)) <= (d1 * (b * b)) * (d2 * (a * a))).
    { replace ((n * (a * b)) * (n * (a * b))) with ((n * n) * ((a * a) * (b * b))) by ring.
      replace ((d1 * (b * b)) * (d2 * (a * a))) with ((d1 * d2) * ((a * a) * (b * b))) by ring.
      apply Rmult_le_compat_r; [now apply Rmult_le_pos|exact Hn]. }
    pose proof (Rle_0_sqr (d1 * (b * b) - d2 * (a * a))) as Hd. unfold Rsqr in Hd.
    lra. }
  lra.
Qed.

Lemma sums_bounded (prices1 prices2 : list R) : bounded_sums (sums reals prices1 prices2).
Proof.
  unfold sums.
  assert (G : forall m1 m2 ps acc, bounded_sums acc ->
                bounded_sums (fold_left (accumulate reals m1 m2) ps acc)).
  { intros m1 m2. induction ps as [|p ps IH]; intros acc H; simpl; [exact H|].
    apply IH. now apply accumulate_bounded. }
  apply G. unfold bounded_sums. over_reals. lra.
Qed.

(** The quotient of the numerator by the roots of the denominators. *)
Lemma quotient_bounded (n d1 d2 : R) :
  n * n <= d1 * d2 -> 0 <= d1 -> 0 <= d2 -> d1 <> 0 -> d2 <> 0 ->
  -1 <= n / (sqrt d1 * sqrt d2) <= 1.
Proof.
  intros Hn H1 H2 N1 N2.
  assert (P1 : 0 < sqrt d1) by (apply sqrt_lt_R0; lra).
  assert (P2 : 0 < sqrt d2) by (apply sqrt_lt_R0; lra).
  set (s := sqrt d1 * sqrt d2).
  assert (Ps : 0 < s) by now apply Rmult_lt_0_compat.
  assert (Hs : s * s = d1 * d2).
  { unfold s. replace (sqrt d1 * sqrt d2 * (sqrt d1 * sqrt d2))
      with ((sqrt d1 * sqrt d1) * (sqrt d2 * sqrt d2)) by ring.
    now rewrite !sqrt_sqrt. }
  assert (Hle : n <= s).
  { apply Rsqr_incr_0_var; [unfold Rsqr; lra|lra]. }
  assert (Hge : - n <= s).
  { apply Rsqr_incr_0_var; [unfold Rsqr; lra|lra]. }
  split.
  - apply (Rmult_le_reg_r s); [exact Ps|]. unfold Rdiv.
    rewrite Rmult_assoc, Rinv_l by lra. lra.
  - apply (Rmult_le_reg_r s); [exact Ps|]. unfold Rdiv.
    rewrite Rmult_assoc, Rinv_l by lra. lra.
Qed.

(** Rounding to four places keeps a value of [-1, 1] in [-1, 1]. *)
Lemma round4_bounded (x : R) : -1 <= x <= 1 -> -1 <= round4 x <= 1.
Proof.
  intros [Hlo Hhi]. unfold round4, round_half_away.
  assert (B : (-10000 <= (if Rlt_dec (x * 10000) 0
                          then - Zfloor (- (x * 10000) + / 2)
                          else Zfloor (x * 10000 + / 2)) <= 10000)%Z).
  { destruct (Rlt_dec (x * 10000) 0) as [Hneg|Hpos].
    - pose proof (Zfloor_bound (- (x * 10000) + / 2)) as [F1 F2].
      assert (0 <= Zfloor (- (x * 10000) + / 2))%Z by (apply Zfloor_lub; simpl; lra).
      assert (Zfloor (- (x * 10000) + / 2) < 10001)%Z.
      { apply lt_IZR. lra. }
      lia.
    - pose proof (Zfloor_bound (x * 10000 + / 2)) as [F1 F2].
      assert (0 <= Zfloor (x * 10000 + / 2))%Z by (apply Zfloor_lub; simpl; lra).
      assert (Zfloor (x * 10000 + / 2) < 10001)%Z.
      { apply lt_IZR. lra. }
      lia. }
  destruct B as [B1 B2]. apply IZR_le in B1, B2.
  unfold Rdiv. split; lra.
Qed.

Lemma pearson_bounded (series1 series2 : list (point reals)) :
  -1 <= calculatePearsonCorrelation reals series1 series2 <= 1.
Proof.
  unfold calculatePearsonCorrelation.
  destruct (alignTimeSeries reals series1 series2) as [prices1 prices2].
  destruct (Nat.ltb (length prices1) 2); [over_reals; lra|].
  pose proof (sums_bounded prices1 prices2) as H.
  destruct (sums reals prices1 prices2) as [[n d1] d2]. destruct H as (Hn & H1 & H2).
  over_reals.
  destruct (Req_dec_T d1 0); [simpl; lra|]. destruct (Req_dec_T d2 0); [simpl; lra|].
  simpl. apply round4_bounded. now apply quotient_bounded.
Qed.

Lemma expected_bounded (timeSeries : list (string * list (point reals))) (a b : string)
    (v : R) :
  expected reals timeSeries a b = Some v -> -1 <= v <= 1.
Proof.
  induction timeSeries as [|[c1 s1] rest IH]; simpl; [discriminate|].
  destruct (String.eqb a c1).
  - destruct (String.eqb b c1); [intros [= <-]; over_reals; lra|].
    destruct (obj_get b rest); simpl; [|discriminate].
    intros [= <-]. apply pearson_bounded.
  - destruct (String.eqb b c1); [|exact IH].
    destruct (obj_get a rest); simpl; [|discriminate].
    intros [= <-]. apply pearson_bounded.
Qed.

(** *** Series that do not vary *)

(** Every price of the list is the same number: the variance is zero. *)
Definition constant (prices : list R) : Prop := exists c, Forall (eq c) prices.

(** The pair has fewer than two aligned points, or one of the aligned
    series does not vary. *)
Definition degenerate (series1 series2 : list (point reals)) : Prop :=
  let '(prices1, prices2) := alignTimeSeries reals series1 series2 in
  (length prices1 < 2)%nat \/ constant prices1 \/ constant prices2.

Lemma sum_constant (c : R) (l : list R) :
  Forall (eq c) l -> sum reals l = INR (length l) * c.
Proof.
  unfold sum. over_reals.
  assert (G : forall a, Forall (eq c) l -> fold_left Rplus l a = a + INR (length l) * c).
  { induction l as [|x l IH]; intros a H.
    - simpl. lra.
    - apply List.Forall_cons_iff in H as [<- H].
      cbn [fold_left]. rewrite (IH _ H). cbn [length]. rewrite S_INR. lra. }
  intros H. rewrite (G 0 H). lra.
Qed.

(** The mean of a constant list is its value. *)
Lemma mean_constant (c : R) (l : list R) :
  Forall (eq c) l -> l <> [] -> sum reals l / INR (length l) = c.
Proof.
  intros H Hne. rewrite (sum_constant c l H).
  assert (N : INR (length l) <> 0).
  { apply not_0_INR. destruct l; [congruence|discriminate]. }
  field. exact N.
Qed.

(** A difference that is always zero leaves its denominator at zero. *)
Lemma denominator1_constant (c mean2 : R) (ps : list (R * R)) (acc : R * R * R) :
  Forall (fun p => fst p = c) ps -> snd (fst acc) = 0 ->
  snd (fst (fold_left (accumulate reals c mean2) ps acc)) = 0.
Proof.
  revert acc. induction ps as [|p ps IH]; intros acc H H0; [exact H0|].
  apply List.Forall_cons_iff in H as [Hp H]. cbn [fold_left]. apply (IH _ H).
  destruct acc as [[n d1] d2]. unfold accumulate. over_reals. simpl in *.
  rewrite Hp, H0. ring.
Qed.

Lemma denominator2_constant (mean1 c : R) (ps : list (R * R)) (acc : R * R * R) :
  Forall (fun p => snd p = c) ps -> snd acc = 0 ->
  snd (fold_left (accumulate reals mean1 c) ps acc) = 0.
Proof.
  revert acc. induction ps as [|p ps IH]; intros acc H H0; [exact H0|].
  apply List.Forall_cons_iff in H as [Hp H]. cbn [fold_left]. apply (IH _ H).
  destruct acc as [[n d1] d2]. unfold accumulate. over_reals. simpl in *.
  rewrite Hp, H0. ring.
Qed.

Lemma sums_constant1 (prices1 prices2 : list R) :
  constant prices1 -> snd (fst (sums reals prices1 prices2)) = 0.
Proof.
  intros [c Hc]. unfold sums.
  destruct prices1 as [|x prices1]; [reflexivity|].
  change (n_div reals (sum reals (x :: prices1)) (n_of_nat reals (length (x :: prices1))))
    with (sum reals (x :: prices1) / INR (length (x :: prices1))).
  rewrite (mean_constant c _ Hc) by discriminate.
  apply denominator1_constant; [|reflexivity].
  apply List.Forall_forall. intros [p q] Hin. apply in_combine_l in Hin.
  symmetry. exact (proj1 (List.Forall_forall _ _) Hc p Hin).
Qed.

Lemma sums_constant2 (prices1 prices2 : list R) :
  constant prices2 -> snd (sums reals prices1 prices2) = 0.
Proof.
  intros [c Hc]. unfold sums.
  destruct prices2 as [|y prices2].
  { destruct prices1; reflexivity. }
  change (n_div reals (sum reals (y :: prices2)) (n_of_nat reals (length (y :: prices2))))
    with (sum reals (y :: prices2) / INR (length (y :: prices2))).
  rewrite (mean_constant c _ Hc) by discriminate.
  apply denominator2_constant; [|reflexivity].
  apply List.Forall_forall. intros [p q] Hin. apply in_combine_r in Hin.
  symmetry. exact (proj1 (List.Forall_forall _ _) Hc q Hin).
Qed.

(** A degenerate pair has correlation 0. *)
Lemma pearson_degenerate (series1 series2 : list (point reals)) :
  degenerate series1 series2 -> calculatePearsonCorrelation reals series1 series2 = 0.
Proof.
  unfold degenerate, calculatePearsonCorrelation.
  destruct (alignTimeSeries reals series1 series2) as [prices1 prices2].
  intros [H|H].
  - apply Nat.ltb_lt in H. now rewrite H.
  - destruct (Nat.ltb (length prices1) 2); [reflexivity|].
    assert (Z : snd (fst (sums reals prices1 prices2)) = 0 \/
                snd (sums reals prices1 prices2) = 0).
    { destruct H as [H|H]; [left; now apply sums_constant1|right; now apply sums_constant2]. }
    destruct (sums reals prices1 prices2) as [[n d1] d2]. simpl in Z. over_reals.
    destruct (Req_dec_T d1 0); [reflexivity|].
    destruct (Req_dec_T d2 0); [reflexivity|]. destruct Z; contradiction.
Qed.

End Exact.

(** X24.  Over the reals, in every matrix that [calculateCorrelations] returns:
    each requested asset that has a price history has self-correlation 1;
    the matrix is symmetric; every entry lies in [-1, 1]; and two distinct
    such assets have an entry in both directions, which is the rounded
    coefficient of their two series aligned in the order of the keys, and
    is 0 when that pair has fewer than 2 aligned points or one of its
    aligned series does not vary. *)
Theorem correlation_matrix_exact (getTime : string -> Z)
    (history : string -> list (row reals)) (cryptoIds : list string) (now : Z)
    (saved : bool) (r : result reals) :
  calculateCorrelations reals getTime history cryptoIds now saved = Some r ->
  (forall a, In a cryptoIds -> history a <> [] ->
             entry reals (correlations r) a a = Some 1%R) /\
  (forall a b, entry reals (correlations r) a b = entry reals (correlations r) b a) /\
  (forall a b v, entry reals (correlations r) a b = Some v -> (-1 <= v <= 1)%R) /\
  (forall a b,
     In a cryptoIds -> history a <> [] -> In b cryptoIds -> history b <> [] -> a <> b ->
     exists series1 series2,
       ((series1 = prepare reals getTime (history a) /\
         series2 = prepare reals getTime (history b)) \/
        (series1 = prepare reals getTime (history b) /\
         series2 = prepare reals getTime (history a))) /\
       entry reals (correlations r) a b =
         Some (calculatePearsonCorrelation reals series1 series2) /\
       entry reals (correlations r) b a =
         Some (calculatePearsonCorrelation reals series1 series2) /\
       (degenerate series1 series2 ->
        entry reals (correlations r) a b = Some 0%R /\
        entry reals (correlations r) b a = Some 0%R)).
Proof.
  intros H.
  destruct (correlation_matrix_shape reals getTime history cryptoIds now saved r H)
    as (Hentry & Hdiag & Hsym & Hpair).
  split; [exact Hdiag|]. split; [exact Hsym|]. split.
  - intros a b v. rewrite Hentry. apply expected_bounded.
  - intros a b Ha Hna Hb Hnb Hab.
    destruct (Hpair a b Ha Hna Hb Hnb Hab) as (s1 & s2 & Hs & E1 & E2).
    exists s1, s2. split; [exact Hs|]. split; [exact E1|]. split; [exact E2|].
    intros Hd. rewrite E1, E2, (pearson_degenerate _ _ Hd). split; reflexivity.
Qed.

(** The clock readings of three days. *)
Definition sample_getTime (s : string) : Z :=
  if String.eqb s "2024-01-01T00:00:00.000Z" then 1704067200000
  else if String.eqb s "2024-01-02T00:00:00.000Z" then 1704153600000
  else if String.eqb s "2024-01-03T00:00:00.000Z" then 1704240000000
  else 0.

(** Two assets with a row on each of the three days, and one without
    rows. *)
Definition sample_history (id : string) : list (row reals) :=
  if String.eqb id "bitcoin" then
    [ Build_row reals 100%R "2024-01-01T00:00:00.000Z";
      Build_row reals 110%R "2024-01-02T00:00:00.000Z";
      Build_row reals 120%R "2024-01-03T00:00:00.000Z" ]
  else if String.eqb id "ethereum" then
    [ Build_row reals 30%R "2024-01-01T00:00:00.000Z";
      Build_row reals 20%R "2024-01-02T00:00:00.000Z";
      Build_row reals 10%R "2024-01-03T00:00:00.000Z" ]
  else [].

Lemma correlation_matrix_exact_witness :
  entry reals
        (correlations
           (calculateCorrelationMatrix reals
              (prepareTimeSeries reals sample_getTime
                 (collect reals sample_history ["bitcoin"; "ethereum"; "tether"]))
              0))
        "bitcoin" "bitcoin" = Some 1%R.
Proof.
  apply (proj1 (correlation_matrix_exact sample_getTime sample_history
                  ["bitcoin"; "ethereum"; "tether"] 0 true _ eq_refl) "bitcoin").
  - simpl. auto.
  - discriminate.
Defined.

(** *** What the interpreter computes for two series that do not vary *)

(** Two assets whose price is [0.1] on each of the three days. *)
Definition steady_rows : list (row binary64) :=
  [ Build_row binary64 Binary64.tenth "2024-01-01T00:00:00.000Z";
    Build_row binary64 Binary64.tenth "2024-01-02T00:00:00.000Z";
    Build_row binary64 Binary64.tenth "2024-01-03T00:00:00.000Z" ].

Definition steady_history (id : string) : list (row binary64) :=
  if String.eqb id "tron" || String.eqb id "stellar" then steady_rows else [].

Definition steady_series : list (point binary64) :=
  prepare binary64 sample_getTime steady_rows.

(** C1 (the code departs from the claim).  Both assets of [steady_history]
    have the price [0.1] at each of their three common timestamps, so both
    aligned series have zero variance and the claim gives the pair the
    entry 0.  In binary64 the mean of the three prices is not [0.1] (the
    sum [0.1 + 0.1 + 0.1] is rounded), the two denominators are not zero,
    the test [denominator1 === 0 || denominator2 === 0] fails, and
    [calculateCorrelations] returns a matrix whose entry for the pair is
    1 in both directions. *)
Theorem constant_series_correlation_binary64 :
  alignTimeSeries binary64 steady_series steady_series =
    ([Binary64.tenth; Binary64.tenth; Binary64.tenth],
     [Binary64.tenth; Binary64.tenth; Binary64.tenth]) /\
  (let '(_, denominator1, denominator2) :=
     sums binary64 [Binary64.tenth; Binary64.tenth; Binary64.tenth]
                   [Binary64.tenth; Binary64.tenth; Binary64.tenth] in
   n_is_zero binary64 denominator1 || n_is_zero binary64 denominator2) = false /\
  option_map
    (fun r => (entry binary64 (correlations r) "tron" "stellar",
               entry binary64 (correlations r) "stellar" "tron"))
    (calculateCorrelations binary64 sample_getTime steady_history ["tron"; "stellar"]
       1704326400000 true)
  = Some (Some PrimFloat.one, Some PrimFloat.one).
Proof. vm_compute. repeat split. Qed.

(** The same rows over the reals: the entry of the pair is 0. *)
Lemma constant_series_correlation_exact (c : R) :
  let rows : list (row reals) :=
    [ Build_row reals c "2024-01-01T00:00:00.000Z";
      Build_row reals c "2024-01-02T00:00:00.000Z";
      Build_row reals c "2024-01-03T00:00:00.000Z" ] in
  calculatePearsonCorrelation reals (prepare reals sample_getTime rows)
                                    (prepare reals sample_getTime rows) = 0%R.
Proof.
  intros rows. apply pearson_degenerate. unfold degenerate.
  right. left. exists c. repeat constructor.
Qed.

(** ** The assets of the matrix, in any arithmetic *)

Section Assets.

Variable A : arithmetic.
Variable getTime : string -> Z.
Variable history : string -> list (row A).

(** The keys of [historicalData] are requested assets with a history. *)
Lemma collect_keys (cryptoIds : list string) (acc : list (string * list (row A)))
    (a : string) :
  In a (map fst (fold_left (collect_step A history) cryptoIds acc)) ->
  In a (map fst acc) \/ (In a cryptoIds /\ history a <> []).
Proof.
  revert acc. induction cryptoIds as [|id ids IH]; intros acc; simpl; [now left|].
  intros H. destruct (IH _ H) as [Hacc|[Hin Hne]]; [|right; split; [now right|exact Hne]].
  unfold collect_step in Hacc. destruct (history id) as [|r0 rs] eqn:Hid; [now left|].
  apply obj_set_keys in Hacc as [->|Hacc]; [|now left].
  right. split; [now left|]. now rewrite Hid.
Qed.

(** X25.  The matrix covers exactly the requested assets that have a
    price history, in floating point as over the reals.  In every matrix
    that [calculateCorrelations] returns, an entry exists for a pair of
    assets exactly when both were requested and both have at least one row
    of history in the window; the matrix is symmetric; and every diagonal
    entry is 1. *)
Theorem correlation_matrix_assets (cryptoIds : list string) (now : Z) (saved : bool)
    (r : result A) :
  calculateCorrelations A getTime history cryptoIds now saved = Some r ->
  (forall a b, is_Some (entry A (correlations r) a b) <->
               (In a cryptoIds /\ history a <> []) /\ (In b cryptoIds /\ history b <> [])) /\
  (forall a b, entry A (correlations r) a b = entry A (correlations r) b a) /\
  (forall a v, entry A (correlations r) a a = Some v -> v = n_one A).
Proof.
  intros H.
  destruct (correlation_matrix_shape A getTime history cryptoIds now saved r H)
    as (Hentry & Hdiag & Hsym & Hpair).
  assert (Hkey : forall a b v, entry A (correlations r) a b = Some v ->
                               In a cryptoIds /\ history a <> []).
  { intros a b v Hv. rewrite Hentry in Hv. apply expected_keys in Hv as [Ha _].
    rewrite prepareTimeSeries_keys in Ha. unfold collect in Ha.
    apply collect_keys in Ha as [[]|Ha]. exact Ha. }
  split; [|split; [exact Hsym|]].
  - intros a b. split.
    + intros [v Hv]. split; [exact (Hkey a b v Hv)|].
      rewrite Hsym in Hv. exact (Hkey b a v Hv).
    + intros [[Ha Hna] [Hb Hnb]].
      destruct (string_dec a b) as [->|Hab].
      * rewrite (Hdiag b Hb Hnb). now eexists.
      * destruct (Hpair a b Ha Hna Hb Hnb Hab) as (s1 & s2 & _ & E & _).
        rewrite E. now eexists.
  - intros a v Hv. destruct (Hkey a a v Hv) as [Ha Hna].
    rewrite (Hdiag a Ha Hna) in Hv. now injection Hv as <-.
Qed.

End Assets.

Lemma correlation_matrix_assets_witness :
  exists r,
    calculateCorrelations binary64 sample_getTime steady_history
      ["tron"; "stellar"; "tether"] 1704326400000 true = Some r /\
    (forall a b, entry binary64 (correlations r) a b = entry binary64 (correlations r) b a) /\
    (forall a v, entry binary64 (correlations r) a a = Some v -> v = PrimFloat.one).
Proof.
  eexists. split; [reflexivity|].
  exact (proj2 (correlation_matrix_assets binary64 sample_getTime steady_history
                  ["tron"; "stellar"; "tether"] 1704326400000 true _ eq_refl)).
Defined.

End CorrelationAnalysis.
